(** * Blog generation agent: a shallow embedding of the workflow and its steps

    The development follows the Python sources of the repository:

    - [src/blog_agent/agents/title_agent.py]        (module [TitleAgent])
    - [src/blog_agent/agents/content_agent.py]      (module [ContentAgent])
    - [src/blog_agent/agents/translation_agent.py]  (module [TranslationAgent])
    - [src/blog_agent/graph/router.py]              (module [Router])
    - [src/blog_agent/graph/workflow.py]            (module [Workflow])
    - [src/blog_agent/api/routes.py]                (module [Routes])

    Python strings are sequences of Unicode code points; the hosted language
    model, the clock and the standard output are effects of a small program
    monad; the state handed from step to step is a dictionary over a fixed
    set of keys. *)

From Stdlib Require Import List NArith ZArith QArith Bool Lia String Ascii.
From Stdlib Require Import DecimalString DecimalNat Qround.
Import ListNotations.

Close Scope Q_scope.
Local Open Scope list_scope.

(* ===================================================================== *)
(** * Python strings *)
(* ===================================================================== *)

Module Py.

(** A character is a Unicode code point, a [str] a sequence of them. *)
Definition char := N.
Definition str := list char.

(** String literals of the sources are ASCII; [u] reads one in. *)
Definition u (s : string) : str := map N_of_ascii (list_ascii_of_string s).

Definition str_eq_dec : forall a b : str, {a = b} + {a <> b} :=
  list_eq_dec N.eq_dec.

Definition str_eqb (a b : str) : bool :=
  if str_eq_dec a b then true else false.

(** [x in xs] for a list of strings. *)
Definition contains (xs : list str) (x : str) : bool :=
  if in_dec str_eq_dec x xs then true else false.

(** Truth value of a string: the empty string is false. *)
Definition truthy (s : str) : bool :=
  match s with [] => false | _ :: _ => true end.

(** Truth value of an [Optional[str]]: [None] and the empty string are false. *)
Definition truthy_opt (o : option str) : bool :=
  match o with None => false | Some s => truthy s end.

Definition in_ranges (table : list (N * N)) (c : char) : bool :=
  existsb (fun r => (fst r <=? c)%N && (c <=? snd r)%N) table.

(** [str.isspace] on one character (CPython's [_PyUnicode_IsWhitespace]). *)
Definition whitespace_table : list (N * N) :=
  [ (9, 13); (28, 32); (133, 133); (160, 160); (5760, 5760); (8192, 8202);
    (8232, 8233); (8239, 8239); (8287, 8287); (12288, 12288) ]%N.

Definition isspace (c : char) : bool := in_ranges whitespace_table c.

(** [str.isdigit] on one character: the code points whose Unicode
    Numeric_Type is Digit or Decimal (Unicode 14.0.0, as shipped with
    CPython 3.11). *)
Definition digit_table : list (N * N) :=
  [ (48, 57); (178, 179); (185, 185); (1632, 1641); (1776, 1785);
    (1984, 1993); (2406, 2415); (2534, 2543); (2662, 2671); (2790, 2799);
    (2918, 2927); (3046, 3055); (3174, 3183); (3302, 3311); (3430, 3439);
    (3558, 3567); (3664, 3673); (3792, 3801); (3872, 3881); (4160, 4169);
    (4240, 4249); (4969, 4977); (6112, 6121); (6160, 6169); (6470, 6479);
    (6608, 6618); (6784, 6793); (6800, 6809); (6992, 7001); (7088, 7097);
    (7232, 7241); (7248, 7257); (8304, 8304); (8308, 8313); (8320, 8329);
    (9312, 9320); (9332, 9340); (9352, 9360); (9450, 9450); (9461, 9469);
    (9471, 9471); (10102, 10110); (10112, 10120); (10122, 10130);
    (42528, 42537); (43216, 43225); (43264, 43273); (43472, 43481);
    (43504, 43513); (43600, 43609); (44016, 44025); (65296, 65305);
    (66720, 66729); (68160, 68163); (68912, 68921); (69216, 69224);
    (69714, 69722); (69734, 69743); (69872, 69881); (69942, 69951);
    (70096, 70105); (70384, 70393); (70736, 70745); (70864, 70873);
    (71248, 71257); (71360, 71369); (71472, 71481); (71904, 71913);
    (72016, 72025); (72784, 72793); (73040, 73049); (73120, 73129);
    (92768, 92777); (92864, 92873); (93008, 93017); (120782, 120831);
    (123200, 123209); (123632, 123641); (125264, 125273); (127232, 127242);
    (130032, 130041) ]%N.

Definition isdigit (c : char) : bool := in_ranges digit_table c.

(** [s.lstrip()], [s.rstrip()] and [s.strip()] with no argument. *)
Fixpoint lstrip (s : str) : str :=
  match s with
  | [] => []
  | c :: s' => if isspace c then lstrip s' else s
  end.

Definition rstrip (s : str) : str := rev (lstrip (rev s)).

Definition strip (s : str) : str := rstrip (lstrip s).

(** [s.split(sep)] for a one-character separator: never empty. *)
Fixpoint split (sep : char) (s : str) : list str :=
  match s with
  | [] => [[]]
  | c :: s' =>
      if (c =? sep)%N then [] :: split sep s'
      else match split sep s' with
           | [] => [[c]]
           | h :: t => (c :: h) :: t
           end
  end.

(** [s.split(sep, maxsplit)] for a one-character separator. *)
Fixpoint splitn (sep : char) (s : str) (maxsplit : nat) {struct s} : list str :=
  match maxsplit with
  | O => [s]
  | S m =>
      match s with
      | [] => [[]]
      | c :: s' =>
          if (c =? sep)%N then [] :: splitn sep s' m
          else match splitn sep s' maxsplit with
               | [] => [[c]]
               | h :: t => (c :: h) :: t
               end
      end
  end.

(** [xs[-1]] on a list of strings that is known not to be empty. *)
Definition last_item (xs : list str) : str := last xs [].

(** [s.split()] with no argument: the maximal runs of non-whitespace.
    [cur] holds the run being read, most recent character first. *)
Fixpoint split_ws_from (cur : str) (s : str) : list str :=
  match s with
  | [] => match cur with [] => [] | _ => [rev cur] end
  | c :: s' =>
      if isspace c then
        match cur with
        | [] => split_ws_from [] s'
        | _ => rev cur :: split_ws_from [] s'
        end
      else split_ws_from (c :: cur) s'
  end.

Definition split_ws (s : str) : list str := split_ws_from [] s.

(** [s[:n]]. *)
Definition slice_to (n : nat) (s : str) : str := firstn n s.

(** [sep.join(xs)]. *)
Fixpoint join (sep : str) (xs : list str) : str :=
  match xs with
  | [] => []
  | [x] => x
  | x :: rest => x ++ sep ++ join sep rest
  end.

(** [str(n)] for a natural number, in decimal. *)
Definition str_of_nat (n : nat) : str :=
  u (NilEmpty.string_of_uint (Nat.to_uint n)).

Definition newline : char := 10%N.
Definition dot : char := 46%N.
Definition rparen : char := 41%N.
Definition dquote : str := [34%N].
Definition quote : str := [39%N].

(** [enumerate(xs)]. *)
Definition enumerate {A} (xs : list A) : list (nat * A) :=
  combine (seq 0 (List.length xs)) xs.

End Py.

Import Py.

(* ===================================================================== *)
(** * Effects: the hosted model, the clock, the standard output *)
(* ===================================================================== *)

Module Effects.

(** Exceptions.  [KeyError] comes from [d[key]] on a missing key;
    [StopIteration] is what an exhausted iterator raises (the tests' mock,
    once its replies are used up); [Failure] is any other exception that is
    an [Exception], with its class name and message (a failed model call, an
    error of the graph library); [Interrupt] is an exception that is not an
    [Exception] ([KeyboardInterrupt], [SystemExit] and the like). *)
Inductive exn : Type :=
| KeyError (key : str)
| StopIteration
| Failure (class_name : str) (message : str)
| Interrupt (class_name : str) (message : str).

(** [str(e)]. *)
Definition exn_str (e : exn) : str :=
  match e with
  | KeyError key => quote ++ key ++ quote
  | StopIteration => []
  | Failure _ message => message
  | Interrupt _ message => message
  end.

(** [isinstance(e, Exception)]. *)
Definition is_exception (e : exn) : bool :=
  match e with
  | Interrupt _ _ => false
  | _ => true
  end.

(** The chat client built by [get_llm]; numbers that Python holds as floats
    (temperature, clock readings) are idealised as rationals. *)
Record ChatModel : Type := { temperature : Q }.

Inductive Message : Type :=
| SystemMessage (content : str)
| HumanMessage (content : str).

(** Programs: a tree of interactions with the outside.  [Invoke] is
    [llm.invoke(messages)], answered by the reply text or by an exception;
    [Time] is [time.time()]; [Print] is [print(line)]. *)
Inductive Prog (A : Type) : Type :=
| Ret (a : A)
| Raise (e : exn)
| Invoke (llm : ChatModel) (messages : list Message) (k : exn + str -> Prog A)
| Time (k : Q -> Prog A)
| Print (line : str) (k : Prog A).

Arguments Ret {A} a.
Arguments Raise {A} e.
Arguments Invoke {A} llm messages k.
Arguments Time {A} k.
Arguments Print {A} line k.

Fixpoint bind {A B} (p : Prog A) (f : A -> Prog B) : Prog B :=
  match p with
  | Ret a => f a
  | Raise e => Raise e
  | Invoke llm messages k => Invoke llm messages (fun r => bind (k r) f)
  | Time k => Time (fun t => bind (k t) f)
  | Print line k => Print line (bind k f)
  end.

(** [try: p except Exception as e: handler(e)]: the handler takes the
    exceptions that are an [Exception]; any other goes on. *)
Fixpoint try_except {A} (p : Prog A) (handler : exn -> Prog A) : Prog A :=
  match p with
  | Ret a => Ret a
  | Raise e => if is_exception e then handler e else Raise e
  | Invoke llm messages k =>
      Invoke llm messages (fun r => try_except (k r) handler)
  | Time k => Time (fun t => try_except (k t) handler)
  | Print line k => Print line (try_except k handler)
  end.

(** [llm.invoke(messages).content]: an exception of the call propagates. *)
Definition invoke (llm : ChatModel) (messages : list Message) : Prog str :=
  Invoke llm messages
    (fun r => match r with inl e => Raise e | inr text => Ret text end).

Definition time : Prog Q := Time (fun t => Ret t).

Definition print (line : str) : Prog unit := Print line (Ret tt).

(** [d[key]] on a key whose presence is the option. *)
Definition getitem {A} (key : str) (v : option A) : Prog A :=
  match v with
  | Some a => Ret a
  | None => Raise (KeyError key)
  end.

(** [d.get(key, default)]. *)
Definition get {A} (v : option A) (default : A) : A :=
  match v with
  | Some a => a
  | None => default
  end.

(** ** Running a program against an environment

    The environment answers the n-th model call and the n-th clock reading
    of a run.  A run yields the result and the trace of what happened. *)
Record Env : Type := {
  llm_reply : nat -> exn + str;
  clock : nat -> Q
}.

Inductive event : Type :=
| Called (llm : ChatModel) (messages : list Message) (reply : exn + str)
| Clock (t : Q)
| Printed (line : str).

Fixpoint exec {A} (p : Prog A) (env : Env) (ncalls nreads : nat)
  : (exn + A) * list event :=
  match p with
  | Ret a => (inr a, [])
  | Raise e => (inl e, [])
  | Invoke llm messages k =>
      let r := llm_reply env ncalls in
      let (res, tr) := exec (k r) env (S ncalls) nreads in
      (res, Called llm messages r :: tr)
  | Time k =>
      let t := clock env nreads in
      let (res, tr) := exec (k t) env ncalls (S nreads) in
      (res, Clock t :: tr)
  | Print line k =>
      let (res, tr) := exec k env ncalls nreads in
      (res, Printed line :: tr)
  end.

Definition run {A} (p : Prog A) (env : Env) : (exn + A) * list event :=
  exec p env 0 0.

(** The model calls of a trace, in order. *)
Fixpoint calls (tr : list event) : list (ChatModel * list Message) :=
  match tr with
  | [] => []
  | Called llm messages _ :: tr' => (llm, messages) :: calls tr'
  | _ :: tr' => calls tr'
  end.

Fixpoint reads (tr : list event) : nat :=
  match tr with
  | [] => 0
  | Clock _ :: tr' => S (reads tr')
  | _ :: tr' => reads tr'
  end.

(** A scripted model, as the tests mock it: the replies in order, and an
    exception once they are used up. *)
Definition scripted (replies : list str) (n : nat) : exn + str :=
  nth n (map inr replies) (inl StopIteration).

Definition mock (replies : list str) : Env :=
  {| llm_reply := scripted replies; clock := fun n => inject_Z (Z.of_nat n) |}.

(** Two programs that interact with the outside in the same way. *)
Inductive prog_eq {A} : Prog A -> Prog A -> Prop :=
| eq_Ret a : prog_eq (Ret a) (Ret a)
| eq_Raise e : prog_eq (Raise e) (Raise e)
| eq_Invoke llm messages k k' :
    (forall r, prog_eq (k r) (k' r)) ->
    prog_eq (Invoke llm messages k) (Invoke llm messages k')
| eq_Time k k' :
    (forall t, prog_eq (k t) (k' t)) -> prog_eq (Time k) (Time k')
| eq_Print line k k' :
    prog_eq k k' -> prog_eq (Print line k) (Print line k').

End Effects.

Import Effects.

Declare Scope prog_scope.
Delimit Scope prog_scope with prog.
Notation "x <- p ;; q" := (bind p (fun x => q))
  (at level 61, p at next level, right associativity) : prog_scope.
Notation "p ;; q" := (bind p (fun _ => q))
  (at level 61, right associativity) : prog_scope.
Local Open Scope prog_scope.

(* ===================================================================== *)
(** * The workflow state *)
(* ===================================================================== *)

(** Modelled from the spec: the dictionary type [BlogState], declared in
    [models/state.py], which is not among the sources.  Its keys are the
    fields of the spec's Workflow State; they are also the keys of the
    [initial_state] literal of [routes.py] and [workflow.py], which adds
    [generation_time].  A field is [None] when the key is missing from the
    dictionary; for the keys typed as optional text the inner option is
    Python's [None].  The update a step returns is a dictionary over the
    same keys. *)
Module State.

Record BlogState : Type := mkBlogState {
  topic : option str;
  transcript : option (option str);
  target_language : option (option str);
  style : option str;
  brainstormed_titles : option (list str);
  selected_title : option str;
  blog_content : option str;
  translated_content : option (option str);
  final_content : option str;
  word_count : option Z;
  generation_time : option Q
}.

(** The empty dictionary [{}]. *)
Definition empty : BlogState :=
  mkBlogState None None None None None None None None None None None.

(** [d[key] = v], one function per key a step writes. *)
Definition set_brainstormed_titles (v : list str) (d : BlogState) : BlogState :=
  mkBlogState (topic d) (transcript d) (target_language d) (style d)
    (Some v) (selected_title d) (blog_content d) (translated_content d)
    (final_content d) (word_count d) (generation_time d).

Definition set_selected_title (v : str) (d : BlogState) : BlogState :=
  mkBlogState (topic d) (transcript d) (target_language d) (style d)
    (brainstormed_titles d) (Some v) (blog_content d) (translated_content d)
    (final_content d) (word_count d) (generation_time d).

Definition set_blog_content (v : str) (d : BlogState) : BlogState :=
  mkBlogState (topic d) (transcript d) (target_language d) (style d)
    (brainstormed_titles d) (selected_title d) (Some v) (translated_content d)
    (final_content d) (word_count d) (generation_time d).

Definition set_translated_content (v : option str) (d : BlogState) : BlogState :=
  mkBlogState (topic d) (transcript d) (target_language d) (style d)
    (brainstormed_titles d) (selected_title d) (blog_content d) (Some v)
    (final_content d) (word_count d) (generation_time d).

Definition set_final_content (v : str) (d : BlogState) : BlogState :=
  mkBlogState (topic d) (transcript d) (target_language d) (style d)
    (brainstormed_titles d) (selected_title d) (blog_content d)
    (translated_content d) (Some v) (word_count d) (generation_time d).

Definition set_word_count (v : Z) (d : BlogState) : BlogState :=
  mkBlogState (topic d) (transcript d) (target_language d) (style d)
    (brainstormed_titles d) (selected_title d) (blog_content d)
    (translated_content d) (final_content d) (Some v) (generation_time d).

Definition override {A} (new old : option A) : option A :=
  match new with
  | Some v => Some v
  | None => old
  end.

(** The graph library's merge of a step's update into the state: every key
    of the update replaces the value held, the other keys are kept. *)
Definition update (state patch : BlogState) : BlogState :=
  mkBlogState
    (override (topic patch) (topic state))
    (override (transcript patch) (transcript state))
    (override (target_language patch) (target_language state))
    (override (style patch) (style state))
    (override (brainstormed_titles patch) (brainstormed_titles state))
    (override (selected_title patch) (selected_title state))
    (override (blog_content patch) (blog_content state))
    (override (translated_content patch) (translated_content state))
    (override (final_content patch) (final_content state))
    (override (word_count patch) (word_count state))
    (override (generation_time patch) (generation_time state)).

End State.

Import State.

(* ===================================================================== *)
(** * Prompt templates

    Each template is the function its [.format(...)] call computes. *)
(* ===================================================================== *)

Module Prompts.

(** [prompts/title_prompts.py] *)

Definition TITLE_SYSTEM_PROMPT : str :=
  u "You are an expert blog title writer with years of experience in SEO and content marketing.

Your titles are:
- Attention-grabbing (make people WANT to click)
- SEO-friendly (include relevant keywords naturally)
- Clear and specific (reader knows what they'll learn)
- Appropriately formatted (use numbers, power words)

You understand different writing styles:
- Professional: Industry terms, authoritative tone
- Casual: Friendly, conversational, relatable
- Technical: Precise, detailed, jargon-appropriate
- Storytelling: Narrative hooks, curiosity-building".

Definition TITLE_GENERATION_PROMPT (topic transcript_section style : str) : str :=
  u "Generate 5 creative and engaging blog post titles for the following topic.

TOPIC: "
  ++ topic
  ++ u "

"
  ++ transcript_section
  ++ u "

WRITING STYLE: "
  ++ style
  ++ u "

REQUIREMENTS:
1. Generate exactly 5 title options
2. Each title should be unique in approach
3. Use proven title formats (how-to, listicles, questions, etc.)
4. Keep titles under 60 characters for SEO
5. Include power words that trigger emotion

TITLE TYPES TO INCLUDE:
- One "
  ++ dquote
  ++ u "How to..."
  ++ dquote
  ++ u " title
- One numbered list title (e.g., "
  ++ dquote
  ++ u "10 Ways to..."
  ++ dquote
  ++ u ")
- One question-based title
- One benefit-focused title
- One creative/unique title

OUTPUT FORMAT:
Return ONLY the 5 titles, one per line, numbered 1-5.
Do not include any explanation or additional text.

Example output:
1. How to Master Remote Work in 30 Days
2. 7 Secrets Top Remote Workers Never Share
3. Why Are Remote Workers 40% More Productive?
4. The Ultimate Guide to Work-From-Home Success
5. Remote Work Revolution: Transform Your Career Today
".

Definition TITLE_SELECTION_PROMPT (titles topic style : str) : str :=
  u "From the following title options, select the BEST one for SEO and engagement.

TITLES:
"
  ++ titles
  ++ u "

TOPIC: "
  ++ topic
  ++ u "
STYLE: "
  ++ style
  ++ u "

Consider:
1. SEO value (keywords, length, searchability)
2. Click-through potential (would YOU click this?)
3. Accuracy (does it promise something the content can deliver?)
4. Style match (does it fit the requested writing style?)

OUTPUT FORMAT:
Return ONLY the single best title, nothing else.
".

(** [prompts/content_prompts.py] *)

Definition CONTENT_SYSTEM_PROMPT : str :=
  u "You are a professional blog writer with expertise in creating engaging, informative content.

Your writing style is:
- Clear and easy to read
- Well-structured with logical flow
- Rich with examples and practical advice
- Properly formatted for online reading
- SEO-conscious without being spammy

You write in Markdown format with:
- Proper heading hierarchy (##, ###)
- Bullet points for lists
- Bold text for emphasis
- Short paragraphs (2-3 sentences max)".

Definition CONTENT_GENERATION_PROMPT (title topic style transcript_section : str) : str :=
  u "Write a comprehensive blog post with the following specifications:

TITLE: "
  ++ title
  ++ u "
TOPIC: "
  ++ topic
  ++ u "
WRITING STYLE: "
  ++ style
  ++ u "

"
  ++ transcript_section
  ++ u "

REQUIREMENTS:
1. Length: 800-1200 words
2. Format: Markdown
3. Structure:
   - Engaging introduction (2-3 sentences with a hook)
   - Clear subheadings (use ## for main sections)
   - Practical examples or tips
   - Conclusion with a call-to-action

4. Style Guidelines based on "
  ++ dquote
  ++ style
  ++ dquote
  ++ u ":
   - Professional: Industry terms, data-backed claims, authoritative
   - Casual: Conversational, use "
  ++ dquote
  ++ u "you"
  ++ dquote
  ++ u ", relatable examples
   - Technical: Precise terminology, code examples if relevant
   - Storytelling: Narrative arc, personal anecdotes, emotional hooks

5. SEO Best Practices:
   - Use the main keyword in first paragraph
   - Include 2-3 subheadings with related keywords
   - Write meta-description-worthy first sentences

IMPORTANT:
- Do NOT include the title as an H1 (just start with introduction)
- Do NOT include "
  ++ dquote
  ++ u "Introduction"
  ++ dquote
  ++ u " or "
  ++ dquote
  ++ u "Conclusion"
  ++ dquote
  ++ u " as headings
- Make content genuinely useful, not filler

OUTPUT: Return ONLY the blog content in Markdown format.
".

Definition CONTENT_WITH_TRANSCRIPT_SECTION (transcript : str) : str :=
  u "
TRANSCRIPT TO REFERENCE:
The following is a transcript from a video/podcast. Use this as source material,
but DO NOT plagiarize. Synthesize the ideas in your own words.

---
"
  ++ transcript
  ++ u "
---

Key ideas to incorporate from the transcript:
- Main points discussed
- Any statistics or data mentioned
- Examples or stories shared
".

Definition CONTENT_NO_TRANSCRIPT_SECTION : str :=
  u "
Note: No source transcript provided. Generate content based solely on the topic.
Research-backed, practical advice is expected.
".

(** [prompts/translation_prompts.py] *)

Definition TRANSLATION_SYSTEM_PROMPT : str :=
  u "You are an expert translator and localization specialist.

Your translations are:
- Natural and fluent (sounds like a native wrote it)
- Culturally appropriate (adapts idioms, references)
- Accurate (preserves the original meaning)
- Consistent (maintains terminology throughout)

You preserve:
- Markdown formatting
- Original structure and flow
- The author's voice and tone
- Technical terms that shouldn't be translated".

Definition TRANSLATION_PROMPT (target_language content : str) : str :=
  u "Translate the following blog content into "
  ++ target_language
  ++ u ".

ORIGINAL CONTENT:
"
  ++ content
  ++ u "

TRANSLATION GUIDELINES:
1. Maintain all Markdown formatting (##, **, etc.)
2. Keep the same paragraph structure
3. Adapt idioms to natural equivalents (don't translate literally)
4. Preserve technical terms, brand names, and URLs unchanged
5. Match the tone of the original (professional, casual, etc.)

IMPORTANT:
- Do NOT add any translator notes or explanations
- Do NOT change the meaning or add new information
- Do NOT skip any sections

OUTPUT: Return ONLY the translated content in Markdown format.
".

End Prompts.

Import Prompts.

(* ===================================================================== *)
(** * [utils/llm.py] *)
(* ===================================================================== *)

(** [get_llm(temperature=...)] builds the client from the settings, on the
    first line of each step.  Building the client issues no model call.  It
    fails when the settings lack what the client needs (the key and the
    endpoint default to the empty string); that failure is not modelled:
    what follows speaks of runs in which the client could be built, as
    every run is in which the model answered a call. *)
Definition get_llm (temperature : Q) : ChatModel :=
  {| Effects.temperature := temperature |}.

(* ===================================================================== *)
(** * [agents/title_agent.py] *)
(* ===================================================================== *)

Module TitleAgent.

(** [line.split(".", 1)[-1].split(")", 1)[-1].strip()] *)
Definition extract_title (line : str) : str :=
  strip (last_item (splitn rparen (last_item (splitn dot line 1)) 1)).

(** The body of the loop over the lines of the reply; [titles] is the list
    being appended to. *)
Definition parse_line (titles : list str) (line : str) : list str :=
  let line := strip line in
  if truthy line && match line with c :: _ => isdigit c | [] => false end
  then
    let title := extract_title line in
    if truthy title then titles ++ [title] else titles
  else titles.

Definition parse_titles (content : str) : list str :=
  let raw_titles := strip content in
  fold_left parse_line (split newline raw_titles) [].

(** [f"{i+1}. {t}"] *)
Definition numbered (it : nat * str) : str :=
  str_of_nat (fst it + 1) ++ u ". " ++ snd it.

(** [titles[0]] *)
Definition first_item (titles : list str) : Prog str :=
  match titles with
  | t :: _ => Ret t
  | [] => Raise (Failure (u "IndexError") (u "list index out of range"))
  end.

Definition title_agent (state : BlogState) : Prog BlogState :=
  let llm := get_llm (8 # 10) in
  topic <- getitem (u "topic") (topic state) ;;
  let transcript := get (transcript state) None in
  let style := get (style state) (u "professional") in
  let transcript_section :=
    match transcript with
    | Some text =>
        if truthy text
        then u "SOURCE TRANSCRIPT:
" ++ slice_to 2000 text ++ u "..."
        else u "No transcript provided - generate titles based on topic alone."
    | None =>
        u "No transcript provided - generate titles based on topic alone."
    end in
  (* STEP 1: generate 5 title options *)
  let generation_prompt :=
    TITLE_GENERATION_PROMPT topic transcript_section style in
  generation_response <-
    invoke llm [SystemMessage TITLE_SYSTEM_PROMPT;
                HumanMessage generation_prompt] ;;
  let titles := parse_titles generation_response in
  let titles :=
    if negb (match titles with [] => false | _ => true end)
    then [u "Complete Guide to " ++ topic]
    else titles in
  (* STEP 2: select the best title *)
  let titles_formatted := join [newline] (map numbered (enumerate titles)) in
  let selection_prompt := TITLE_SELECTION_PROMPT titles_formatted topic style in
  selection_response <-
    invoke llm [SystemMessage TITLE_SYSTEM_PROMPT;
                HumanMessage selection_prompt] ;;
  let selected_title := strip selection_response in
  selected_title <-
    (if negb (contains titles selected_title)
     then first_item titles
     else Ret selected_title) ;;
  Ret (set_selected_title selected_title
        (set_brainstormed_titles titles State.empty)).

End TitleAgent.

(* ===================================================================== *)
(** * [agents/content_agent.py] *)
(* ===================================================================== *)

Module ContentAgent.

Definition content_agent (state : BlogState) : Prog BlogState :=
  let llm := get_llm (7 # 10) in
  topic <- getitem (u "topic") (topic state) ;;
  title <- getitem (u "selected_title") (selected_title state) ;;
  let transcript := get (transcript state) None in
  let style := get (style state) (u "professional") in
  let transcript_section :=
    match transcript with
    | Some text =>
        if truthy text && truthy (strip text)
        then
          let transcript_text := slice_to 5000 text in
          CONTENT_WITH_TRANSCRIPT_SECTION transcript_text
        else CONTENT_NO_TRANSCRIPT_SECTION
    | None => CONTENT_NO_TRANSCRIPT_SECTION
    end in
  let content_prompt :=
    CONTENT_GENERATION_PROMPT title topic style transcript_section in
  response <-
    invoke llm [SystemMessage CONTENT_SYSTEM_PROMPT;
                HumanMessage content_prompt] ;;
  let blog_content := strip response in
  let word_count := Z.of_nat (List.length (split_ws blog_content)) in
  Ret (set_final_content blog_content
        (set_word_count word_count
          (set_blog_content blog_content State.empty))).

End ContentAgent.

(* ===================================================================== *)
(** * [agents/translation_agent.py] *)
(* ===================================================================== *)

Module TranslationAgent.

Definition translation_agent (state : BlogState) : Prog BlogState :=
  let llm := get_llm (3 # 10) in
  content <- getitem (u "blog_content") (blog_content state) ;;
  let target_language := get (target_language state) (Some []) in
  (* Safety check - shouldn't be called without target language *)
  if negb (truthy_opt target_language)
  then
    Ret (set_final_content content
          (set_translated_content None State.empty))
  else
    let translation_prompt :=
      TRANSLATION_PROMPT (get target_language []) content in
    response <-
      invoke llm [SystemMessage TRANSLATION_SYSTEM_PROMPT;
                  HumanMessage translation_prompt] ;;
    let translated_content := strip response in
    Ret (set_final_content translated_content
          (set_translated_content (Some translated_content) State.empty)).

End TranslationAgent.

(* ===================================================================== *)
(** * [graph/router.py] *)
(* ===================================================================== *)

Module Router.

Definition should_translate (state : BlogState) : str :=
  let target_language := get (target_language state) None in
  if match target_language with
     | Some text => truthy text && truthy (strip text)
     | None => false
     end
  then u "translate"
  else u "end".

End Router.

(* ===================================================================== *)
(** * The graph library, as far as the workflow uses it *)
(* ===================================================================== *)

(** [StateGraph] is a builder: nodes are step functions under a name, edges
    lead from one name to another, and a conditional edge leaves a node
    through a routing function whose label is looked up in a table.
    Running the compiled graph starts at the target of the edge out of
    [START]; a superstep runs the active node on the current state, merges
    the update it returns, and follows the node's way out, the routing
    function reading the merged state; the run ends at [END].  The engine
    below follows one active node, which is all a graph needs whose nodes
    have one way out each (see [Spec.one_way_out]).

    An exception of a node ends the run and leaves [stream] and [invoke] as
    it is.  The library runs the nodes inside a generator, out of which a
    [StopIteration] comes as [RuntimeError('generator raised
    StopIteration')]; that conversion is not modelled, and what is said
    below of the exception a run raises is said of the exceptions other
    than [StopIteration]. *)
Module LangGraph.

Definition START : str := u "__start__".
Definition END : str := u "__end__".

(** The default bound on the number of supersteps of a run. *)
Definition recursion_limit : nat := 25.

Definition Node : Type := BlogState -> Prog BlogState.

Record Branch : Type := {
  path : BlogState -> str;
  path_map : list (str * str)
}.

Record StateGraph : Type := {
  nodes : list (str * Node);
  edges : list (str * str);
  branches : list (str * Branch)
}.

Definition new_graph : StateGraph :=
  {| nodes := []; edges := []; branches := [] |}.

Definition add_node (name : str) (action : Node) (builder : StateGraph)
  : StateGraph :=
  {| nodes := nodes builder ++ [(name, action)];
     edges := edges builder;
     branches := branches builder |}.

Definition add_edge (start_key end_key : str) (builder : StateGraph)
  : StateGraph :=
  {| nodes := nodes builder;
     edges := edges builder ++ [(start_key, end_key)];
     branches := branches builder |}.

Definition add_conditional_edges (source : str) (path : BlogState -> str)
  (path_map : list (str * str)) (builder : StateGraph) : StateGraph :=
  {| nodes := nodes builder;
     edges := edges builder;
     branches :=
       branches builder ++ [(source, {| path := path; path_map := path_map |})] |}.

Definition compile (builder : StateGraph) : StateGraph := builder.

Fixpoint lookup {A} (key : str) (table : list (str * A)) : option A :=
  match table with
  | [] => None
  | (k, v) :: rest => if str_eqb k key then Some v else lookup key rest
  end.

(** The way out of node [cur], once its update is merged into [state]. *)
Definition next (g : StateGraph) (cur : str) (state : BlogState)
  : Prog (option str) :=
  match lookup cur (edges g) with
  | Some target => Ret (Some target)
  | None =>
      match lookup cur (branches g) with
      | Some b =>
          let label := path b state in
          target <- getitem label (lookup label (path_map b)) ;;
          Ret (Some target)
      | None => Ret None
      end
  end.

(** The supersteps from node [cur] on; [log] collects the updates, one per
    node run, as [stream] reports them. *)
Fixpoint steps (g : StateGraph) (fuel : nat) (cur : str) (state : BlogState)
  (log : list (str * BlogState)) : Prog (list (str * BlogState) * BlogState) :=
  if str_eqb cur END then Ret (log, state)
  else
    match fuel with
    | O =>
        Raise (Failure (u "GraphRecursionError")
                 (u "Recursion limit reached without hitting a stop condition."))
    | S fuel' =>
        match lookup cur (nodes g) with
        | None => Raise (Failure (u "ValueError") (u "unknown node"))
        | Some action =>
            patch <- action state ;;
            let state' := State.update state patch in
            target <- next g cur state' ;;
            match target with
            | Some node => steps g fuel' node state' (log ++ [(cur, patch)])
            | None => Ret (log ++ [(cur, patch)], state')
            end
        end
    end.

(** [workflow.stream(state)], collected: the updates and the final state. *)
Definition stream (g : StateGraph) (state : BlogState)
  : Prog (list (str * BlogState) * BlogState) :=
  match lookup START (edges g) with
  | Some entry => steps g recursion_limit entry state []
  | None => Raise (Failure (u "ValueError") (u "graph has no entry point"))
  end.

(** [workflow.invoke(state)]. *)
Definition invoke (g : StateGraph) (state : BlogState) : Prog BlogState :=
  r <- stream g state ;; Ret (snd r).

End LangGraph.

(* ===================================================================== *)
(** * [graph/workflow.py] *)
(* ===================================================================== *)

Module Workflow.

Import LangGraph.

Definition create_workflow : StateGraph :=
  (* STEP 1: create the graph builder *)
  let builder := new_graph in
  (* STEP 2: add nodes (agents) *)
  let builder := add_node (u "title_agent") TitleAgent.title_agent builder in
  let builder :=
    add_node (u "content_agent") ContentAgent.content_agent builder in
  let builder :=
    add_node (u "translation_agent") TranslationAgent.translation_agent
      builder in
  (* STEP 3: add edges (connections) *)
  let builder := add_edge START (u "title_agent") builder in
  let builder := add_edge (u "title_agent") (u "content_agent") builder in
  (* STEP 4: add conditional edge (the router) *)
  let builder :=
    add_conditional_edges (u "content_agent") Router.should_translate
      [ (u "translate", u "translation_agent"); (u "end", END) ] builder in
  let builder := add_edge (u "translation_agent") END builder in
  (* STEP 5: compile the graph *)
  let workflow := compile builder in
  workflow.

(** [run_workflow(topic, transcript, target_language, style)] *)
Definition run_workflow (topic : str) (transcript target_language : option str)
  (style : str) : Prog BlogState :=
  start_time <- time ;;
  let workflow := create_workflow in
  let initial_state :=
    mkBlogState (Some topic) (Some transcript) (Some target_language)
      (Some style) (Some []) (Some []) (Some []) (Some None) (Some [])
      (Some 0%Z) (Some 0%Q) in
  final_state <- invoke workflow initial_state ;;
  now <- time ;;
  let generation_time := (now - start_time)%Q in
  Ret (mkBlogState
         (State.topic final_state) (State.transcript final_state)
         (State.target_language final_state) (State.style final_state)
         (brainstormed_titles final_state) (selected_title final_state)
         (blog_content final_state) (translated_content final_state)
         (final_content final_state) (word_count final_state)
         (Some generation_time)).

End Workflow.

(* ===================================================================== *)
(** * [models/api_models.py] and [api/routes.py] *)
(* ===================================================================== *)

Module BlogGenerationRequest.
Record t : Type := {
  topic : str;
  transcript : option str;
  target_language : option str;
  style : str
}.
End BlogGenerationRequest.

Module BlogGenerationResponse.
Record t : Type := {
  title : str;
  content : str;
  word_count : Z;
  generation_time_seconds : Q;
  was_translated : bool;
  target_language : option str;
  brainstormed_titles : list str
}.
End BlogGenerationResponse.

Module HTTPException.
(** [HTTPException(status_code, detail={"error": ..., "message": ...})] *)
Record t : Type := {
  status_code : Z;
  error : str;
  message : str
}.
End HTTPException.

Module Routes.

(** [round(x, 2)] on the rational idealisation: to the nearest hundredth,
    a tie going to the even one. *)
Definition round_half_even (x : Q) : Z :=
  let f := Qfloor x in
  match Qcompare (x - inject_Z f) (1 # 2) with
  | Lt => f
  | Gt => (f + 1)%Z
  | Eq => if Z.even f then f else (f + 1)%Z
  end.

Definition round2 (x : Q) : Q :=
  (inject_Z (round_half_even (x * inject_Z 100)) / inject_Z 100)%Q.

(** The [BlogGenerationResponse(...)] call of [generate_blog]: its
    arguments are evaluated in order, a missing key raising [KeyError]. *)
Definition build_response (request : BlogGenerationRequest.t)
  (result : BlogState) (generation_time : Q) : Prog BlogGenerationResponse.t :=
  title <- getitem (u "selected_title") (selected_title result) ;;
  content <- getitem (u "final_content") (final_content result) ;;
  word_count <- getitem (u "word_count") (State.word_count result) ;;
  let generation_time_seconds := round2 generation_time in
  let was_translated := truthy_opt (get (translated_content result) None) in
  let target_language := BlogGenerationRequest.target_language request in
  brainstormed_titles <-
    getitem (u "brainstormed_titles") (State.brainstormed_titles result) ;;
  Ret {| BlogGenerationResponse.title := title;
         BlogGenerationResponse.content := content;
         BlogGenerationResponse.word_count := word_count;
         BlogGenerationResponse.generation_time_seconds :=
           generation_time_seconds;
         BlogGenerationResponse.was_translated := was_translated;
         BlogGenerationResponse.target_language := target_language;
         BlogGenerationResponse.brainstormed_titles := brainstormed_titles |}.

Definition initial_state (request : BlogGenerationRequest.t) : BlogState :=
  mkBlogState
    (Some (BlogGenerationRequest.topic request))
    (Some (BlogGenerationRequest.transcript request))
    (Some (BlogGenerationRequest.target_language request))
    (Some (BlogGenerationRequest.style request))
    (Some []) (Some []) (Some []) (Some None) (Some [])
    (Some 0%Z) (Some 0%Q).

(** The body of the [try] block. *)
Definition generate (request : BlogGenerationRequest.t)
  (workflow : LangGraph.StateGraph) : Prog BlogGenerationResponse.t :=
  start_time <- time ;;
  let initial_state := initial_state request in
  result <- LangGraph.invoke workflow initial_state ;;
  now <- time ;;
  let generation_time := (now - start_time)%Q in
  build_response request result generation_time.

(** [generate_blog(request, workflow)]: the response, or the
    [HTTPException] raised by the handler of the [try] block. *)
Definition generate_blog (request : BlogGenerationRequest.t)
  (workflow : LangGraph.StateGraph)
  : Prog (HTTPException.t + BlogGenerationResponse.t) :=
  try_except
    (response <- generate request workflow ;; Ret (inr response))
    (fun e =>
       print (u "Error generating blog: " ++ exn_str e) ;;
       Ret (inl {| HTTPException.status_code := 500;
                   HTTPException.error := u "generation_failed";
                   HTTPException.message :=
                     u "Failed to generate blog: " ++ exn_str e |})).

End Routes.

(* ===================================================================== *)
(** * Specification-side definitions *)
(* ===================================================================== *)

Module Spec.

Import LangGraph.

(** The number of whitespace-delimited tokens of a text, counted where
    they begin: at a character that is not whitespace and that follows
    whitespace or starts the text. *)
Fixpoint count_tokens_from (after_space : bool) (s : str) : nat :=
  match s with
  | [] => 0
  | c :: s' =>
      if isspace c then count_tokens_from true s'
      else (if after_space then 1 else 0) + count_tokens_from false s'
  end.

Definition count_tokens (s : str) : nat := count_tokens_from true s.

(** The contract of "run", in the spec's words: apply the Title step and
    merge its patch; apply the Content step and merge its patch; evaluate
    the Branch Decision; if it is "translate", apply the Translation step
    and merge its patch; return the merged state.  The steps applied are
    listed next to the state, in order. *)
Definition spec_run (initial : BlogState)
  : Prog (list (str * BlogState) * BlogState) :=
  p1 <- TitleAgent.title_agent initial ;;
  let s1 := State.update initial p1 in
  p2 <- ContentAgent.content_agent s1 ;;
  let s2 := State.update s1 p2 in
  if str_eqb (Router.should_translate s2) (u "translate")
  then
    p3 <- TranslationAgent.translation_agent s2 ;;
    Ret ([ (u "title_agent", p1); (u "content_agent", p2);
           (u "translation_agent", p3) ],
         State.update s2 p3)
  else
    Ret ([ (u "title_agent", p1); (u "content_agent", p2) ], s2).

(** The title parser, in the spec's words: keep the lines that begin with
    a digit and strip the leading "N." or "N)" marker from each; what is
    left of the line, trimmed, is the candidate. *)
Fixpoint drop_digits (s : str) : str :=
  match s with
  | [] => []
  | c :: s' => if isdigit c then drop_digits s' else s
  end.

Definition strip_marker (line : str) : str :=
  match drop_digits line with
  | c :: rest => if (c =? dot)%N || (c =? rparen)%N then rest else line
  | [] => line
  end.

Definition begins_with_digit (line : str) : bool :=
  match line with
  | c :: _ => isdigit c
  | [] => false
  end.

Definition spec_parse_titles (content : str) : list str :=
  map (fun line => strip (strip_marker line))
    (filter begins_with_digit (map strip (split newline (strip content)))).




(** [ensures p Q]: whatever the outside answers, a value that [p] returns
    satisfies [Q]. *)
Fixpoint ensures {A} (p : Prog A) (Q : A -> Prop) : Prop :=
  match p with
  | Ret a => Q a
  | Raise _ => True
  | Invoke _ _ k => forall r, ensures (k r) Q
  | Time k => forall t, ensures (k t) Q
  | Print _ k => ensures k Q
  end.

(** [delivers p Q]: when every model call is answered, [p] returns, and
    what it returns satisfies [Q]. *)
Fixpoint delivers {A} (p : Prog A) (Q : A -> Prop) : Prop :=
  match p with
  | Ret a => Q a
  | Raise _ => False
  | Invoke _ _ k => forall text, delivers (k (inr text)) Q
  | Time k => forall t, delivers (k t) Q
  | Print _ k => delivers k Q
  end.

(** An environment whose model answers every call. *)
Definition answers (env : Env) : Prop :=
  forall n, exists text, llm_reply env n = inr text.

(** Each node of the graph has one way out: an edge or a conditional edge,
    not both and not two of a kind. *)
Definition ways_out (g : StateGraph) (name : str) : nat :=
  List.length (filter (fun e => str_eqb (fst e) name) (edges g))
  + List.length (filter (fun b => str_eqb (fst b) name) (branches g)).

Definition one_way_out (g : StateGraph) : bool :=
  forallb (fun n => Nat.eqb (ways_out g (fst n)) 1) (nodes g)
  && Nat.eqb (ways_out g START) 1.

End Spec.

(* ===================================================================== *)
(** * What the steps compute, named *)
(* ===================================================================== *)

Module Derived.

Import TitleAgent.

Definition nonempty (s : str) : Prop := s <> [].

(** The candidates the step works with: the parsed ones, or the
    synthesized one when there are none. *)
Definition candidates (topic generation : str) : list str :=
  match parse_titles generation with
  | [] => [u "Complete Guide to " ++ topic]
  | titles => titles
  end.

(** The title the step selects among [titles] on the reply [selection]. *)
Definition selection_of (titles : list str) (selection : str) : str :=
  if contains titles (strip selection) then strip selection
  else hd [] titles.

(** The update of the content step for the trimmed reply [text]. *)
Definition content_patch (text : str) : BlogState :=
  set_final_content text
    (set_word_count (Z.of_nat (List.length (split_ws text)))
       (set_blog_content text State.empty)).

(** The update of the translation step for the trimmed reply [text]. *)
Definition translation_patch (text : str) : BlogState :=
  set_final_content text (set_translated_content (Some text) State.empty).

(** The target language as the translation step reads it. *)
Definition language_given (state : BlogState) : bool :=
  truthy_opt (get (target_language state) (Some [])).

(** The names of the steps a run applied, in order. *)
Definition steps_applied (log : list (str * BlogState)) : list str :=
  map fst log.

Definition translation_ran (log : list (str * BlogState)) : Prop :=
  In (u "translation_agent") (steps_applied log).

(** What a complete run of the workflow leaves behind: the log of the
    steps applied and the final state, for a run started on [initial]. *)
Definition run_outcome (initial : BlogState)
  (r : list (str * BlogState) * BlogState) : Prop :=
  let (log, final) := r in
  exists titles selected reply,
    let content := strip reply in
    brainstormed_titles final = Some titles
    /\ selected_title final = Some selected
    /\ In selected titles
    /\ Forall nonempty titles
    /\ blog_content final = Some content
    /\ word_count final = Some (Z.of_nat (List.length (split_ws content)))
    /\ ((steps_applied log = [u "title_agent"; u "content_agent"]
         /\ final_content final = Some content
         /\ translated_content final = translated_content initial)
        \/ (steps_applied log
            = [u "title_agent"; u "content_agent"; u "translation_agent"]
            /\ exists translation,
                final_content final = Some (strip translation)
                /\ translated_content final
                   = Some (Some (strip translation)))).

(** The log of a complete run: the update of the title step, which holds
    the titles; the update of the content step, made from the text that is
    the [blog_content] of the final state; and, when the translation step
    ran, its update, made from the translated text. *)
Definition run_log (r : list (str * BlogState) * BlogState) : Prop :=
  let (log, final) := r in
  exists titles selected content,
    let p1 := set_selected_title selected
                (set_brainstormed_titles titles State.empty) in
    let p2 := content_patch content in
    blog_content final = Some content
    /\ (log = [ (u "title_agent", p1); (u "content_agent", p2) ]
        \/ exists translation,
            log = [ (u "title_agent", p1); (u "content_agent", p2);
                    (u "translation_agent", translation_patch translation) ]).

End Derived.

(* ===================================================================== *)
(** * Exchanges with the model *)
(* ===================================================================== *)

Module Traces.

(** One exchange with the model: the client, the messages sent, and the
    reply or the exception that came back. *)
Definition exchange : Type := ChatModel * list Message * (exn + str).

Fixpoint exchanges (tr : list event) : list exchange :=
  match tr with
  | [] => []
  | Called llm messages reply :: tr' => (llm, messages, reply) :: exchanges tr'
  | _ :: tr' => exchanges tr'
  end.

(** The lines printed in a trace, in order. *)
Fixpoint printed (tr : list event) : list str :=
  match tr with
  | [] => []
  | Printed line :: tr' => line :: printed tr'
  | _ :: tr' => printed tr'
  end.

Definition is_answer (x : exchange) : Prop := exists text, snd x = inr text.

(** Every call of [cs] got a reply. *)
Definition answered (cs : list exchange) : Prop := Forall is_answer cs.

(** The last call of [cs] raised [e], the calls before it got replies. *)
Definition model_failure (cs : list exchange) (e : exn) : Prop :=
  exists before llm messages,
    cs = before ++ [(llm, messages, inl e)] /\ answered before.

Definition temperatures (cs : list exchange) : list Q :=
  map (fun x => temperature (fst (fst x))) cs.

(** [satisfies p Q E]: whatever the outside answers, when [p] returns [a]
    after the exchanges [cs] then [Q cs a], and when it raises [e] after
    the exchanges [cs] then [E cs e]. *)
Fixpoint satisfies {A} (p : Prog A) (Q : list exchange -> A -> Prop)
  (E : list exchange -> exn -> Prop) : Prop :=
  match p with
  | Ret a => Q [] a
  | Raise e => E [] e
  | Invoke llm messages k =>
      forall r,
        satisfies (k r)
          (fun cs => Q ((llm, messages, r) :: cs))
          (fun cs => E ((llm, messages, r) :: cs))
  | Time k => forall t, satisfies (k t) Q E
  | Print _ k => satisfies k Q E
  end.

(** A program that never reads the clock. *)
Fixpoint clockless {A} (p : Prog A) : Prop :=
  match p with
  | Ret _ => True
  | Raise _ => True
  | Invoke _ _ k => forall r, clockless (k r)
  | Time _ => False
  | Print _ k => clockless k
  end.

End Traces.

(* ===================================================================== *)
(** * What each step does, as a relation between exchanges and results *)
(* ===================================================================== *)

Module Outcomes.

Import Traces Derived.

(** The title step returned [patch] after the exchanges [cs]. *)
Definition title_result (state : BlogState) (cs : list exchange)
  (patch : BlogState) : Prop :=
  exists topic generation selection m1 m2,
    State.topic state = Some topic
    /\ cs = [ (get_llm (8 # 10)%Q, m1, inr generation);
              (get_llm (8 # 10)%Q, m2, inr selection) ]
    /\ patch = set_selected_title
                 (selection_of (candidates topic generation) selection)
                 (set_brainstormed_titles (candidates topic generation)
                    State.empty).

(** A step raised [e] after the exchanges [cs]: a key it reads with
    [state[key]] is missing and no call was made, or its last call failed. *)
Definition title_failure (state : BlogState) (cs : list exchange) (e : exn)
  : Prop :=
  (State.topic state = None /\ cs = [] /\ e = KeyError (u "topic"))
  \/ model_failure cs e.

Definition content_result (state : BlogState) (cs : list exchange)
  (patch : BlogState) : Prop :=
  exists topic title reply m,
    State.topic state = Some topic
    /\ selected_title state = Some title
    /\ cs = [ (get_llm (7 # 10)%Q, m, inr reply) ]
    /\ patch = content_patch (strip reply).

Definition content_failure (state : BlogState) (cs : list exchange) (e : exn)
  : Prop :=
  (cs = []
   /\ ((State.topic state = None /\ e = KeyError (u "topic"))
       \/ (State.topic state <> None /\ selected_title state = None
           /\ e = KeyError (u "selected_title"))))
  \/ model_failure cs e.

Definition translation_result (state : BlogState) (cs : list exchange)
  (patch : BlogState) : Prop :=
  exists content,
    blog_content state = Some content
    /\ ((language_given state = false
         /\ cs = []
         /\ patch = set_final_content content
                      (set_translated_content None State.empty))
        \/ (language_given state = true
            /\ exists reply m,
                cs = [ (get_llm (3 # 10)%Q, m, inr reply) ]
                /\ patch = translation_patch (strip reply))).

Definition translation_failure (state : BlogState) (cs : list exchange)
  (e : exn) : Prop :=
  (blog_content state = None /\ cs = [] /\ e = KeyError (u "blog_content"))
  \/ model_failure cs e.

(** The fields no step writes. *)
Definition same_inputs (initial final : BlogState) : Prop :=
  State.topic final = State.topic initial
  /\ transcript final = transcript initial
  /\ target_language final = target_language initial
  /\ style final = style initial
  /\ generation_time final = generation_time initial.

(** The workflow, started on [initial], returned the log and the final
    state [r] after the exchanges [cs]. *)
Definition workflow_result (initial : BlogState) (cs : list exchange)
  (r : list (str * BlogState) * BlogState) : Prop :=
  let (log, final) := r in
  exists topic generation selection reply,
    State.topic initial = Some topic
    /\ same_inputs initial final
    /\ brainstormed_titles final = Some (candidates topic generation)
    /\ selected_title final
       = Some (selection_of (candidates topic generation) selection)
    /\ blog_content final = Some (strip reply)
    /\ word_count final
       = Some (Z.of_nat (List.length (split_ws (strip reply))))
    /\ ((Router.should_translate initial = u "end"
         /\ steps_applied log = [u "title_agent"; u "content_agent"]
         /\ map snd cs = [inr generation; inr selection; inr reply]
         /\ temperatures cs = [8 # 10; 8 # 10; 7 # 10]%Q
         /\ final_content final = Some (strip reply)
         /\ translated_content final = translated_content initial)
        \/ (Router.should_translate initial = u "translate"
            /\ steps_applied log
               = [u "title_agent"; u "content_agent"; u "translation_agent"]
            /\ exists translation,
                map snd cs
                = [inr generation; inr selection; inr reply; inr translation]
                /\ temperatures cs = [8 # 10; 8 # 10; 7 # 10; 3 # 10]%Q
                /\ final_content final = Some (strip translation)
                /\ translated_content final
                   = Some (Some (strip translation)))).

(** The state gives the content step no transcript to work from: the key
    is missing, or holds [None], the empty string or blanks. *)
Definition no_transcript (state : BlogState) : Prop :=
  match get (transcript state) None with
  | None => True
  | Some text => strip text = []
  end.

(** The numbered list the title step builds for the selection prompt:
    ["\n".join([f"{i+1}. {t}" for i, t in enumerate(titles)])]. *)
Definition titles_formatted (titles : list str) : str :=
  join [newline] (map TitleAgent.numbered (enumerate titles)).

(** A title on one line, trimmed, not empty, free of "." and ")". *)
Definition plain_title (title : str) : Prop :=
  title <> []
  /\ strip title = title
  /\ ~ In newline title
  /\ ~ In dot title
  /\ ~ In rparen title.

(** One of the characters "0" to "9". *)
Definition ascii_digit (c : char) : bool :=
  (48 <=? c)%N && (c <=? 57)%N.

(** The [HTTPException] the route raises for the exception [e]. *)
Definition generation_failed (e : exn) : HTTPException.t :=
  {| HTTPException.status_code := 500;
     HTTPException.error := u "generation_failed";
     HTTPException.message := u "Failed to generate blog: " ++ exn_str e |}.

(** The response is read off the final state [final]. *)
Definition response_of_state (request : BlogGenerationRequest.t)
  (final : BlogState) (response : BlogGenerationResponse.t) : Prop :=
  selected_title final = Some (BlogGenerationResponse.title response)
  /\ final_content final = Some (BlogGenerationResponse.content response)
  /\ State.word_count final
     = Some (BlogGenerationResponse.word_count response)
  /\ State.brainstormed_titles final
     = Some (BlogGenerationResponse.brainstormed_titles response)
  /\ BlogGenerationResponse.was_translated response
     = truthy_opt (get (translated_content final) None)
  /\ BlogGenerationResponse.target_language response
     = BlogGenerationRequest.target_language request.

(** What the route returns after the exchanges [cs]. *)
Definition route_result (request : BlogGenerationRequest.t)
  (cs : list exchange) (r : HTTPException.t + BlogGenerationResponse.t)
  : Prop :=
  match r with
  | inr response =>
      exists log final,
        workflow_result (Routes.initial_state request) cs (log, final)
        /\ response_of_state request final response
  | inl h =>
      exists e,
        model_failure cs e /\ is_exception e = true
        /\ h = generation_failed e
  end.

End Outcomes.

(* ===================================================================== *)
(** * [ui/streamlit_app.py] *)
(* ===================================================================== *)

Module Ui.

(** The options of the "Target Language" select box. *)
Definition languages : list str :=
  [u "English"; u "Spanish"; u "French"; u "German"; u "Chinese"].

(** The body the form posts to [/generate], read as the request it is
    parsed into: the transcript is sent as [None] when the text area is
    empty, the language as [None] when "English" is selected. *)
Definition payload (topic transcript style target_language : str)
  : BlogGenerationRequest.t :=
  {| BlogGenerationRequest.topic := topic;
     BlogGenerationRequest.transcript :=
       if truthy transcript then Some transcript else None;
     BlogGenerationRequest.style := style;
     BlogGenerationRequest.target_language :=
       if negb (str_eqb target_language (u "English"))
       then Some target_language
       else None |}.

End Ui.

(* ===================================================================== *)
(** * Concrete inputs used in the examples below *)
(* ===================================================================== *)

Module Examples.

Definition default_state : BlogState :=
  mkBlogState (Some []) (Some None) (Some None) (Some (u "professional"))
    (Some []) (Some []) (Some []) (Some None) (Some []) (Some 0%Z)
    (Some 0%Q).

Definition with_target_language (v : option str) (d : BlogState) : BlogState :=
  mkBlogState (topic d) (transcript d) (Some v) (style d)
    (brainstormed_titles d) (selected_title d) (blog_content d)
    (translated_content d) (final_content d) (word_count d)
    (generation_time d).

Definition with_topic (v : str) (d : BlogState) : BlogState :=
  mkBlogState (Some v) (transcript d) (target_language d) (style d)
    (brainstormed_titles d) (selected_title d) (blog_content d)
    (translated_content d) (final_content d) (word_count d)
    (generation_time d).

(** The reply of the tests' mocked model to the title instruction. *)
Definition five_titles : str :=
  u "1. How to Master Remote Work in 30 Days
2. 7 Secrets Top Remote Workers Never Share
3. Why Are Remote Workers 40% More Productive?
4. The Ultimate Guide to Work-From-Home Success
5. Remote Work Revolution: Transform Your Career Today".

Definition fourth_title : str :=
  u "The Ultimate Guide to Work-From-Home Success".

Definition remote_work (target_language : option str)
  : BlogGenerationRequest.t :=
  {| BlogGenerationRequest.topic := u "Remote Work";
     BlogGenerationRequest.transcript := None;
     BlogGenerationRequest.target_language := target_language;
     BlogGenerationRequest.style := u "professional" |}.

(** A state as the translation step is handed one in the tests. *)
Definition some_content (target_language : option str) : BlogState :=
  set_blog_content (u "Some content")
    (with_target_language target_language default_state).

(** The replies of a mocked model, in the order the workflow asks. *)
Definition replies_english : list str :=
  [five_titles; fourth_title; u " hello  world foo "].

Definition replies_spanish : list str :=
  replies_english ++ [u " hola mundo "].

Definition replies_blank : list str :=
  replies_english ++ [u "   "].

Definition outcome_of (request : BlogGenerationRequest.t) (replies : list str)
  : exn + (list (str * BlogState) * BlogState) :=
  fst (run (LangGraph.stream Workflow.create_workflow
              (Routes.initial_state request))
           (mock replies)).

Definition log_of (r : exn + (list (str * BlogState) * BlogState))
  : list (str * BlogState) :=
  match r with
  | inr (log, _) => log
  | inl _ => []
  end.

Definition final_of (r : exn + (list (str * BlogState) * BlogState))
  : BlogState :=
  match r with
  | inr (_, final) => final
  | inl _ => State.empty
  end.

Definition spanish_log : list (str * BlogState) :=
  Eval vm_compute in
    log_of (outcome_of (remote_work (Some (u "Spanish"))) replies_spanish).

Definition spanish_final : BlogState :=
  Eval vm_compute in
    final_of (outcome_of (remote_work (Some (u "Spanish"))) replies_spanish).

Definition blank_final : BlogState :=
  Eval vm_compute in
    final_of (outcome_of (remote_work (Some (u "Spanish"))) replies_blank).

Definition response_of (request : BlogGenerationRequest.t)
  (replies : list str) (default : BlogGenerationResponse.t)
  : BlogGenerationResponse.t :=
  match fst (run (Routes.generate_blog request Workflow.create_workflow)
                 (mock replies)) with
  | inr (inr response) => response
  | _ => default
  end.

Definition no_response : BlogGenerationResponse.t :=
  {| BlogGenerationResponse.title := [];
     BlogGenerationResponse.content := [];
     BlogGenerationResponse.word_count := 0%Z;
     BlogGenerationResponse.generation_time_seconds := 0%Q;
     BlogGenerationResponse.was_translated := false;
     BlogGenerationResponse.target_language := None;
     BlogGenerationResponse.brainstormed_titles := [] |}.

Definition spanish_response : BlogGenerationResponse.t :=
  Eval vm_compute in
    response_of (remote_work (Some (u "Spanish"))) replies_spanish
      no_response.

Definition blank_response : BlogGenerationResponse.t :=
  Eval vm_compute in
    response_of (remote_work (Some (u "Spanish"))) replies_blank no_response.

Definition with_transcript (v : option str) (d : BlogState) : BlogState :=
  mkBlogState (State.topic d) (Some v) (target_language d) (style d)
    (brainstormed_titles d) (selected_title d) (blog_content d)
    (translated_content d) (final_content d) (State.word_count d)
    (generation_time d).

(** Two transcripts of 6000 characters that differ in the last one. *)
Definition long_transcript (last : char) : str :=
  repeat 97%N 3000 ++ repeat 97%N 2999 ++ [last].

(** A model that gives the same reply to every call. *)
Definition constant_model (reply : str) : Env :=
  {| llm_reply := fun _ => inr reply;
     clock := fun n => inject_Z (Z.of_nat n) |}.

(** A reply to the title instruction with a bare marker on its first line
    and a parenthesis in the title of its second. *)
Definition two_lines : str :=
  u "1.
2. Remote Work (and Why) Matters".


(** A reply with a bare marker, a ")" after an "N." marker, a "." after an
    "N)" marker, and a "." on a line without a marker. *)
Definition cut_lines : str :=
  u "1.
2. Remote Work (2024 Edition)
3) What is Node.js?
2024 in review. A summary".

(** A model that answers with [replies], in order, and raises [e] at every
    call after them. *)
Definition failing_after (replies : list str) (e : exn) : Env :=
  {| llm_reply := fun n => nth n (map inr replies) (inl e);
     clock := fun n => inject_Z (Z.of_nat n) |}.

Definition rate_limit : exn :=
  Failure (u "RateLimitError") (u "Rate limit reached").

End Examples.

(* ===================================================================== *)
(** * Facts about Python strings *)
(* ===================================================================== *)

Module PyFacts.

Lemma str_eqb_refl (a : str) : str_eqb a a = true.
Proof. unfold str_eqb. destruct (str_eq_dec a a); congruence. Qed.

Lemma str_eqb_eq (a b : str) : str_eqb a b = true <-> a = b.
Proof.
  unfold str_eqb. destruct (str_eq_dec a b); split; congruence.
Qed.

Lemma contains_In (xs : list str) (x : str) : contains xs x = true <-> In x xs.
Proof.
  unfold contains. destruct (in_dec str_eq_dec x xs); split;
    intros; try assumption; try reflexivity; try discriminate; contradiction.
Qed.

Lemma truthy_nonempty (s : str) : truthy s = true <-> s <> [].
Proof. destruct s; simpl; split; congruence. Qed.

Lemma truthy_strip (s : str) : truthy (strip s) = true -> truthy s = true.
Proof. destruct s; simpl; [discriminate | reflexivity]. Qed.

Lemma digit_not_dot (c : char) : isdigit c = true -> c <> dot.
Proof. intros H ->. vm_compute in H. discriminate. Qed.

Lemma digit_not_rparen (c : char) : isdigit c = true -> c <> rparen.
Proof. intros H ->. vm_compute in H. discriminate. Qed.

Lemma digits_no (sep : char) (digits : str) :
  sep = dot \/ sep = rparen ->
  forallb isdigit digits = true -> ~ In sep digits.
Proof.
  intros Hsep Hall Hin.
  rewrite forallb_forall in Hall. specialize (Hall _ Hin).
  destruct Hsep as [-> | ->];
    [ now apply digit_not_dot in Hall | now apply digit_not_rparen in Hall ].
Qed.

(** [s.split(sep, 1)] when [sep] does not occur in [s]. *)
Lemma splitn1_absent (sep : char) (s : str) :
  ~ In sep s -> splitn sep s 1 = [s].
Proof.
  induction s as [| c s IH]; intros Hno; [reflexivity |].
  cbn [splitn].
  destruct (N.eqb_spec c sep) as [-> | Hne].
  - exfalso. apply Hno. now left.
  - rewrite IH; [reflexivity |]. intros Hin. apply Hno. now right.
Qed.

(** [s.split(sep, 1)] at the first occurrence of [sep]. *)
Lemma splitn1_present (sep : char) (before after : str) :
  ~ In sep before -> splitn sep (before ++ sep :: after) 1 = [before; after].
Proof.
  induction before as [| c before IH]; intros Hno.
  - cbn. rewrite N.eqb_refl. now destruct after.
  - cbn [app splitn].
    destruct (N.eqb_spec c sep) as [-> | Hne].
    + exfalso. apply Hno. now left.
    + rewrite IH; [reflexivity |]. intros Hin. apply Hno. now right.
Qed.

(** The tokens [s.split()] yields are as many as the places where a token
    begins. *)
Lemma split_ws_from_length (cur s : str) :
  List.length (split_ws_from cur s)
  = match cur with
    | [] => Spec.count_tokens_from true s
    | _ => 1 + Spec.count_tokens_from false s
    end.
Proof.
  revert cur. induction s as [| c s IH]; intros cur.
  - destruct cur; reflexivity.
  - cbn [split_ws_from Spec.count_tokens_from].
    destruct (isspace c).
    + destruct cur; cbn [List.length]; rewrite IH; reflexivity.
    + rewrite IH. destruct cur; reflexivity.
Qed.

Lemma split_ws_length (s : str) :
  List.length (split_ws s) = Spec.count_tokens s.
Proof. apply (split_ws_from_length [] s). Qed.

End PyFacts.

(* ===================================================================== *)
(** * Facts about programs and their runs *)
(* ===================================================================== *)

Module ProgFacts.

Import Spec.

Lemma prog_eq_refl {A} (p : Prog A) : prog_eq p p.
Proof. induction p; constructor; auto. Qed.

Lemma prog_eq_bind {A B} (p : Prog A) (f g : A -> Prog B) :
  (forall a, prog_eq (f a) (g a)) -> prog_eq (bind p f) (bind p g).
Proof.
  intros Hfg. induction p; cbn [bind]; try constructor; auto.
Qed.

Lemma prog_eq_bind_l {A B} (p q : Prog A) (f : A -> Prog B) :
  prog_eq p q -> prog_eq (bind p f) (bind q f).
Proof.
  induction 1; cbn [bind]; try constructor; auto. apply prog_eq_refl.
Qed.

(** Programs that interact alike run alike. *)
Lemma prog_eq_exec {A} (p q : Prog A) :
  prog_eq p q -> forall env n m, exec p env n m = exec q env n m.
Proof.
  induction 1 as [a | e | llm msgs k k' _ IH | k k' _ IH | line k k' _ IH];
    intros env n m; cbn [exec]; try reflexivity.
  - now rewrite IH.
  - now rewrite IH.
  - now rewrite IH.
Qed.

Lemma ensures_weaken {A} (p : Prog A) (P Q : A -> Prop) :
  (forall a, P a -> Q a) -> ensures p P -> ensures p Q.
Proof. intros HPQ. induction p; cbn [ensures]; auto. Qed.

Lemma ensures_bind {A B} (p : Prog A) (f : A -> Prog B) (Q : B -> Prop) :
  ensures p (fun a => ensures (f a) Q) -> ensures (bind p f) Q.
Proof. induction p; cbn [ensures bind]; auto. Qed.

Lemma ensures_prog_eq {A} (p q : Prog A) (Q : A -> Prop) :
  prog_eq p q -> ensures q Q -> ensures p Q.
Proof. induction 1; cbn [ensures]; auto. Qed.

Lemma ensures_getitem {A} (key : str) (v : option A) (Q : A -> Prop) :
  (forall a, v = Some a -> Q a) -> ensures (getitem key v) Q.
Proof. destruct v; cbn; auto. Qed.

Lemma ensures_invoke (llm : ChatModel) (msgs : list Message) (Q : str -> Prop) :
  (forall text, Q text) -> ensures (invoke llm msgs) Q.
Proof. intros HQ [e | text]; cbn; auto. Qed.

(** What a run returns satisfies what the program ensures. *)
Lemma ensures_exec {A} (p : Prog A) (Q : A -> Prop) :
  ensures p Q ->
  forall env n m a tr, exec p env n m = (inr a, tr) -> Q a.
Proof.
  induction p as [a0 | e | llm msgs k IH | k IH | line k IH];
    cbn [ensures exec]; intros HQ env n m a tr Hrun.
  - now inversion Hrun; subst.
  - discriminate.
  - destruct (exec (k (llm_reply env n)) env (S n) m) as [res tr'] eqn:E.
    inversion Hrun; subst. eapply IH; eauto.
  - destruct (exec (k (clock env m)) env n (S m)) as [res tr'] eqn:E.
    inversion Hrun; subst. eapply IH; eauto.
  - destruct (exec k env n m) as [res tr'] eqn:E.
    inversion Hrun; subst. eapply IH; eauto.
Qed.

Lemma delivers_weaken {A} (p : Prog A) (P Q : A -> Prop) :
  (forall a, P a -> Q a) -> delivers p P -> delivers p Q.
Proof. intros HPQ. induction p; cbn [delivers]; auto. Qed.

Lemma delivers_bind {A B} (p : Prog A) (f : A -> Prog B) (P : A -> Prop)
  (Q : B -> Prop) :
  delivers p P -> (forall a, P a -> delivers (f a) Q) ->
  delivers (bind p f) Q.
Proof.
  intros Hp Hf. induction p; cbn [delivers bind] in *; auto.
Qed.

(** A program that returns, returns what it ensures. *)
Lemma delivers_ensures {A} (p : Prog A) (P Q : A -> Prop) :
  delivers p P -> ensures p Q -> delivers p (fun a => P a /\ Q a).
Proof. induction p; cbn [delivers ensures]; auto. Qed.

Lemma delivers_prog_eq {A} (p q : Prog A) (Q : A -> Prop) :
  prog_eq p q -> delivers q Q -> delivers p Q.
Proof. induction 1; cbn [delivers]; auto. Qed.

Lemma delivers_try_except {A} (p : Prog A) (handler : exn -> Prog A)
  (Q : A -> Prop) :
  delivers p Q -> delivers (try_except p handler) Q.
Proof. induction p; cbn [delivers try_except]; auto; contradiction. Qed.

(** Against a model that answers, a program that delivers runs to a
    value. *)
Lemma delivers_exec {A} (p : Prog A) (Q : A -> Prop) (env : Env) :
  answers env -> delivers p Q ->
  forall n m, exists a tr, exec p env n m = (inr a, tr) /\ Q a.
Proof.
  intros Henv.
  induction p as [a0 | e | llm msgs k IH | k IH | line k IH];
    cbn [delivers exec]; intros Hp n m.
  - eauto.
  - contradiction.
  - destruct (Henv n) as (text & ->).
    destruct (IH _ (Hp text) (S n) m) as (a & tr & -> & Ha). eauto.
  - destruct (IH _ (Hp (clock env m)) n (S m)) as (a & tr & -> & Ha). eauto.
  - destruct (IH Hp n m) as (a & tr & -> & Ha). eauto.
Qed.

(** A run of [bind p f] that returns is a run of [p] that returns, followed
    by a run of [f] on its value. *)
Lemma exec_bind_inr {A B} (p : Prog A) (f : A -> Prog B) :
  forall env n m b tr,
    exec (bind p f) env n m = (inr b, tr) ->
    exists a tr1 tr2,
      exec p env n m = (inr a, tr1)
      /\ exec (f a) env (n + List.length (calls tr1)) (m + reads tr1)
         = (inr b, tr2)
      /\ tr = tr1 ++ tr2.
Proof.
  induction p as [a0 | e | llm msgs k IH | k IH | line k IH];
    cbn [bind exec]; intros env n m b tr Hrun.
  - exists a0, [], tr. cbn. rewrite !Nat.add_0_r. auto.
  - discriminate.
  - destruct (exec (bind (k (llm_reply env n)) f) env (S n) m)
      as [res tr'] eqn:E.
    inversion Hrun; subst.
    destruct (IH _ _ _ _ _ _ E) as (a & tr1 & tr2 & H1 & H2 & ->).
    exists a, (Called llm msgs (llm_reply env n) :: tr1), tr2.
    rewrite H1. cbn [calls reads List.length].
    rewrite <- plus_n_Sm. auto.
  - destruct (exec (bind (k (clock env m)) f) env n (S m)) as [res tr'] eqn:E.
    inversion Hrun; subst.
    destruct (IH _ _ _ _ _ _ E) as (a & tr1 & tr2 & H1 & H2 & ->).
    exists a, (Clock (clock env m) :: tr1), tr2.
    rewrite H1. cbn [calls reads].
    rewrite <- plus_n_Sm. auto.
  - destruct (exec (bind k f) env n m) as [res tr'] eqn:E.
    inversion Hrun; subst.
    destruct (IH _ _ _ _ _ E) as (a & tr1 & tr2 & H1 & H2 & ->).
    exists a, (Printed line :: tr1), tr2.
    rewrite H1. cbn [calls reads]. auto.
Qed.

(** A run of [try: p except: handler] that returns what no handler run
    returns is a run of [p]. *)
Lemma exec_try_except_body {A} (p : Prog A) (handler : exn -> Prog A)
  (Q : A -> Prop) :
  (forall e, ensures (handler e) Q) ->
  forall env n m a tr,
    exec (try_except p handler) env n m = (inr a, tr) ->
    ~ Q a ->
    exec p env n m = (inr a, tr).
Proof.
  intros Hh.
  induction p as [a0 | e | llm msgs k IH | k IH | line k IH];
    cbn [try_except exec]; intros env n m a tr Hrun HnQ.
  - assumption.
  - destruct (is_exception e); cbn [exec] in Hrun; [| discriminate].
    exfalso. apply HnQ. eapply ensures_exec; eauto.
  - destruct (exec (try_except (k (llm_reply env n)) handler) env (S n) m)
      as [res tr'] eqn:E.
    inversion Hrun; subst. now rewrite (IH _ _ _ _ _ _ E HnQ).
  - destruct (exec (try_except (k (clock env m)) handler) env n (S m))
      as [res tr'] eqn:E.
    inversion Hrun; subst. now rewrite (IH _ _ _ _ _ _ E HnQ).
  - destruct (exec (try_except k handler) env n m) as [res tr'] eqn:E.
    inversion Hrun; subst. now rewrite (IH _ _ _ _ _ E HnQ).
Qed.

End ProgFacts.

(* ===================================================================== *)
(** * The title step *)
(* ===================================================================== *)

Module TitleFacts.

Import Spec Derived PyFacts ProgFacts TitleAgent.

Lemma parse_line_nonempty (titles : list str) (line : str) :
  Forall nonempty titles -> Forall nonempty (parse_line titles line).
Proof.
  intros Hall. unfold parse_line.
  destruct (truthy (strip line) && _); [| assumption].
  destruct (truthy (extract_title (strip line))) eqn:E; [| assumption].
  apply Forall_app. split; [assumption |].
  constructor; [| constructor]. now apply truthy_nonempty.
Qed.

Lemma fold_parse_line_nonempty (lines : list str) (titles : list str) :
  Forall nonempty titles -> Forall nonempty (fold_left parse_line lines titles).
Proof.
  revert titles. induction lines as [| line lines IH]; intros titles Hall.
  - assumption.
  - cbn [fold_left]. apply IH. now apply parse_line_nonempty.
Qed.

Lemma parse_titles_nonempty (content : str) :
  Forall nonempty (parse_titles content).
Proof. apply fold_parse_line_nonempty. constructor. Qed.

(** The loop appends: the candidates of a reply are those of its lines, in
    order. *)
Lemma parse_line_app (titles : list str) (line : str) :
  parse_line titles line = titles ++ parse_line [] line.
Proof.
  unfold parse_line.
  destruct (truthy (strip line) && _); [| now rewrite app_nil_r].
  destruct (truthy (extract_title (strip line))); [reflexivity |].
  now rewrite app_nil_r.
Qed.

Lemma fold_parse_line_flat_map (lines : list str) (titles : list str) :
  fold_left parse_line lines titles
  = titles ++ flat_map (parse_line []) lines.
Proof.
  revert titles. induction lines as [| line lines IH]; intros titles.
  - cbn. now rewrite app_nil_r.
  - cbn [fold_left flat_map]. rewrite IH, (parse_line_app titles line).
    now rewrite app_assoc.
Qed.

Lemma candidates_eq (topic generation : str) :
  (if negb match parse_titles generation with [] => false | _ => true end
   then [u "Complete Guide to " ++ topic]
   else parse_titles generation)
  = candidates topic generation.
Proof. unfold candidates. now destruct (parse_titles generation). Qed.

Lemma candidates_cons (topic generation : str) :
  exists first rest, candidates topic generation = first :: rest.
Proof.
  unfold candidates. destruct (parse_titles generation) as [| t ts]; eauto.
Qed.

Lemma candidates_nonempty (topic generation : str) :
  Forall nonempty (candidates topic generation).
Proof.
  unfold candidates.
  pose proof (parse_titles_nonempty generation) as H.
  destruct (parse_titles generation); [| assumption].
  constructor; [discriminate | constructor].
Qed.

Lemma selection_of_In (titles : list str) (selection : str) :
  titles <> [] -> In (selection_of titles selection) titles.
Proof.
  intros Hne. unfold selection_of.
  destruct (contains titles (strip selection)) eqn:E.
  - now apply contains_In.
  - destruct titles; [congruence | now left].
Qed.

(** The step after a successful reply to each of its two instructions. *)
Lemma title_agent_after (state : BlogState) (topic : str) :
  State.topic state = Some topic ->
  exists llm messages k,
    title_agent state = Invoke llm messages k
    /\ forall generation, exists llm' messages' k',
         k (inr generation) = Invoke llm' messages' k'
         /\ forall selection,
              let titles := candidates topic generation in
              k' (inr selection)
              = Ret (set_selected_title (selection_of titles selection)
                       (set_brainstormed_titles titles State.empty)).
Proof.
  intros Htopic. unfold title_agent. rewrite Htopic.
  cbn [getitem bind invoke].
  do 3 eexists. split; [reflexivity |].
  intros generation. cbn [bind].
  do 3 eexists. split; [reflexivity |].
  intros selection. cbn [bind]. rewrite !candidates_eq.
  unfold selection_of.
  destruct (candidates_cons topic generation) as (first & rest & ->).
  destruct (contains (first :: rest) (strip selection)); reflexivity.
Qed.

Lemma title_agent_run (state : BlogState) (topic : str) (env : Env)
  (generation selection : str) :
  State.topic state = Some topic ->
  llm_reply env 0 = inr generation ->
  llm_reply env 1 = inr selection ->
  let titles := candidates topic generation in
  exists tr,
    run (title_agent state) env
    = (inr (set_selected_title (selection_of titles selection)
              (set_brainstormed_titles titles State.empty)), tr)
    /\ List.length (calls tr) = 2.
Proof.
  intros Htopic Hg Hs titles.
  destruct (title_agent_after state topic Htopic)
    as (llm & msgs & k & -> & Hk).
  destruct (Hk generation) as (llm' & msgs' & k' & Hk1 & Hk2).
  unfold run. cbn [exec]. rewrite Hg, Hk1. cbn [exec]. rewrite Hs, Hk2.
  cbn [exec]. eexists. split; reflexivity.
Qed.

Lemma title_agent_ensures (state : BlogState) :
  ensures (title_agent state)
    (fun patch => exists titles selected,
         patch = set_selected_title selected
                   (set_brainstormed_titles titles State.empty)
         /\ In selected titles /\ Forall nonempty titles).
Proof.
  unfold title_agent. cbv zeta.
  apply ensures_bind, ensures_getitem. intros topic _.
  apply ensures_bind, ensures_invoke. intros generation.
  rewrite !candidates_eq.
  pose proof (candidates_nonempty topic generation) as Hall.
  destruct (candidates_cons topic generation) as (first & rest & Hc).
  rewrite Hc in *.
  apply ensures_bind, ensures_invoke. intros selection.
  apply ensures_bind.
  destruct (contains (first :: rest) (strip selection)) eqn:E;
    cbn [negb first_item ensures]; do 2 eexists;
    (split; [reflexivity | split; [| exact Hall]]).
  - now apply contains_In.
  - now left.
Qed.

End TitleFacts.

(* ===================================================================== *)
(** * The content and translation steps, the branch decision *)
(* ===================================================================== *)

Module StepFacts.

Import Spec Derived PyFacts ProgFacts.
Import ContentAgent TranslationAgent Router.

Lemma content_agent_ensures (state : BlogState) :
  ensures (content_agent state)
    (fun patch => exists reply, patch = content_patch (strip reply)).
Proof.
  unfold content_agent. cbv zeta.
  apply ensures_bind, ensures_getitem. intros topic _.
  apply ensures_bind, ensures_getitem. intros title _.
  apply ensures_bind, ensures_invoke. intros reply.
  cbn [ensures]. now exists reply.
Qed.

(** The guard of the translation step: without a language it returns at
    once, the program being a bare [Ret]. *)
Lemma translation_agent_guard (state : BlogState) (content : str) :
  blog_content state = Some content ->
  language_given state = false ->
  translation_agent state
  = Ret (set_final_content content
           (set_translated_content None State.empty)).
Proof.
  unfold language_given, translation_agent. intros -> ->. reflexivity.
Qed.

(** With a language the step asks the model, once, and returns the
    trimmed reply. *)
Lemma translation_agent_asks (state : BlogState) (content : str) :
  blog_content state = Some content ->
  language_given state = true ->
  exists llm messages k,
    translation_agent state = Invoke llm messages k
    /\ (forall e, k (inl e) = Raise e)
    /\ (forall reply, k (inr reply) = Ret (translation_patch (strip reply))).
Proof.
  unfold language_given, translation_agent. intros -> ->.
  cbn [getitem bind negb invoke]. do 3 eexists.
  split; [reflexivity |]. split; intros; reflexivity.
Qed.

Lemma translation_agent_ensures (state : BlogState) :
  ensures (translation_agent state)
    (fun patch =>
       if language_given state
       then exists reply, patch = translation_patch (strip reply)
       else exists content,
           blog_content state = Some content
           /\ patch = set_final_content content
                       (set_translated_content None State.empty)).
Proof.
  unfold translation_agent, language_given. cbv zeta.
  apply ensures_bind, ensures_getitem. intros content Hcontent.
  destruct (truthy_opt (get (target_language state) (Some []))); cbn [negb].
  - apply ensures_bind, ensures_invoke. intros reply.
    cbn [ensures]. now exists reply.
  - cbn [ensures]. now exists content.
Qed.

(** The branch decision is one of two labels. *)
Lemma should_translate_cases (state : BlogState) :
  (should_translate state = u "translate"
   /\ exists text, target_language state = Some (Some text)
                   /\ strip text <> [])
  \/ (should_translate state = u "end"
      /\ ~ exists text, target_language state = Some (Some text)
                        /\ strip text <> []).
Proof.
  unfold should_translate, get.
  destruct (target_language state) as [[text |] |].
  - destruct (truthy text && truthy (strip text)) eqn:E.
    + left. split; [reflexivity |]. exists text. split; [reflexivity |].
      apply andb_true_iff in E. now apply truthy_nonempty.
    + right. split; [reflexivity |]. intros (t & Ht & Hne).
      inversion Ht; subst t. apply truthy_nonempty in Hne.
      rewrite Hne, (truthy_strip _ Hne) in E. discriminate.
  - right. split; [reflexivity |]. intros (t & Ht & _). discriminate.
  - right. split; [reflexivity |]. intros (t & Ht & _). discriminate.
Qed.

Lemma translate_is_not_end : u "translate" <> u "end".
Proof. discriminate. Qed.

(** When the decision is "translate" the translation step finds a language. *)
Lemma should_translate_language_given (state : BlogState) :
  should_translate state = u "translate" -> language_given state = true.
Proof.
  intros H.
  destruct (should_translate_cases state) as [(_ & text & Ht & Hne) | (E & _)].
  - unfold language_given. rewrite Ht. cbn.
    apply truthy_strip. now apply truthy_nonempty.
  - rewrite E in H. symmetry in H. now apply translate_is_not_end in H.
Qed.

End StepFacts.

(* ===================================================================== *)
(** * The execution graph *)
(* ===================================================================== *)

Module WorkflowFacts.

Import Spec Derived PyFacts ProgFacts StepFacts LangGraph Workflow.

Lemma steps_end (g : StateGraph) (fuel : nat) (state : BlogState)
  (log : list (str * BlogState)) :
  steps g fuel END state log = Ret (log, state).
Proof. destruct fuel; cbn [steps]; now rewrite str_eqb_refl. Qed.

Lemma steps_node (g : StateGraph) (fuel : nat) (cur : str)
  (state : BlogState) (log : list (str * BlogState)) (action : Node) :
  str_eqb cur END = false ->
  lookup cur (nodes g) = Some action ->
  steps g (S fuel) cur state log
  = (patch <- action state ;;
     target <- next g cur (State.update state patch) ;;
     match target with
     | Some node =>
         steps g fuel node (State.update state patch) (log ++ [(cur, patch)])
     | None => Ret (log ++ [(cur, patch)], State.update state patch)
     end).
Proof. intros Hcur Hnode. cbn [steps]. now rewrite Hcur, Hnode. Qed.

Lemma next_edge (g : StateGraph) (cur target : str) (state : BlogState) :
  lookup cur (edges g) = Some target -> next g cur state = Ret (Some target).
Proof. unfold next. now intros ->. Qed.

Lemma next_branch (g : StateGraph) (cur target : str) (b : Branch)
  (state : BlogState) :
  lookup cur (edges g) = None ->
  lookup cur (branches g) = Some b ->
  lookup (path b state) (path_map b) = Some target ->
  next g cur state = Ret (Some target).
Proof. unfold next. now intros -> -> ->. Qed.

(** The wiring of [create_workflow]. *)
Lemma workflow_one_way_out : one_way_out create_workflow = true.
Proof. reflexivity. Qed.

Lemma workflow_entry :
  lookup START (edges create_workflow) = Some (u "title_agent").
Proof. reflexivity. Qed.

Lemma after_title (state : BlogState) :
  next create_workflow (u "title_agent") state
  = Ret (Some (u "content_agent")).
Proof. now apply next_edge. Qed.

Lemma after_content_translate (state : BlogState) :
  Router.should_translate state = u "translate" ->
  next create_workflow (u "content_agent") state
  = Ret (Some (u "translation_agent")).
Proof.
  intros H.
  eapply next_branch; [reflexivity | reflexivity |].
  cbn [path path_map]. now rewrite H.
Qed.

Lemma after_content_end (state : BlogState) :
  Router.should_translate state = u "end" ->
  next create_workflow (u "content_agent") state = Ret (Some END).
Proof.
  intros H.
  eapply next_branch; [reflexivity | reflexivity |].
  cbn [path path_map]. now rewrite H.
Qed.

Lemma after_translation (state : BlogState) :
  next create_workflow (u "translation_agent") state = Ret (Some END).
Proof. now apply next_edge. Qed.

(** The graph interacts with the outside as the spec's "run" does. *)
Lemma stream_spec_run (initial : BlogState) :
  prog_eq (stream create_workflow initial) (spec_run initial).
Proof.
  unfold stream, spec_run. rewrite workflow_entry. unfold recursion_limit.
  rewrite (steps_node _ _ _ _ _ TitleAgent.title_agent) by reflexivity.
  apply prog_eq_bind. intros p1.
  rewrite after_title. cbn [bind app].
  rewrite (steps_node _ _ _ _ _ ContentAgent.content_agent) by reflexivity.
  apply prog_eq_bind. intros p2. cbn [app].
  set (s2 := State.update (State.update initial p1) p2).
  destruct (should_translate_cases s2) as [(E & _) | (E & _)].
  - rewrite (after_content_translate _ E), E. cbn [bind].
    replace (str_eqb (u "translate") (u "translate")) with true
      by (symmetry; apply str_eqb_refl).
    rewrite (steps_node _ _ _ _ _ TranslationAgent.translation_agent)
      by reflexivity.
    apply prog_eq_bind. intros p3.
    rewrite after_translation. cbn [bind app]. rewrite steps_end.
    apply prog_eq_refl.
  - rewrite (after_content_end _ E), E. cbn [bind].
    replace (str_eqb (u "end") (u "translate")) with false by reflexivity.
    rewrite steps_end. apply prog_eq_refl.
Qed.

End WorkflowFacts.

Module RunFacts.

Import Spec Derived PyFacts ProgFacts TitleFacts StepFacts WorkflowFacts.
Import LangGraph Workflow.

Lemma ensures_bind_with {A B} (p : Prog A) (f : A -> Prog B)
  (P : A -> Prop) (Q : B -> Prop) :
  ensures p P -> (forall a, P a -> ensures (f a) Q) -> ensures (bind p f) Q.
Proof.
  intros Hp Hf. apply ensures_bind. revert Hp. now apply ensures_weaken.
Qed.

Lemma spec_run_ensures (initial : BlogState) :
  ensures (spec_run initial) (run_outcome initial).
Proof.
  unfold spec_run.
  eapply ensures_bind_with; [apply title_agent_ensures |].
  intros p1 (titles & selected & -> & Hin & Hall).
  eapply ensures_bind_with; [apply content_agent_ensures |].
  intros p2 (reply & ->). cbv zeta.
  match goal with |- context [Router.should_translate ?s] => set (s2 := s) end.
  destruct (str_eqb (Router.should_translate s2) (u "translate")) eqn:E.
  - apply str_eqb_eq, should_translate_language_given in E.
    eapply ensures_bind_with; [apply translation_agent_ensures |].
    rewrite E. intros p3 (translation & ->).
    cbn [ensures run_outcome]. exists titles, selected, reply.
    repeat split; try reflexivity; try assumption.
    right. split; [reflexivity |]. now exists translation.
  - cbn [ensures run_outcome]. exists titles, selected, reply.
    repeat split; try reflexivity; try assumption.
    left. repeat split; reflexivity.
Qed.

Lemma spec_run_log (initial : BlogState) :
  ensures (spec_run initial) run_log.
Proof.
  unfold spec_run.
  eapply ensures_bind_with; [apply title_agent_ensures |].
  intros p1 (titles & selected & -> & _ & _).
  eapply ensures_bind_with; [apply content_agent_ensures |].
  intros p2 (reply & ->). cbv zeta.
  match goal with |- context [Router.should_translate ?s] => set (s2 := s) end.
  destruct (str_eqb (Router.should_translate s2) (u "translate")) eqn:E.
  - apply str_eqb_eq, should_translate_language_given in E.
    eapply ensures_bind_with; [apply translation_agent_ensures |].
    rewrite E. intros p3 (translation & ->).
    cbn [ensures run_log]. exists titles, selected, (strip reply).
    split; [reflexivity |]. right. now exists (strip translation).
  - cbn [ensures run_log]. exists titles, selected, (strip reply).
    split; [reflexivity |]. now left.
Qed.

(** The log of a complete run of the compiled graph. *)
Lemma stream_log (initial : BlogState) (env : Env) (n m : nat)
  (r : list (str * BlogState) * BlogState) (tr : list event) :
  exec (stream create_workflow initial) env n m = (inr r, tr) ->
  run_log r.
Proof.
  intros Hrun.
  rewrite (prog_eq_exec _ _ (stream_spec_run initial)) in Hrun.
  eapply ensures_exec; [apply spec_run_log | exact Hrun].
Qed.

(** What a complete run of the compiled graph leaves behind. *)
Lemma stream_outcome (initial : BlogState) (env : Env) (n m : nat)
  (r : list (str * BlogState) * BlogState) (tr : list event) :
  exec (stream create_workflow initial) env n m = (inr r, tr) ->
  run_outcome initial r.
Proof.
  intros Hrun.
  rewrite (prog_eq_exec _ _ (stream_spec_run initial)) in Hrun.
  eapply ensures_exec; [apply spec_run_ensures | exact Hrun].
Qed.

End RunFacts.

(* ===================================================================== *)
(** * The route *)
(* ===================================================================== *)

Module RouteFacts.

Import Spec Derived PyFacts ProgFacts RunFacts LangGraph Workflow Routes.

(** [invoke] is [stream] with the log dropped. *)
Lemma invoke_stream (g : StateGraph) (initial final : BlogState) (env : Env)
  (n m : nat) (tr : list event) :
  exec (invoke g initial) env n m = (inr final, tr) ->
  exists log, exec (stream g initial) env n m = (inr (log, final), tr).
Proof.
  unfold invoke. intros Hrun.
  apply exec_bind_inr in Hrun.
  destruct Hrun as ([log final'] & tr1 & tr2 & H1 & H2 & ->).
  cbn in H2. inversion H2; subst. exists log. now rewrite app_nil_r.
Qed.

(** The response is read off the final state field by field. *)
Lemma build_response_inv (request : BlogGenerationRequest.t)
  (result : BlogState) (t : Q) (env : Env) (n m : nat)
  (response : BlogGenerationResponse.t) (tr : list event) :
  exec (build_response request result t) env n m = (inr response, tr) ->
  selected_title result = Some (BlogGenerationResponse.title response)
  /\ final_content result = Some (BlogGenerationResponse.content response)
  /\ State.word_count result
     = Some (BlogGenerationResponse.word_count response)
  /\ State.brainstormed_titles result
     = Some (BlogGenerationResponse.brainstormed_titles response)
  /\ BlogGenerationResponse.was_translated response
     = truthy_opt (get (translated_content result) None)
  /\ BlogGenerationResponse.target_language response
     = BlogGenerationRequest.target_language request
  /\ BlogGenerationResponse.generation_time_seconds response = round2 t.
Proof.
  unfold build_response.
  destruct (selected_title result) as [title |]; [| discriminate].
  destruct (final_content result) as [content |]; [| discriminate].
  destruct (State.word_count result) as [count |]; [| discriminate].
  destruct (State.brainstormed_titles result) as [titles |]; [| discriminate].
  cbn. intros H. inversion H; subst. cbn. repeat split; reflexivity.
Qed.

(** A request that is answered went through the workflow once: the clock
    is read, the graph runs to its end, the clock is read again, and the
    response is built from the final state. *)
Lemma generate_blog_success (request : BlogGenerationRequest.t)
  (g : StateGraph) (env : Env) (response : BlogGenerationResponse.t)
  (tr : list event) :
  run (generate_blog request g) env = (inr (inr response), tr) ->
  exists final tr1 t tr2 n m,
    exec (invoke g (initial_state request)) env 0 1 = (inr final, tr1)
    /\ exec (build_response request final t) env n m = (inr response, tr2).
Proof.
  unfold run, generate_blog. intros Hrun.
  apply (exec_try_except_body _ _ (fun r => exists h, r = inl h)) in Hrun.
  - apply exec_bind_inr in Hrun.
    destruct Hrun as (a & tr1 & tr2 & H1 & H2 & ->).
    cbn in H2. inversion H2; subst a tr2. clear H2.
    unfold generate in H1.
    apply exec_bind_inr in H1.
    destruct H1 as (start & tra & trb & Ha & Hb & ->).
    cbn in Ha. inversion Ha; subst start tra. clear Ha. cbn in Hb.
    apply exec_bind_inr in Hb.
    destruct Hb as (final & trc & trd & Hc & Hd & ->).
    cbn [exec] in Hd.
    match type of Hd with
    | context [exec ?p ?e ?n ?m] =>
        destruct (exec p e n m) as [res tr'] eqn:Hbuild
    end.
    inversion Hd; subst res trd. clear Hd.
    eauto 10.
  - intros e. cbn. eauto.
  - intros (h & Hh). discriminate.
Qed.

End RouteFacts.

(* ===================================================================== *)
(** * Runs that complete *)
(* ===================================================================== *)

Module Totality.

Import Spec Derived PyFacts ProgFacts TitleFacts StepFacts WorkflowFacts.
Import RunFacts LangGraph Workflow Routes.

Lemma title_agent_delivers (state : BlogState) (topic : str) :
  State.topic state = Some topic ->
  delivers (TitleAgent.title_agent state) (fun _ => True).
Proof.
  intros Htopic.
  destruct (title_agent_after state topic Htopic)
    as (llm & msgs & k & -> & Hk).
  intros generation.
  destruct (Hk generation) as (llm' & msgs' & k' & -> & Hk').
  intros selection. now rewrite Hk'.
Qed.

Lemma content_agent_delivers (state : BlogState) (topic title : str) :
  State.topic state = Some topic ->
  selected_title state = Some title ->
  delivers (ContentAgent.content_agent state) (fun _ => True).
Proof.
  intros Htopic Htitle. unfold ContentAgent.content_agent.
  rewrite Htopic, Htitle. cbn [getitem bind invoke delivers].
  intros reply. exact I.
Qed.

Lemma translation_agent_delivers (state : BlogState) (content : str) :
  blog_content state = Some content ->
  delivers (TranslationAgent.translation_agent state) (fun _ => True).
Proof.
  intros Hcontent. unfold TranslationAgent.translation_agent.
  rewrite Hcontent. cbn [getitem bind].
  destruct (negb (truthy_opt (get (target_language state) (Some []))));
    cbn [bind invoke delivers]; [exact I | intros reply; exact I].
Qed.

(** Started on a state that holds a topic, the run of the contract
    completes whenever the model answers. *)
Lemma spec_run_delivers (initial : BlogState) (topic : str) :
  State.topic initial = Some topic ->
  delivers (spec_run initial) (run_outcome initial).
Proof.
  intros Htopic.
  eapply delivers_weaken;
    [| apply (delivers_ensures _ (fun _ => True));
       [| apply spec_run_ensures]].
  { intros r [_ H]. exact H. }
  unfold spec_run.
  eapply delivers_bind.
  { apply delivers_ensures;
      [apply (title_agent_delivers _ _ Htopic) | apply title_agent_ensures]. }
  intros p1 (_ & titles & selected & -> & _).
  eapply delivers_bind.
  { apply delivers_ensures;
      [apply (content_agent_delivers _ topic selected)
      | apply content_agent_ensures].
    - cbn. now rewrite Htopic.
    - reflexivity. }
  intros p2 (_ & reply & ->). cbv zeta.
  match goal with
  | |- context [str_eqb ?l _] => destruct (str_eqb l (u "translate"))
  end.
  - eapply delivers_bind;
      [apply (translation_agent_delivers _ (strip reply)); reflexivity |].
    intros p3 _. exact I.
  - exact I.
Qed.

(** C1, C8, C9 and C10 speak of runs that complete: a request is answered
    whenever the model answers its calls. *)
Lemma generate_blog_answers (request : BlogGenerationRequest.t) (env : Env) :
  answers env ->
  exists response tr,
    run (generate_blog request create_workflow) env
    = (inr (inr response), tr).
Proof.
  intros Henv.
  assert (H : delivers (generate_blog request create_workflow)
                (fun r => exists response, r = inr response)).
  { unfold generate_blog. apply delivers_try_except.
    eapply delivers_bind with (P := fun _ => True); [| cbn; eauto].
    unfold generate, time. cbn [bind]. intros t0.
    eapply delivers_bind with (P := fun final =>
      exists a b c d, selected_title final = Some a
                      /\ final_content final = Some b
                      /\ State.word_count final = Some c
                      /\ brainstormed_titles final = Some d).
    - unfold invoke.
      eapply delivers_bind with (P := run_outcome (initial_state request)).
      + eapply delivers_prog_eq; [apply stream_spec_run |].
        now apply (spec_run_delivers _ (BlogGenerationRequest.topic request)).
      + intros [log final]
          (titles & selected & reply & Hbt & Hst & _ & _ & _ & Hwc & H).
        cbn [snd delivers].
        destruct H as [(_ & Hfc & _) | (_ & translation & Hfc & _)];
          eauto 10.
    - intros final (a & b & c & d & Ha & Hb & Hc & Hd).
      cbn [delivers]. intros t1. unfold build_response.
      rewrite Ha, Hb, Hc, Hd. exact I. }
  destruct (delivers_exec _ _ env Henv H 0 0) as (r & tr & Hrun & resp & ->).
  eauto.
Qed.

End Totality.

(* ===================================================================== *)
(** * The properties of the specification *)
(* ===================================================================== *)

Import Spec Derived Examples.
Import PyFacts ProgFacts TitleFacts StepFacts WorkflowFacts RunFacts RouteFacts.

Lemma fst_pair {A B} (p : A * B) (a : A) :
  fst p = a -> exists b, p = (a, b).
Proof. destruct p as [a' b]. cbn. intros ->. now exists b. Qed.

(** ** The branch decision *)

(** C3: [should_translate] is a function of the state alone; it returns
    "translate" exactly when [target_language] is present and not empty
    once trimmed, and "end" otherwise; so "translate" for "Spanish", and
    "end" for [None] and for the whitespace-only "   ". *)
Theorem C3_should_translate (state : BlogState) :
  (Router.should_translate state = u "translate"
   <-> exists text, target_language state = Some (Some text)
                    /\ strip text <> [])
  /\ (Router.should_translate state <> u "translate"
      -> Router.should_translate state = u "end")
  /\ (target_language state = Some (Some (u "Spanish"))
      -> Router.should_translate state = u "translate")
  /\ (target_language state = Some None
      -> Router.should_translate state = u "end")
  /\ (target_language state = Some (Some (u "   "))
      -> Router.should_translate state = u "end").
Proof.
  destruct (should_translate_cases state) as [(E & Hex) | (E & Hno)];
    rewrite E.
  - split; [tauto |]. split; [congruence |].
    destruct Hex as (text & Ht & Hne). rewrite Ht.
    repeat split; try reflexivity; intros H; inversion H; subst text;
      exfalso; apply Hne; reflexivity.
  - split.
    { split; [intros H; symmetry in H; now apply translate_is_not_end in H
             | tauto]. }
    split; [reflexivity |].
    split; [| split; reflexivity].
    intros H. exfalso. apply Hno. exists (u "Spanish").
    split; [assumption | discriminate].
Qed.

Lemma C3_should_translate_witness :
  Router.should_translate (with_target_language (Some (u "Spanish")) default_state)
  = u "translate"
  /\ Router.should_translate (with_target_language None default_state)
     = u "end"
  /\ Router.should_translate
       (with_target_language (Some (u "   ")) default_state)
     = u "end".
Proof.
  split; [| split].
  - destruct (C3_should_translate
                (with_target_language (Some (u "Spanish")) default_state))
      as (_ & _ & H & _).
    apply H. reflexivity.
  - destruct (C3_should_translate (with_target_language None default_state))
      as (_ & _ & _ & H & _).
    apply H. reflexivity.
  - destruct (C3_should_translate
                (with_target_language (Some (u "   ")) default_state))
      as (_ & _ & _ & _ & H).
    apply H. reflexivity.
Defined.

(** ** The translation step called directly *)

(** The guard of the translation step: when [target_language] is missing,
    [None] or the empty string, the step makes no model call and returns
    [translated_content = None] with [final_content] the content held. *)
Lemma translation_agent_without_language (state : BlogState) (content : str) :
  blog_content state = Some content ->
  target_language state = None \/ target_language state = Some None
  \/ target_language state = Some (Some []) ->
  forall env,
    run (TranslationAgent.translation_agent state) env
    = (inr (set_final_content content
              (set_translated_content None State.empty)), []).
Proof.
  intros Hc Ht env.
  rewrite (translation_agent_guard state content Hc); [reflexivity |].
  unfold language_given. now destruct Ht as [-> | [-> | ->]].
Qed.

(** C4, at a whitespace-only language: the state holds "Some content" and
    [target_language = "   "].  The branch decision says "end" on it, yet
    the translation step called on it asks the model and overwrites
    [final_content] with the reply. *)
Lemma C4_whitespace_language_asks_model :
  let state := some_content (Some (u "   ")) in
  let outcome := run (TranslationAgent.translation_agent state)
                     (mock [u "Hola"]) in
  Router.should_translate state = u "end"
  /\ List.length (calls (snd outcome)) = 1
  /\ fst outcome = inr (translation_patch (u "Hola"))
  /\ translated_content (translation_patch (u "Hola")) = Some (Some (u "Hola"))
  /\ final_content (translation_patch (u "Hola")) = Some (u "Hola").
Proof. vm_compute. repeat split; reflexivity. Qed.

(** ** The title step *)

(** C5: whatever the model replies to the two instructions, the selected
    title is one of the candidates; it is the trimmed reply when that is a
    candidate, and the first candidate otherwise. *)
Theorem C5_selected_title (state : BlogState) (topic : str) (env : Env)
  (generation selection : str) :
  State.topic state = Some topic ->
  llm_reply env 0 = inr generation ->
  llm_reply env 1 = inr selection ->
  exists titles selected first rest,
    fst (run (TitleAgent.title_agent state) env)
    = inr (set_selected_title selected
             (set_brainstormed_titles titles State.empty))
    /\ titles = first :: rest
    /\ In selected titles
    /\ (~ In (strip selection) titles -> selected = first)
    /\ (In (strip selection) titles -> selected = strip selection).
Proof.
  intros Htopic Hg Hs.
  destruct (title_agent_run state topic env generation selection Htopic Hg Hs)
    as (tr & Hrun & _).
  destruct (candidates_cons topic generation) as (first & rest & Hc).
  exists (candidates topic generation),
    (selection_of (candidates topic generation) selection), first, rest.
  rewrite Hrun. split; [reflexivity |]. split; [assumption |].
  split; [apply selection_of_In; rewrite Hc; discriminate |].
  unfold selection_of.
  destruct (contains (candidates topic generation) (strip selection)) eqn:E.
  - apply contains_In in E. split; [contradiction | reflexivity].
  - split.
    + intros _. now rewrite Hc.
    + intros Hin. apply contains_In in Hin. congruence.
Qed.

Lemma C5_selected_title_witness :
  exists titles selected first rest,
    fst (run (TitleAgent.title_agent (with_topic (u "Remote Work") default_state))
             (mock [five_titles; u "I would pick number four."]))
    = inr (set_selected_title selected
             (set_brainstormed_titles titles State.empty))
    /\ titles = first :: rest
    /\ In selected titles
    /\ (~ In (strip (u "I would pick number four.")) titles
        -> selected = first)
    /\ (In (strip (u "I would pick number four.")) titles
        -> selected = strip (u "I would pick number four.")).
Proof.
  apply (C5_selected_title (with_topic (u "Remote Work") default_state)
           (u "Remote Work")
           (mock [five_titles; u "I would pick number four."])
           five_titles (u "I would pick number four."));
    reflexivity.
Defined.

(** C7: when the parser finds no candidate in the reply, the candidates
    are the single title "Complete Guide to {topic}", and that title is
    the one selected, whatever the model replies to the selection. *)
Theorem C7_fallback_title (state : BlogState) (topic : str) (env : Env)
  (generation selection : str) :
  State.topic state = Some topic ->
  llm_reply env 0 = inr generation ->
  llm_reply env 1 = inr selection ->
  TitleAgent.parse_titles generation = [] ->
  fst (run (TitleAgent.title_agent state) env)
  = inr (set_selected_title (u "Complete Guide to " ++ topic)
           (set_brainstormed_titles [u "Complete Guide to " ++ topic]
              State.empty)).
Proof.
  intros Htopic Hg Hs Hnone.
  destruct (title_agent_run state topic env generation selection Htopic Hg Hs)
    as (tr & Hrun & _).
  rewrite Hrun. cbn [fst]. unfold candidates, selection_of.
  rewrite Hnone.
  destruct (contains [u "Complete Guide to " ++ topic] (strip selection))
    eqn:E; [| reflexivity].
  apply contains_In in E. destruct E as [<- | []]. reflexivity.
Qed.

Lemma C7_fallback_title_witness :
  TitleAgent.parse_titles (u "Sorry, I cannot help with that.") = []
  /\ fst (run (TitleAgent.title_agent
                 (with_topic (u "Remote Work") default_state))
              (mock [u "Sorry, I cannot help with that."; u "No idea"]))
     = inr (set_selected_title (u "Complete Guide to " ++ u "Remote Work")
              (set_brainstormed_titles
                 [u "Complete Guide to " ++ u "Remote Work"] State.empty)).
Proof.
  split; [reflexivity |].
  apply (C7_fallback_title (with_topic (u "Remote Work") default_state)
           (u "Remote Work")
           (mock [u "Sorry, I cannot help with that."; u "No idea"])
           (u "Sorry, I cannot help with that.") (u "No idea"));
    reflexivity.
Defined.

(** ** The execution graph *)

(** C2: on every initial state the compiled graph interacts with the
    outside exactly as the contract of "run" reads: the title step once,
    then the content step once, then the branch decision on the state as
    merged so far, then the translation step once if and only if the
    decision is "translate"; a failure of a step ends the run there. *)
Theorem C2_run_contract (initial : BlogState) :
  prog_eq (LangGraph.stream Workflow.create_workflow initial)
          (spec_run initial)
  /\ (forall env,
        run (LangGraph.stream Workflow.create_workflow initial) env
        = run (spec_run initial) env)
  /\ (forall env,
        run (LangGraph.invoke Workflow.create_workflow initial) env
        = run (r <- spec_run initial ;; Ret (snd r)) env).
Proof.
  split; [apply stream_spec_run |]. split.
  - intros env. apply prog_eq_exec, stream_spec_run.
  - intros env. apply prog_eq_exec, prog_eq_bind_l, stream_spec_run.
Qed.

Lemma not_translation_ran (log : list (str * BlogState)) :
  steps_applied log = [u "title_agent"; u "content_agent"] ->
  ~ translation_ran log.
Proof.
  unfold translation_ran. intros -> [H | [H | []]]; discriminate H.
Qed.

Lemma is_translation_ran (log : list (str * BlogState)) :
  steps_applied log
  = [u "title_agent"; u "content_agent"; u "translation_agent"] ->
  translation_ran log.
Proof. unfold translation_ran. intros ->. cbn. auto. Qed.

(** C1: when a run of the graph reaches its end, [final_content] is set;
    it is [translated_content] when the translation step ran, and
    [blog_content] when it did not. *)
Theorem C1_final_content_set (initial : BlogState) (env : Env)
  (log : list (str * BlogState)) (final : BlogState) :
  fst (run (LangGraph.stream Workflow.create_workflow initial) env)
  = inr (log, final) ->
  exists text,
    final_content final = Some text
    /\ (translation_ran log -> translated_content final = Some (Some text))
    /\ (~ translation_ran log -> blog_content final = Some text).
Proof.
  intros Hrun. apply fst_pair in Hrun. destruct Hrun as (tr & Hrun).
  apply stream_outcome in Hrun.
  destruct Hrun as (titles & selected & reply & _ & _ & _ & _ & Hbc & _ & H).
  destruct H as [(Hlog & Hfc & _) | (Hlog & translation & Hfc & Htc)].
  - exists (strip reply). split; [assumption |]. split; [| auto].
    intros Hran. now apply not_translation_ran in Hlog.
  - exists (strip translation). split; [assumption |]. split; [auto |].
    intros Hnot. exfalso. now apply Hnot, is_translation_ran.
Qed.

Lemma C1_final_content_set_witness :
  fst (run (LangGraph.stream Workflow.create_workflow
              (Routes.initial_state (remote_work (Some (u "Spanish")))))
           (mock replies_spanish))
  = inr (spanish_log, spanish_final)
  /\ exists text,
       final_content spanish_final = Some text
       /\ (translation_ran spanish_log
           -> translated_content spanish_final = Some (Some text))
       /\ (~ translation_ran spanish_log
           -> blog_content spanish_final = Some text).
Proof.
  split; [vm_compute; reflexivity |].
  apply (C1_final_content_set
           (Routes.initial_state (remote_work (Some (u "Spanish"))))
           (mock replies_spanish)).
  vm_compute. reflexivity.
Defined.

(** ** The response *)

(** In the translated run of the examples the count is 3, taken on
    "hello  world foo", while the content returned is "hola mundo". *)
Lemma word_count_of_translated_run :
  BlogGenerationResponse.word_count spanish_response = 3%Z
  /\ BlogGenerationResponse.content spanish_response = u "hola mundo"
  /\ count_tokens (BlogGenerationResponse.content spanish_response) = 2.
Proof. vm_compute. repeat split; reflexivity. Qed.

(** C9, as stated, fails on a translation that comes back empty: the
    request asks for Spanish, the model answers the translation
    instruction with blanks; [translated_content] is then present in the
    final state, as the empty string, and [was_translated] is false. *)
Lemma C9_counterexample :
  ~ (forall request env response final,
        fst (run (Routes.generate_blog request Workflow.create_workflow) env)
        = inr (inr response) ->
        fst (exec (LangGraph.invoke Workflow.create_workflow
                     (Routes.initial_state request)) env 0 1)
        = inr final ->
        (BlogGenerationResponse.was_translated response = true
         <-> exists text, translated_content final = Some (Some text))).
Proof.
  intros H.
  specialize (H (remote_work (Some (u "Spanish"))) (mock replies_blank)
                blank_response blank_final).
  destruct H as [_ H]; [vm_compute; reflexivity | vm_compute; reflexivity |].
  assert (Hpresent : exists text,
             translated_content blank_final = Some (Some text))
    by (exists []; reflexivity).
  apply H in Hpresent. vm_compute in Hpresent. discriminate.
Qed.

(** C9, amended: [was_translated] is true exactly when
    [translated_content] is present in the final state of the workflow
    and is not the empty string. *)
Theorem C9_was_translated (request : BlogGenerationRequest.t)
  (workflow : LangGraph.StateGraph) (env : Env)
  (response : BlogGenerationResponse.t) :
  fst (run (Routes.generate_blog request workflow) env)
  = inr (inr response) ->
  exists final,
    fst (exec (LangGraph.invoke workflow (Routes.initial_state request))
              env 0 1)
    = inr final
    /\ (BlogGenerationResponse.was_translated response = true
        <-> exists text, translated_content final = Some (Some text)
                         /\ text <> []).
Proof.
  intros Hrun. apply fst_pair in Hrun. destruct Hrun as (tr & Hrun).
  apply generate_blog_success in Hrun.
  destruct Hrun as (final & tr1 & t & tr2 & n & m & Hinv & Hbuild).
  exists final. rewrite Hinv. split; [reflexivity |].
  apply build_response_inv in Hbuild.
  destruct Hbuild as (_ & _ & _ & _ & -> & _).
  unfold get, truthy_opt.
  destruct (translated_content final) as [[text |] |].
  - rewrite truthy_nonempty. split.
    + intros Hne. now exists text.
    + intros (text' & Heq & Hne). now inversion Heq; subst.
  - split; [discriminate | intros (text & Heq & _); discriminate].
  - split; [discriminate | intros (text & Heq & _); discriminate].
Qed.

Lemma C9_was_translated_witness :
  fst (run (Routes.generate_blog (remote_work (Some (u "Spanish")))
              Workflow.create_workflow)
           (mock replies_spanish))
  = inr (inr spanish_response)
  /\ exists final,
       fst (exec (LangGraph.invoke Workflow.create_workflow
                    (Routes.initial_state (remote_work (Some (u "Spanish")))))
                 (mock replies_spanish) 0 1)
       = inr final
       /\ (BlogGenerationResponse.was_translated spanish_response = true
           <-> exists text, translated_content final = Some (Some text)
                            /\ text <> []).
Proof.
  split; [vm_compute; reflexivity |].
  apply (C9_was_translated (remote_work (Some (u "Spanish")))
           Workflow.create_workflow (mock replies_spanish) spanish_response).
  vm_compute. reflexivity.
Defined.

(** ** Titles are never empty *)

(** C10: every candidate the title step returns is a non-empty string, and
    so is the title it selects; the [title] of a response and each of its
    [brainstormed_titles] are non-empty too. *)
Theorem C10_titles_nonempty (state : BlogState) (env : Env)
  (patch : BlogState) (request : BlogGenerationRequest.t) (env' : Env)
  (response : BlogGenerationResponse.t) :
  (fst (run (TitleAgent.title_agent state) env) = inr patch ->
   exists titles selected,
     brainstormed_titles patch = Some titles
     /\ selected_title patch = Some selected
     /\ Forall nonempty titles
     /\ In selected titles
     /\ selected <> [])
  /\ (fst (run (Routes.generate_blog request Workflow.create_workflow) env')
      = inr (inr response) ->
      BlogGenerationResponse.title response <> []
      /\ Forall nonempty (BlogGenerationResponse.brainstormed_titles response)).
Proof.
  split.
  - intros Hrun. apply fst_pair in Hrun. destruct Hrun as (tr & Hrun).
    apply (ensures_exec _ _ (title_agent_ensures state)) in Hrun.
    destruct Hrun as (titles & selected & -> & Hin & Hall).
    exists titles, selected. repeat split; try assumption.
    rewrite Forall_forall in Hall. now apply Hall.
  - intros Hrun. apply fst_pair in Hrun. destruct Hrun as (tr & Hrun).
    apply generate_blog_success in Hrun.
    destruct Hrun as (final & tr1 & t & tr2 & n & m & Hinv & Hbuild).
    apply invoke_stream in Hinv. destruct Hinv as (log & Hstream).
    apply build_response_inv in Hbuild.
    destruct Hbuild as (Htitle & _ & _ & Htitles & _).
    apply stream_outcome in Hstream.
    destruct Hstream as (titles & selected & reply & Hbt & Hst & Hin & Hall & _).
    rewrite Htitle in Hst. rewrite Htitles in Hbt.
    inversion Hst; inversion Hbt; subst. split; [| assumption].
    rewrite Forall_forall in Hall. now apply Hall.
Qed.

Lemma C10_titles_nonempty_witness :
  (fst (run (TitleAgent.title_agent (with_topic (u "Remote Work") default_state))
            (mock [u "1."; u "  "]))
   = inr (set_selected_title (u "Complete Guide to Remote Work")
            (set_brainstormed_titles [u "Complete Guide to Remote Work"]
               State.empty))
   /\ fst (run (Routes.generate_blog (remote_work (Some (u "Spanish")))
                 Workflow.create_workflow)
              (mock replies_spanish))
      = inr (inr spanish_response))
  /\ (exists titles selected,
         Some [u "Complete Guide to Remote Work"] = Some titles
         /\ Some (u "Complete Guide to Remote Work") = Some selected
         /\ Forall nonempty titles
         /\ In selected titles
         /\ selected <> [])
  /\ BlogGenerationResponse.title spanish_response <> []
  /\ Forall nonempty (BlogGenerationResponse.brainstormed_titles spanish_response).
Proof.
  split; [split; vm_compute; reflexivity |].
  destruct (C10_titles_nonempty
              (with_topic (u "Remote Work") default_state)
              (mock [u "1."; u "  "])
              (set_selected_title (u "Complete Guide to Remote Work")
                 (set_brainstormed_titles [u "Complete Guide to Remote Work"]
                    State.empty))
              (remote_work (Some (u "Spanish")))
              (mock replies_spanish) spanish_response) as [H1 H2].
  split.
  - apply H1. vm_compute. reflexivity.
  - apply H2. vm_compute. reflexivity.
Defined.

(** ** The title parser *)

(** What the marker removal leaves of a line made of digits, a "." or ")"
    and a remainder free of both characters: the remainder, trimmed. *)
Lemma extract_title_marker (digits rest : str) (marker : char) :
  forallb isdigit digits = true ->
  marker = dot \/ marker = rparen ->
  ~ In dot rest -> ~ In rparen rest ->
  TitleAgent.extract_title (digits ++ marker :: rest) = strip rest.
Proof.
  intros Hdigits Hmarker Hdot Hparen. unfold TitleAgent.extract_title.
  destruct Hmarker as [-> | ->].
  - rewrite splitn1_present by (apply digits_no; auto).
    cbn [last_item last].
    now rewrite splitn1_absent by assumption.
  - rewrite (splitn1_absent dot (digits ++ rparen :: rest)).
    + cbn [last_item last].
      now rewrite splitn1_present by (apply digits_no; auto).
    + intros Hin. apply in_app_or in Hin.
      destruct Hin as [Hin | [Heq | Hin]].
      * revert Hin. apply digits_no; auto.
      * discriminate Heq.
      * contradiction.
Qed.


Lemma drop_digits_head (line : str) (c : char) (rest : str) :
  drop_digits line = c :: rest -> isdigit c = false.
Proof.
  induction line as [| d line IH]; cbn [drop_digits]; [discriminate |].
  destruct (isdigit d) eqn:Hd; [exact IH |].
  intros H. inversion H; subst. exact Hd.
Qed.





Lemma parse_titles_cut_lines :
  TitleAgent.parse_titles cut_lines = [u "js?"; u "A summary"]
  /\ spec_parse_titles cut_lines
     = [[]; u "Remote Work (2024 Edition)"; u "What is Node.js?";
        u "2024 in review. A summary"].
Proof. vm_compute. split; reflexivity. Qed.

Lemma parse_titles_two_lines :
  TitleAgent.parse_titles two_lines = [u "Matters"]
  /\ spec_parse_titles two_lines = [[]; u "Remote Work (and Why) Matters"].
Proof. vm_compute. split; reflexivity. Qed.



(* ===================================================================== *)
(** * Runs, exchange by exchange *)
(* ===================================================================== *)

Module TraceFacts.

Import Traces.

Lemma satisfies_weaken {A} (p : Prog A)
  (Q Q' : list exchange -> A -> Prop) (E E' : list exchange -> exn -> Prop) :
  (forall cs a, Q cs a -> Q' cs a) ->
  (forall cs e, E cs e -> E' cs e) ->
  satisfies p Q E -> satisfies p Q' E'.
Proof.
  revert Q Q' E E'.
  induction p as [a | e | llm msgs k IH | k IH | line k IH];
    cbn [satisfies]; intros Q Q' E E' HQ HE Hp; auto.
  - intros r. eapply IH; [| | apply Hp]; cbn; auto.
  - intros t. eapply IH; eauto.
  - eapply IH; eauto.
Qed.

Lemma satisfies_bind {A B} (p : Prog A) (f : A -> Prog B)
  (P : list exchange -> A -> Prop) (Q : list exchange -> B -> Prop)
  (E : list exchange -> exn -> Prop) :
  satisfies p P E ->
  (forall cs a, P cs a ->
     satisfies (f a) (fun cs' => Q (cs ++ cs')) (fun cs' => E (cs ++ cs'))) ->
  satisfies (bind p f) Q E.
Proof.
  revert P Q E.
  induction p as [a | e | llm msgs k IH | k IH | line k IH];
    cbn [satisfies bind]; intros P Q E Hp Hf.
  - apply (Hf [] a Hp).
  - assumption.
  - intros r. eapply IH; [apply Hp |]. cbn. intros cs a HP.
    apply (Hf _ _ HP).
  - intros t. eapply IH; eauto.
  - eapply IH; eauto.
Qed.

Lemma satisfies_try_except {A} (p : Prog A) (handler : exn -> Prog A)
  (Q : list exchange -> A -> Prop) (E E' : list exchange -> exn -> Prop) :
  satisfies p Q E ->
  (forall cs e, E cs e -> is_exception e = true ->
     satisfies (handler e)
       (fun cs' => Q (cs ++ cs')) (fun cs' => E' (cs ++ cs'))) ->
  (forall cs e, E cs e -> is_exception e = false -> E' cs e) ->
  satisfies (try_except p handler) Q E'.
Proof.
  revert Q E E'.
  induction p as [a | e | llm msgs k IH | k IH | line k IH];
    cbn [satisfies try_except]; intros Q E E' Hp Hh Hi.
  - assumption.
  - destruct (is_exception e) eqn:He.
    + apply (Hh [] e Hp He).
    + cbn [satisfies]. apply (Hi [] e Hp He).
  - intros r. eapply IH; [apply Hp | |]; cbn.
    + intros cs e HE. apply (Hh _ _ HE).
    + intros cs e HE. apply (Hi _ _ HE).
  - intros t. eapply IH; eauto.
  - eapply IH; eauto.
Qed.

Lemma satisfies_prog_eq {A} (p q : Prog A)
  (Q : list exchange -> A -> Prop) (E : list exchange -> exn -> Prop) :
  prog_eq p q -> satisfies q Q E -> satisfies p Q E.
Proof.
  intros Heq. revert Q E.
  induction Heq; cbn [satisfies]; intros Q E Hq; auto.
Qed.

(** What a run does satisfies what the program is specified to do. *)
Lemma satisfies_exec {A} (p : Prog A)
  (Q : list exchange -> A -> Prop) (E : list exchange -> exn -> Prop) :
  satisfies p Q E ->
  forall env n m res tr,
    exec p env n m = (res, tr) ->
    match res with
    | inr a => Q (exchanges tr) a
    | inl e => E (exchanges tr) e
    end.
Proof.
  revert Q E.
  induction p as [a | e | llm msgs k IH | k IH | line k IH];
    cbn [satisfies exec]; intros Q E Hp env n m res tr Hrun.
  - inversion Hrun; subst. assumption.
  - inversion Hrun; subst. assumption.
  - destruct (exec (k (llm_reply env n)) env (S n) m) as [res' tr'] eqn:Hk.
    inversion Hrun; subst. cbn [exchanges].
    apply (IH _ _ _ (Hp (llm_reply env n)) _ _ _ _ _ Hk).
  - destruct (exec (k (clock env m)) env n (S m)) as [res' tr'] eqn:Hk.
    inversion Hrun; subst. cbn [exchanges].
    apply (IH _ _ _ (Hp (clock env m)) _ _ _ _ _ Hk).
  - destruct (exec k env n m) as [res' tr'] eqn:Hk.
    inversion Hrun; subst. cbn [exchanges].
    apply (IH _ _ Hp _ _ _ _ _ Hk).
Qed.

(** The replies of a run are those of the environment, in order. *)
Lemma exec_replies {A} (p : Prog A) :
  forall env n m res tr,
    exec p env n m = (res, tr) ->
    map snd (exchanges tr)
    = map (llm_reply env) (seq n (List.length (exchanges tr))).
Proof.
  induction p as [a | e | llm msgs k IH | k IH | line k IH];
    cbn [exec]; intros env n m res tr Hrun.
  - inversion Hrun; subst. reflexivity.
  - inversion Hrun; subst. reflexivity.
  - destruct (exec (k (llm_reply env n)) env (S n) m) as [res' tr'] eqn:Hk.
    inversion Hrun; subst. cbn [exchanges map List.length seq snd].
    f_equal. apply (IH _ _ _ _ _ _ Hk).
  - destruct (exec (k (clock env m)) env n (S m)) as [res' tr'] eqn:Hk.
    inversion Hrun; subst. cbn [exchanges]. apply (IH _ _ _ _ _ _ Hk).
  - destruct (exec k env n m) as [res' tr'] eqn:Hk.
    inversion Hrun; subst. cbn [exchanges]. apply (IH _ _ _ _ _ Hk).
Qed.

Lemma calls_exchanges (tr : list event) :
  calls tr = map fst (exchanges tr).
Proof.
  induction tr as [| [llm msgs r | t | line] tr IH]; cbn; congruence.
Qed.

Lemma answered_app (cs cs' : list exchange) :
  answered cs -> answered cs' -> answered (cs ++ cs').
Proof. unfold answered. intros. apply Forall_app. auto. Qed.

Lemma model_failure_app (cs cs' : list exchange) (e : exn) :
  answered cs -> model_failure cs' e -> model_failure (cs ++ cs') e.
Proof.
  intros Hcs (before & llm & msgs & -> & Hbefore).
  exists (cs ++ before), llm, msgs. rewrite app_assoc.
  split; [reflexivity | now apply answered_app].
Qed.

Lemma model_failure_one (llm : ChatModel) (msgs : list Message) (e : exn) :
  model_failure [(llm, msgs, inl e)] e.
Proof. exists [], llm, msgs. split; [reflexivity | constructor]. Qed.

Lemma answered_one (llm : ChatModel) (msgs : list Message) (text : str) :
  answered [(llm, msgs, inr text)].
Proof. constructor; [now exists text | constructor]. Qed.

End TraceFacts.

Module StepSpecs.

Import Spec Derived Traces Outcomes.
Import PyFacts ProgFacts TitleFacts StepFacts TraceFacts.

Lemma title_agent_satisfies (state : BlogState) :
  satisfies (TitleAgent.title_agent state)
    (title_result state) (title_failure state).
Proof.
  unfold TitleAgent.title_agent. cbv zeta.
  destruct (State.topic state) as [topic |] eqn:Htopic;
    cbn [getitem bind invoke satisfies].
  2: { left. auto. }
  intros [e | generation]; cbn [bind satisfies].
  { right. apply model_failure_one. }
  rewrite !candidates_eq.
  intros [e | selection]; cbn [bind satisfies].
  { right. apply (model_failure_app [_] [_]);
      [apply answered_one | apply model_failure_one]. }
  assert (Hsel :
    (if negb (contains (candidates topic generation) (strip selection))
     then TitleAgent.first_item (candidates topic generation)
     else Ret (strip selection))
    = Ret (selection_of (candidates topic generation) selection)).
  { unfold selection_of.
    destruct (candidates_cons topic generation) as (first & rest & ->).
    now destruct (contains (first :: rest) (strip selection)). }
  rewrite Hsel. cbn [bind satisfies].
  exists topic, generation, selection. eauto 10.
Qed.

Lemma content_agent_satisfies (state : BlogState) :
  satisfies (ContentAgent.content_agent state)
    (content_result state) (content_failure state).
Proof.
  unfold ContentAgent.content_agent. cbv zeta.
  destruct (State.topic state) as [topic |] eqn:Htopic;
    cbn [getitem bind invoke satisfies].
  2: { left. auto. }
  destruct (selected_title state) as [title |] eqn:Htitle;
    cbn [getitem bind invoke satisfies].
  2: { left. split; [reflexivity |]. right.
       repeat split; [congruence | assumption]. }
  intros [e | reply]; cbn [bind satisfies].
  { right. apply model_failure_one. }
  exists topic, title, reply. eauto 10.
Qed.

Lemma translation_agent_satisfies (state : BlogState) :
  satisfies (TranslationAgent.translation_agent state)
    (translation_result state) (translation_failure state).
Proof.
  unfold TranslationAgent.translation_agent, translation_result,
    language_given.
  cbv zeta.
  destruct (blog_content state) as [content |] eqn:Hcontent;
    cbn [getitem bind invoke satisfies].
  2: { left. auto. }
  destruct (truthy_opt (get (target_language state) (Some [])));
    cbn [negb bind invoke satisfies].
  - intros [e | reply]; cbn [bind satisfies].
    { right. apply model_failure_one. }
    exists content. split; [reflexivity |]. right.
    split; [reflexivity |]. eauto.
  - exists content. split; [reflexivity |]. left. auto.
Qed.

End StepSpecs.

Module WorkflowSpecs.

Import Spec Derived Traces Outcomes.
Import PyFacts ProgFacts TitleFacts StepFacts WorkflowFacts TraceFacts.
Import StepSpecs LangGraph Workflow.

(** The run of the contract, exchange by exchange. *)
Lemma spec_run_satisfies (initial : BlogState) :
  satisfies (spec_run initial)
    (workflow_result initial) (title_failure initial).
Proof.
  unfold spec_run.
  eapply satisfies_bind; [apply title_agent_satisfies |].
  intros cs1 p1 (topic & generation & selection & m1 & m2 & Htopic & -> & ->).
  eapply satisfies_bind.
  { eapply satisfies_weaken; [| | apply content_agent_satisfies].
    - intros cs a H. exact H.
    - intros cs e [(_ & [(Hno & _) | (_ & Hno & _)]) | Hfail].
      + cbn in Hno. congruence.
      + discriminate Hno.
      + right. apply model_failure_app; [| assumption].
        apply (answered_app [_] [_]); apply answered_one. }
  intros cs2 p2 (topic' & title & reply & m3 & _ & _ & -> & ->). cbv zeta.
  match goal with |- context [Router.should_translate ?s] => set (s2 := s) end.
  assert (Hroute : Router.should_translate s2 = Router.should_translate initial)
    by reflexivity.
  destruct (should_translate_cases s2) as [(E & _) | (E & _)]; rewrite E.
  - replace (str_eqb (u "translate") (u "translate")) with true
      by (symmetry; apply str_eqb_refl).
    pose proof (should_translate_language_given _ E) as Hlang.
    eapply satisfies_bind.
    { eapply satisfies_weaken; [| | apply translation_agent_satisfies].
      - intros cs a H. exact H.
      - intros cs e [(Hno & _) | Hfail].
        + discriminate Hno.
        + right.
          apply model_failure_app;
            [| apply model_failure_app; [apply answered_one | assumption]].
          apply (answered_app [_] [_]); apply answered_one. }
    intros cs3 p3 (content & _ & [(Hno & _) | (_ & translation & m4 & -> & ->)]).
    { congruence. }
    cbn [satisfies workflow_result app].
    exists topic, generation, selection, reply.
    split; [assumption |]. split; [repeat split |].
    repeat (split; [reflexivity |]).
    right. split; [congruence |]. split; [reflexivity |].
    exists translation. repeat split; reflexivity.
  - replace (str_eqb (u "end") (u "translate")) with false by reflexivity.
    cbn [satisfies workflow_result app].
    exists topic, generation, selection, reply.
    split; [assumption |]. split; [repeat split |].
    repeat (split; [reflexivity |]).
    left. split; [congruence |]. repeat split; reflexivity.
Qed.

Lemma stream_satisfies (initial : BlogState) :
  satisfies (stream create_workflow initial)
    (workflow_result initial) (title_failure initial).
Proof.
  eapply satisfies_prog_eq; [apply stream_spec_run | apply spec_run_satisfies].
Qed.

Lemma invoke_satisfies (initial : BlogState) :
  satisfies (invoke create_workflow initial)
    (fun cs final => exists log, workflow_result initial cs (log, final))
    (title_failure initial).
Proof.
  unfold invoke.
  eapply satisfies_bind; [apply stream_satisfies |].
  intros cs [log final] H. cbn [satisfies snd]. rewrite app_nil_r. eauto.
Qed.

End WorkflowSpecs.

Module RouteSpecs.

Import Spec Derived Traces Outcomes.
Import PyFacts ProgFacts TraceFacts StepSpecs WorkflowSpecs.
Import LangGraph Workflow Routes.

(** How a run goes through [bind]. *)
Lemma exec_bind {A B} (p : Prog A) (f : A -> Prog B) :
  forall env n m,
    exec (bind p f) env n m
    = match exec p env n m with
      | (inl e, tr) => (inl e, tr)
      | (inr a, tr) =>
          let (res, tr') :=
            exec (f a) env (n + List.length (calls tr)) (m + reads tr) in
          (res, tr ++ tr')
      end.
Proof.
  induction p as [a | e | llm msgs k IH | k IH | line k IH];
    cbn [bind exec]; intros env n m.
  - rewrite !Nat.add_0_r. now destruct (exec (f a) env n m).
  - reflexivity.
  - rewrite IH.
    destruct (exec (k (llm_reply env n)) env (S n) m) as [[e | a] tr];
      [reflexivity |].
    cbn [calls reads List.length]. rewrite <- plus_n_Sm.
    now destruct (exec (f a) env _ _).
  - rewrite IH.
    destruct (exec (k (clock env m)) env n (S m)) as [[e | a] tr];
      [reflexivity |].
    cbn [calls reads]. rewrite <- plus_n_Sm.
    now destruct (exec (f a) env _ _).
  - rewrite IH.
    destruct (exec k env n m) as [[e | a] tr]; [reflexivity |].
    cbn [calls reads]. now destruct (exec (f a) env _ _).
Qed.

(** How a run goes through [try: ... except Exception as e: ...]. *)
Lemma exec_try_except {A} (p : Prog A) (handler : exn -> Prog A) :
  forall env n m,
    exec (try_except p handler) env n m
    = match exec p env n m with
      | (inr a, tr) => (inr a, tr)
      | (inl e, tr) =>
          if is_exception e then
            let (res, tr') :=
              exec (handler e) env (n + List.length (calls tr)) (m + reads tr)
            in (res, tr ++ tr')
          else (inl e, tr)
      end.
Proof.
  induction p as [a | e | llm msgs k IH | k IH | line k IH];
    cbn [try_except exec]; intros env n m.
  - reflexivity.
  - destruct (is_exception e); [| reflexivity].
    rewrite !Nat.add_0_r. now destruct (exec (handler e) env n m).
  - rewrite IH.
    destruct (exec (k (llm_reply env n)) env (S n) m) as [[e | a] tr];
      [| reflexivity].
    destruct (is_exception e); [| reflexivity].
    cbn [calls reads List.length]. rewrite <- plus_n_Sm.
    now destruct (exec (handler e) env _ _).
  - rewrite IH.
    destruct (exec (k (clock env m)) env n (S m)) as [[e | a] tr];
      [| reflexivity].
    destruct (is_exception e); [| reflexivity].
    cbn [calls reads]. rewrite <- plus_n_Sm.
    now destruct (exec (handler e) env _ _).
  - rewrite IH.
    destruct (exec k env n m) as [[e | a] tr]; [| reflexivity].
    destruct (is_exception e); [| reflexivity].
    cbn [calls reads]. now destruct (exec (handler e) env _ _).
Qed.

Lemma build_response_satisfies (request : BlogGenerationRequest.t)
  (final : BlogState) (t : Q) (cs : list exchange)
  (log : list (str * BlogState)) :
  workflow_result (initial_state request) cs (log, final) ->
  satisfies (build_response request final t)
    (fun cs' r => cs' = [] /\ response_of_state request final r)
    (fun _ _ => False).
Proof.
  intros (topic & generation & selection & reply & _ & _ & Hbt & Hst & _
          & Hwc & H).
  assert (Hfc : exists content, final_content final = Some content)
    by (destruct H as [(_ & _ & _ & _ & Hfc & _)
                      | (_ & _ & tr & _ & _ & Hfc & _)]; eauto).
  destruct Hfc as (content & Hfc).
  unfold build_response, response_of_state.
  rewrite Hst, Hfc, Hwc, Hbt. cbn. repeat split; reflexivity.
Qed.

(** The route, exchange by exchange: it raises only what a model call
    raised that is not an [Exception]. *)
Lemma generate_blog_satisfies (request : BlogGenerationRequest.t) :
  satisfies (generate_blog request create_workflow)
    (route_result request)
    (fun cs e => model_failure cs e /\ is_exception e = false).
Proof.
  unfold generate_blog.
  eapply satisfies_try_except
    with (E := title_failure (initial_state request)).
  - eapply satisfies_bind
      with (P := fun cs response => route_result request cs (inr response)).
    + unfold generate, time. cbn [bind satisfies]. intros t0.
      eapply satisfies_bind; [apply invoke_satisfies |].
      intros cs final (log & Hrun). cbn [satisfies]. intros t1.
      eapply satisfies_weaken;
        [| | apply (build_response_satisfies _ _ _ _ _ Hrun)].
      * intros cs' response (-> & Hresp). rewrite app_nil_r.
        cbn [route_result]. eauto.
      * intros cs' e [].
    + intros cs response H. cbn [satisfies]. now rewrite app_nil_r.
  - intros cs e [(Hno & _) | Hfail] He.
    + discriminate Hno.
    + cbn [print bind satisfies]. rewrite app_nil_r.
      cbn [route_result]. eauto.
  - intros cs e [(Hno & _) | Hfail] He.
    + discriminate Hno.
    + now split.
Qed.

End RouteSpecs.

Module EnvFacts.

Import Traces TraceFacts.

(** The i-th reply of a run is the reply of the environment to the call
    numbered [n + i]. *)
Lemma exec_reply_at {A} (p : Prog A) (env : Env) (n m : nat)
  (res : exn + A) (tr : list event) (i : nat) (r : exn + str) :
  exec p env n m = (res, tr) ->
  nth_error (map snd (exchanges tr)) i = Some r ->
  llm_reply env (n + i) = r.
Proof.
  intros Hrun Hi. rewrite (exec_replies _ _ _ _ _ _ Hrun) in Hi.
  assert (Hlt : i < List.length (exchanges tr)).
  { assert (H : nth_error
                  (map (llm_reply env) (seq n (List.length (exchanges tr)))) i
                <> None) by congruence.
    apply nth_error_Some in H. now rewrite length_map, length_seq in H. }
  rewrite nth_error_map, nth_error_seq in Hi.
  apply Nat.ltb_lt in Hlt. rewrite Hlt in Hi. cbn in Hi. congruence.
Qed.

Lemma answered_nth (cs : list exchange) (i : nat) (e : exn) :
  answered cs -> nth_error (map snd cs) i <> Some (inl e).
Proof.
  intros Hall Hi. rewrite nth_error_map in Hi.
  unfold answered, is_answer, exchange in *.
  rewrite Forall_forall in Hall.
  destruct (nth_error cs i) as [x |] eqn:Hx; cbn [option_map] in Hi.
  - apply nth_error_In in Hx.
    destruct (Hall _ Hx) as (text & Htext). congruence.
  - discriminate Hi.
Qed.

(** In a run that ends on a failed call, a failed reply is the last one. *)
Lemma model_failure_nth (cs : list exchange) (e e' : exn) (i : nat) :
  model_failure cs e ->
  nth_error (map snd cs) i = Some (inl e') ->
  List.length cs = S i /\ e' = e.
Proof.
  intros (before & llm & msgs & -> & Hbefore) Hi.
  rewrite map_app in Hi.
  destruct (Nat.lt_ge_cases i (List.length before)) as [Hlt | Hge].
  - rewrite nth_error_app1 in Hi by now rewrite length_map.
    now apply answered_nth in Hi.
  - rewrite nth_error_app2 in Hi by now rewrite length_map.
    rewrite length_map in Hi.
    destruct (i - List.length before) as [| j] eqn:Hj; cbn in Hi.
    + inversion Hi; subst. rewrite length_app. cbn. split; [lia | reflexivity].
    + destruct j; discriminate.
Qed.

(** A run that ends on a failed call, told from the environment: the
    call numbered [n + k] raised, the [k] calls before it got replies. *)
Lemma model_failure_env {A} (p : Prog A) (env : Env) (n m : nat)
  (res : exn + A) (tr : list event) (e : exn) :
  exec p env n m = (res, tr) ->
  model_failure (exchanges tr) e ->
  exists k,
    List.length (exchanges tr) = S k
    /\ llm_reply env (n + k) = inl e
    /\ forall j, j < k -> exists text, llm_reply env (n + j) = inr text.
Proof.
  intros Hrun (before & llm & msgs & Hcs & Hbefore).
  exists (List.length before). split; [| split].
  - rewrite Hcs, length_app. cbn. lia.
  - apply (exec_reply_at _ _ _ _ _ _ _ _ Hrun).
    rewrite Hcs, map_app, nth_error_app2 by now rewrite length_map.
    rewrite length_map, Nat.sub_diag. reflexivity.
  - intros j Hj.
    destruct (nth_error before j) as [x |] eqn:Hx.
    2: { apply nth_error_None in Hx. lia. }
    unfold answered in Hbefore. rewrite Forall_forall in Hbefore.
    destruct (Hbefore _ (nth_error_In _ _ Hx)) as (text & Htext).
    exists text. apply (exec_reply_at _ _ _ _ _ _ _ _ Hrun).
    rewrite Hcs, map_app, nth_error_app1 by now rewrite length_map.
    rewrite nth_error_map, Hx. cbn. now rewrite Htext.
Qed.

End EnvFacts.

Import Traces Outcomes TraceFacts StepSpecs WorkflowSpecs RouteSpecs EnvFacts.

Lemma run_pair {A} (p : Prog A) (env : Env) :
  run p env = (fst (run p env), snd (run p env)).
Proof. now destruct (run p env). Qed.

Lemma answered_replies (cs : list exchange) (texts : list str) :
  map snd cs = map inr texts -> answered cs.
Proof.
  revert texts. induction cs as [| x cs IH]; intros texts H.
  - constructor.
  - destruct texts as [| text texts]; [discriminate |].
    cbn [map] in H. inversion H as [[Hx Hcs]].
    constructor; [now exists text | now apply (IH texts)].
Qed.

(* ===================================================================== *)
(** * The word count of a response *)
(* ===================================================================== *)

(** C8: the [word_count] of a response is the number of whitespace-
    delimited tokens of [blog_content], the trimmed text of the reply of
    the model to the content step's call, the third of the run; the content
    step's update is the only one of the run that writes [word_count] or
    [blog_content], so the count is the same whether or not the
    translation step ran; when it ran, the [content] of the response is the
    trimmed reply to the fourth call, the translated text, so the count is
    not taken on the text returned. *)
Theorem C8_word_count (request : BlogGenerationRequest.t) (env : Env)
  (response : BlogGenerationResponse.t) :
  fst (run (Routes.generate_blog request Workflow.create_workflow) env)
  = inr (inr response) ->
  exists log final reply,
    fst (exec (LangGraph.stream Workflow.create_workflow
                 (Routes.initial_state request)) env 0 1)
    = inr (log, final)
    /\ llm_reply env 2 = inr reply
    /\ In (u "content_agent", content_patch (strip reply)) log
    /\ (forall name patch,
          In (name, patch) log -> name <> u "content_agent" ->
          State.word_count patch = None /\ blog_content patch = None)
    /\ blog_content final = Some (strip reply)
    /\ State.word_count final
       = Some (Z.of_nat (count_tokens (strip reply)))
    /\ BlogGenerationResponse.word_count response
       = Z.of_nat (count_tokens (strip reply))
    /\ (translation_ran log
        -> exists translation,
            llm_reply env 3 = inr translation
            /\ BlogGenerationResponse.content response = strip translation
            /\ translated_content final
               = Some (Some (BlogGenerationResponse.content response)))
    /\ (~ translation_ran log
        -> BlogGenerationResponse.content response = strip reply).
Proof.
  intros Hrun. apply fst_pair in Hrun. destruct Hrun as (tr & Hrun).
  apply generate_blog_success in Hrun.
  destruct Hrun as (final & tr1 & t & tr2 & n & m & Hinv & Hbuild).
  apply invoke_stream in Hinv. destruct Hinv as (log & Hstream).
  apply build_response_inv in Hbuild.
  destruct Hbuild as (_ & Hcontent & Hcount & _).
  pose proof (satisfies_exec _ _ _ (stream_satisfies _) _ _ _ _ _ Hstream)
    as Hout.
  pose proof (stream_log _ _ _ _ _ _ Hstream) as Hlog.
  assert (Hreply : forall i r,
             nth_error (map snd (exchanges tr1)) i = Some r ->
             llm_reply env i = r)
    by (intros i r; apply (exec_reply_at _ _ _ _ _ _ _ _ Hstream)).
  cbn beta iota in Hout.
  destruct Hout as (topic & generation & selection & reply & _ & _ & _ & _
                    & Hbc & Hwc & H).
  destruct Hlog as (titles & selected & content & Hbc' & Hlog).
  assert (content = strip reply) by congruence. subst content.
  rewrite split_ws_length in Hwc.
  exists log, final, reply. rewrite Hstream.
  split; [reflexivity |].
  assert (Hthird : llm_reply env 2 = inr reply).
  { destruct H as [(_ & _ & Hcs & _) | (_ & _ & translation & Hcs & _)];
      rewrite Hcs in Hreply; now apply Hreply. }
  split; [exact Hthird |].
  split; [destruct Hlog as [-> | (translation & ->)]; cbn; auto |].
  split.
  { intros name patch Hin Hname.
    destruct Hlog as [-> | (translation & ->)]; cbn [In] in Hin;
      repeat (destruct Hin as [Hin | Hin]);
      try contradiction; inversion Hin; subst; try contradiction;
      split; reflexivity. }
  split; [assumption |]. split; [assumption |].
  split; [congruence |].
  destruct H as [(_ & Hsteps & _ & _ & Hfc & _)
                | (_ & Hsteps & translation & Hcs & _ & Hfc & Htc)].
  - split; [| congruence].
    intros Hran. now apply not_translation_ran in Hsteps.
  - split.
    + intros _. exists translation. rewrite Hcs in Hreply.
      split; [now apply Hreply |]. split; congruence.
    + intros Hnot. exfalso. now apply Hnot, is_translation_ran.
Qed.

Lemma C8_word_count_witness :
  fst (run (Routes.generate_blog (remote_work (Some (u "Spanish")))
              Workflow.create_workflow)
           (mock replies_spanish))
  = inr (inr spanish_response)
  /\ exists log final reply,
       fst (exec (LangGraph.stream Workflow.create_workflow
                    (Routes.initial_state (remote_work (Some (u "Spanish")))))
                 (mock replies_spanish) 0 1)
       = inr (log, final)
       /\ llm_reply (mock replies_spanish) 2 = inr reply
       /\ In (u "content_agent", content_patch (strip reply)) log
       /\ (forall name patch,
             In (name, patch) log -> name <> u "content_agent" ->
             State.word_count patch = None /\ blog_content patch = None)
       /\ blog_content final = Some (strip reply)
       /\ State.word_count final
          = Some (Z.of_nat (count_tokens (strip reply)))
       /\ BlogGenerationResponse.word_count spanish_response
          = Z.of_nat (count_tokens (strip reply))
       /\ (translation_ran log
           -> exists translation,
               llm_reply (mock replies_spanish) 3 = inr translation
               /\ BlogGenerationResponse.content spanish_response
                  = strip translation
               /\ translated_content final
                  = Some (Some (BlogGenerationResponse.content
                                  spanish_response)))
       /\ (~ translation_ran log
           -> BlogGenerationResponse.content spanish_response = strip reply).
Proof.
  split; [vm_compute; reflexivity |].
  apply (C8_word_count (remote_work (Some (u "Spanish")))
           (mock replies_spanish) spanish_response).
  vm_compute. reflexivity.
Defined.

(* ===================================================================== *)
(** * Further properties of the code *)
(* ===================================================================== *)

(** ** Model calls of a complete run *)

(** A run of the graph that reaches its end made three model calls, at
    temperatures 0.8, 0.8 and 0.7, when the branch decision on the initial
    state is "end", and a fourth at 0.3 when it is "translate"; every call
    was answered, and the translation step ran exactly in the second
    case. *)
Theorem workflow_model_calls (initial : BlogState) (env : Env)
  (log : list (str * BlogState)) (final : BlogState) :
  fst (run (LangGraph.stream Workflow.create_workflow initial) env)
  = inr (log, final) ->
  let cs :=
    exchanges (snd (run (LangGraph.stream Workflow.create_workflow initial)
                        env)) in
  answered cs
  /\ ((Router.should_translate initial = u "end"
       /\ ~ translation_ran log
       /\ temperatures cs = [8 # 10; 8 # 10; 7 # 10]%Q)
      \/ (Router.should_translate initial = u "translate"
          /\ translation_ran log
          /\ temperatures cs = [8 # 10; 8 # 10; 7 # 10; 3 # 10]%Q)).
Proof.
  intros Hfst cs.
  pose proof (run_pair (LangGraph.stream Workflow.create_workflow initial) env)
    as Hrun.
  rewrite Hfst in Hrun.
  pose proof (satisfies_exec _ _ _ (stream_satisfies initial) _ _ _ _ _ Hrun)
    as H.
  cbn beta iota in H. fold cs in H.
  destruct H as (topic & generation & selection & reply & _ & _ & _ & _ & _
                 & _ & H).
  destruct H as [(Hend & Hlog & Hcs & Htemp & _)
                | (Htr & Hlog & translation & Hcs & Htemp & _)].
  - split; [apply (answered_replies _ [generation; selection; reply] Hcs) |].
    left. split; [assumption |]. split; [| assumption].
    now apply not_translation_ran.
  - split;
      [apply (answered_replies _ [generation; selection; reply; translation]
                Hcs) |].
    right. split; [assumption |]. split; [| assumption].
    now apply is_translation_ran.
Qed.

Lemma workflow_model_calls_witness :
  fst (run (LangGraph.stream Workflow.create_workflow
              (Routes.initial_state (remote_work (Some (u "Spanish")))))
           (mock replies_spanish))
  = inr (spanish_log, spanish_final)
  /\ translation_ran spanish_log
  /\ temperatures
       (exchanges
          (snd (run (LangGraph.stream Workflow.create_workflow
                       (Routes.initial_state
                          (remote_work (Some (u "Spanish")))))
                    (mock replies_spanish))))
     = [8 # 10; 8 # 10; 7 # 10; 3 # 10]%Q.
Proof.
  assert (Hrun :
    fst (run (LangGraph.stream Workflow.create_workflow
                (Routes.initial_state (remote_work (Some (u "Spanish")))))
             (mock replies_spanish))
    = inr (spanish_log, spanish_final)) by (vm_compute; reflexivity).
  split; [exact Hrun |].
  destruct (workflow_model_calls _ _ _ _ Hrun)
    as (_ & [(Hend & _) | (_ & Hran & Htemp)]).
  - vm_compute in Hend. discriminate Hend.
  - split; [exact Hran | exact Htemp].
Defined.

(** ** Failures *)

(** No retry and no fallback: when a model call of a run raises, it is the
    last call of the run; and the run raises the exception of the call,
    when that is not a [StopIteration]. *)
Theorem failed_call_ends_run (initial : BlogState) (env : Env) (i : nat)
  (e : exn) :
  nth_error
    (map snd
       (exchanges (snd (run (LangGraph.stream Workflow.create_workflow initial)
                            env)))) i
  = Some (inl e) ->
  List.length
    (exchanges (snd (run (LangGraph.stream Workflow.create_workflow initial)
                         env)))
  = S i
  /\ (e <> StopIteration ->
      fst (run (LangGraph.stream Workflow.create_workflow initial) env)
      = inl e).
Proof.
  intros Hi.
  pose proof (run_pair (LangGraph.stream Workflow.create_workflow initial) env)
    as Hrun.
  pose proof (satisfies_exec _ _ _ (stream_satisfies initial) _ _ _ _ _ Hrun)
    as H.
  destruct (fst (run (LangGraph.stream Workflow.create_workflow initial) env))
    as [e' | [log final]].
  - destruct H as [(_ & Hnil & _) | Hfail].
    + rewrite Hnil in Hi. destruct i; discriminate Hi.
    + destruct (model_failure_nth _ _ _ _ Hfail Hi) as (Hlen & ->). auto.
  - exfalso.
    destruct H as (topic & generation & selection & reply & _ & _ & _ & _ & _
                   & _ & H).
    destruct H as [(_ & _ & Hcs & _) | (_ & _ & translation & Hcs & _)].
    + apply (answered_replies _ [generation; selection; reply]) in Hcs.
      now apply (answered_nth _ i e) in Hcs.
    + apply (answered_replies _ [generation; selection; reply; translation])
        in Hcs.
      now apply (answered_nth _ i e) in Hcs.
Qed.

Lemma failed_call_ends_run_witness :
  nth_error
    (map snd
       (exchanges
          (snd (run (LangGraph.stream Workflow.create_workflow
                       (with_topic (u "Remote Work") default_state))
                    (failing_after [five_titles] rate_limit))))) 1
  = Some (inl rate_limit)
  /\ List.length
       (exchanges
          (snd (run (LangGraph.stream Workflow.create_workflow
                       (with_topic (u "Remote Work") default_state))
                    (failing_after [five_titles] rate_limit))))
     = 2
  /\ fst (run (LangGraph.stream Workflow.create_workflow
                 (with_topic (u "Remote Work") default_state))
              (failing_after [five_titles] rate_limit))
     = inl rate_limit.
Proof.
  assert (Hi :
    nth_error
      (map snd
         (exchanges
            (snd (run (LangGraph.stream Workflow.create_workflow
                         (with_topic (u "Remote Work") default_state))
                      (failing_after [five_titles] rate_limit))))) 1
    = Some (inl rate_limit))
    by (vm_compute; reflexivity).
  split; [exact Hi |].
  destruct (failed_call_ends_run _ _ _ _ Hi) as [Hlen Hraise].
  split; [exact Hlen |].
  apply Hraise. discriminate.
Defined.

(** ** The inputs are kept *)

(** No step overwrites what the caller supplied: at the end of a run
    [topic], [transcript], [target_language], [style] and
    [generation_time] are as in the initial state, and so is
    [translated_content] when the translation step did not run. *)
Theorem workflow_keeps_inputs (initial : BlogState) (env : Env)
  (log : list (str * BlogState)) (final : BlogState) :
  fst (run (LangGraph.stream Workflow.create_workflow initial) env)
  = inr (log, final) ->
  State.topic final = State.topic initial
  /\ transcript final = transcript initial
  /\ target_language final = target_language initial
  /\ style final = style initial
  /\ generation_time final = generation_time initial
  /\ (~ translation_ran log
      -> translated_content final = translated_content initial).
Proof.
  intros Hfst.
  pose proof (run_pair (LangGraph.stream Workflow.create_workflow initial) env)
    as Hrun.
  rewrite Hfst in Hrun.
  pose proof (satisfies_exec _ _ _ (stream_satisfies initial) _ _ _ _ _ Hrun)
    as H.
  destruct H as (topic & generation & selection & reply & _ & Hsame & _ & _
                 & _ & _ & H).
  destruct Hsame as (H1 & H2 & H3 & H4 & H5).
  repeat (split; [assumption |]).
  destruct H as [(_ & _ & _ & _ & _ & Htc) | (_ & Hlog & _)].
  - auto.
  - intros Hnot. exfalso. now apply Hnot, is_translation_ran.
Qed.

Lemma workflow_keeps_inputs_witness :
  fst (run (LangGraph.stream Workflow.create_workflow
              (Routes.initial_state (remote_work (Some (u "Spanish")))))
           (mock replies_spanish))
  = inr (spanish_log, spanish_final)
  /\ State.topic spanish_final = Some (u "Remote Work")
  /\ target_language spanish_final = Some (Some (u "Spanish")).
Proof.
  assert (Hrun :
    fst (run (LangGraph.stream Workflow.create_workflow
                (Routes.initial_state (remote_work (Some (u "Spanish")))))
             (mock replies_spanish))
    = inr (spanish_log, spanish_final)) by (vm_compute; reflexivity).
  split; [exact Hrun |].
  destruct (workflow_keeps_inputs _ _ _ _ Hrun) as (H1 & _ & H3 & _).
  split; [exact H1 | exact H3].
Defined.

(** ** The response, told from the replies of the model *)

(** An answered request, reply by reply. *)
Lemma route_answer (request : BlogGenerationRequest.t) (env : Env)
  (response : BlogGenerationResponse.t) :
  fst (run (Routes.generate_blog request Workflow.create_workflow) env)
  = inr (inr response) ->
  let cs :=
    exchanges (snd (run (Routes.generate_blog request Workflow.create_workflow)
                        env)) in
  let topic := BlogGenerationRequest.topic request in
  exists generation selection reply,
    llm_reply env 0 = inr generation
    /\ llm_reply env 1 = inr selection
    /\ llm_reply env 2 = inr reply
    /\ BlogGenerationResponse.brainstormed_titles response
       = candidates topic generation
    /\ BlogGenerationResponse.title response
       = selection_of (candidates topic generation) selection
    /\ BlogGenerationResponse.word_count response
       = Z.of_nat (count_tokens (strip reply))
    /\ BlogGenerationResponse.target_language response
       = BlogGenerationRequest.target_language request
    /\ ((Router.should_translate (Routes.initial_state request) = u "end"
         /\ List.length cs = 3
         /\ BlogGenerationResponse.content response = strip reply
         /\ BlogGenerationResponse.was_translated response = false)
        \/ (Router.should_translate (Routes.initial_state request)
            = u "translate"
            /\ List.length cs = 4
            /\ exists translation,
                llm_reply env 3 = inr translation
                /\ BlogGenerationResponse.content response
                   = strip translation
                /\ BlogGenerationResponse.was_translated response
                   = truthy (strip translation))).
Proof.
  intros Hfst cs topic.
  pose proof (run_pair (Routes.generate_blog request Workflow.create_workflow)
                env) as Hrun.
  rewrite Hfst in Hrun.
  pose proof (satisfies_exec _ _ _ (generate_blog_satisfies request)
                _ _ _ _ _ Hrun) as H.
  cbn beta iota in H. fold cs in H.
  destruct H as (log & final & Hwf & Hresp).
  destruct Hwf as (topic' & generation & selection & reply & Htopic & _
                   & Hbt & Hst & _ & Hwc & H).
  cbn in Htopic. inversion Htopic; subst topic'. fold topic in Hbt, Hst.
  destruct Hresp as (Rtitle & Rcontent & Rcount & Rtitles & Rwas & Rlang).
  rewrite split_ws_length in Hwc.
  assert (Hreply : forall i r, nth_error (map snd cs) i = Some r ->
                               llm_reply env i = r)
    by (intros i r; apply (exec_reply_at _ _ _ _ _ _ _ _ Hrun)).
  exists generation, selection, reply.
  assert (Hlen : List.length cs = List.length (map snd cs))
    by (symmetry; apply length_map).
  destruct H as [(Hend & _ & Hcs & _ & Hfc & Htc)
                | (Htr & _ & translation & Hcs & _ & Hfc & Htc)].
  - rewrite Hcs in Hreply.
    repeat (split; [first [now apply Hreply | congruence] |]).
    left. split; [assumption |].
    split; [now rewrite Hlen, Hcs |].
    split; [congruence |].
    rewrite Rwas, Htc. reflexivity.
  - rewrite Hcs in Hreply.
    repeat (split; [first [now apply Hreply | congruence] |]).
    right. split; [assumption |].
    split; [now rewrite Hlen, Hcs |].
    exists translation.
    split; [now apply Hreply |]. split; [congruence |].
    rewrite Rwas, Htc. reflexivity.
Qed.

(** The titles of a response: [brainstormed_titles] are the candidates
    parsed from the first reply of the model, or the single title
    "Complete Guide to {topic}" when there are none; [title] is the second
    reply, trimmed, when that is one of them, and the first of them
    otherwise; [word_count] counts the tokens of the third reply and
    [target_language] is the one of the request. *)
Theorem response_titles (request : BlogGenerationRequest.t) (env : Env)
  (response : BlogGenerationResponse.t) :
  fst (run (Routes.generate_blog request Workflow.create_workflow) env)
  = inr (inr response) ->
  exists generation selection reply,
    llm_reply env 0 = inr generation
    /\ llm_reply env 1 = inr selection
    /\ llm_reply env 2 = inr reply
    /\ BlogGenerationResponse.brainstormed_titles response
       = match TitleAgent.parse_titles generation with
         | [] => [u "Complete Guide to "
                    ++ BlogGenerationRequest.topic request]
         | titles => titles
         end
    /\ BlogGenerationResponse.title response
       = (if contains (BlogGenerationResponse.brainstormed_titles response)
                (strip selection)
          then strip selection
          else hd [] (BlogGenerationResponse.brainstormed_titles response))
    /\ BlogGenerationResponse.word_count response
       = Z.of_nat (count_tokens (strip reply))
    /\ BlogGenerationResponse.target_language response
       = BlogGenerationRequest.target_language request.
Proof.
  intros Hfst.
  destruct (route_answer request env response Hfst)
    as (generation & selection & reply & H0 & H1 & H2 & Hbt & Ht & Hwc
        & Hlang & _).
  exists generation, selection, reply.
  rewrite Hbt. repeat (split; [assumption |]). split; [reflexivity |].
  split; [exact Ht |]. split; assumption.
Qed.

Lemma response_titles_witness :
  fst (run (Routes.generate_blog (remote_work (Some (u "Spanish")))
              Workflow.create_workflow)
           (mock replies_spanish))
  = inr (inr spanish_response)
  /\ BlogGenerationResponse.title spanish_response = fourth_title.
Proof.
  assert (Hrun :
    fst (run (Routes.generate_blog (remote_work (Some (u "Spanish")))
                Workflow.create_workflow)
             (mock replies_spanish))
    = inr (inr spanish_response)) by (vm_compute; reflexivity).
  split; [exact Hrun |].
  destruct (response_titles _ _ _ Hrun)
    as (generation & selection & reply & H0 & H1 & _ & _ & Ht & _).
  rewrite Ht. vm_compute in H1. inversion H1; subst selection.
  vm_compute. reflexivity.
Defined.

(** A request that the branch decision sends to "end" (no target language,
    or a blank one): three model calls, the content is the third reply
    trimmed, and [was_translated] is false. *)
Theorem response_without_translation (request : BlogGenerationRequest.t)
  (env : Env) (response : BlogGenerationResponse.t) :
  fst (run (Routes.generate_blog request Workflow.create_workflow) env)
  = inr (inr response) ->
  Router.should_translate (Routes.initial_state request) = u "end" ->
  exists reply,
    llm_reply env 2 = inr reply
    /\ BlogGenerationResponse.content response = strip reply
    /\ BlogGenerationResponse.was_translated response = false
    /\ List.length
         (calls (snd (run (Routes.generate_blog request
                             Workflow.create_workflow) env)))
       = 3.
Proof.
  intros Hfst Hend.
  destruct (route_answer request env response Hfst)
    as (generation & selection & reply & _ & _ & H2 & _ & _ & _ & _ & H).
  exists reply. split; [assumption |].
  rewrite calls_exchanges, length_map.
  destruct H as [(_ & Hlen & Hc & Hw) | (Htr & _)]; [auto |].
  rewrite Hend in Htr. symmetry in Htr.
  now apply StepFacts.translate_is_not_end in Htr.
Qed.

Lemma response_without_translation_witness :
  fst (run (Routes.generate_blog (remote_work (Some (u "  ")))
              Workflow.create_workflow)
           (mock replies_spanish))
  = inr (inr (response_of (remote_work (Some (u "  "))) replies_spanish
                no_response))
  /\ Router.should_translate
       (Routes.initial_state (remote_work (Some (u "  "))))
     = u "end"
  /\ exists reply,
       llm_reply (mock replies_spanish) 2 = inr reply
       /\ BlogGenerationResponse.content
            (response_of (remote_work (Some (u "  "))) replies_spanish
               no_response)
          = strip reply
       /\ BlogGenerationResponse.was_translated
            (response_of (remote_work (Some (u "  "))) replies_spanish
               no_response)
          = false
       /\ List.length
            (calls (snd (run (Routes.generate_blog
                                (remote_work (Some (u "  ")))
                                Workflow.create_workflow)
                             (mock replies_spanish))))
          = 3.
Proof.
  assert (Hrun :
    fst (run (Routes.generate_blog (remote_work (Some (u "  ")))
                Workflow.create_workflow)
             (mock replies_spanish))
    = inr (inr (response_of (remote_work (Some (u "  "))) replies_spanish
                  no_response))) by (vm_compute; reflexivity).
  assert (Hend :
    Router.should_translate
      (Routes.initial_state (remote_work (Some (u "  "))))
    = u "end") by reflexivity.
  split; [exact Hrun |]. split; [exact Hend |].
  exact (response_without_translation _ _ _ Hrun Hend).
Defined.

(** A request that the branch decision sends to "translate": four model
    calls, the content is the fourth reply trimmed and not the third, and
    [was_translated] tells whether that translation is non-empty. *)
Theorem response_with_translation (request : BlogGenerationRequest.t)
  (env : Env) (response : BlogGenerationResponse.t) :
  fst (run (Routes.generate_blog request Workflow.create_workflow) env)
  = inr (inr response) ->
  Router.should_translate (Routes.initial_state request) = u "translate" ->
  exists translation,
    llm_reply env 3 = inr translation
    /\ BlogGenerationResponse.content response = strip translation
    /\ BlogGenerationResponse.was_translated response
       = truthy (strip translation)
    /\ List.length
         (calls (snd (run (Routes.generate_blog request
                             Workflow.create_workflow) env)))
       = 4.
Proof.
  intros Hfst Htr.
  destruct (route_answer request env response Hfst)
    as (generation & selection & reply & _ & _ & _ & _ & _ & _ & _ & H).
  rewrite calls_exchanges, length_map.
  destruct H as [(Hend & _) | (_ & Hlen & translation & H3 & Hc & Hw)].
  - rewrite Htr in Hend. now apply StepFacts.translate_is_not_end in Hend.
  - exists translation. auto.
Qed.

Lemma response_with_translation_witness :
  fst (run (Routes.generate_blog (remote_work (Some (u "Spanish")))
              Workflow.create_workflow)
           (mock replies_spanish))
  = inr (inr spanish_response)
  /\ Router.should_translate
       (Routes.initial_state (remote_work (Some (u "Spanish"))))
     = u "translate"
  /\ exists translation,
       llm_reply (mock replies_spanish) 3 = inr translation
       /\ BlogGenerationResponse.content spanish_response = strip translation
       /\ BlogGenerationResponse.was_translated spanish_response
          = truthy (strip translation)
       /\ List.length
            (calls (snd (run (Routes.generate_blog
                                (remote_work (Some (u "Spanish")))
                                Workflow.create_workflow)
                             (mock replies_spanish))))
          = 4.
Proof.
  assert (Hrun :
    fst (run (Routes.generate_blog (remote_work (Some (u "Spanish")))
                Workflow.create_workflow)
             (mock replies_spanish))
    = inr (inr spanish_response)) by (vm_compute; reflexivity).
  assert (Htr :
    Router.should_translate
      (Routes.initial_state (remote_work (Some (u "Spanish"))))
    = u "translate") by reflexivity.
  split; [exact Hrun |]. split; [exact Htr |].
  exact (response_with_translation _ _ _ Hrun Htr).
Defined.

(** ** A failed call and the route *)

(** With the compiled graph, a model call that raises is the last call of
    the request.  When its exception [e] is an [Exception] (and not a
    [StopIteration]), the route raises [HTTPException] with status 500,
    error "generation_failed" and message "Failed to generate blog: {e}";
    when it is not an [Exception], it leaves the route as it is. *)
Theorem failed_call_gives_http_500 (request : BlogGenerationRequest.t)
  (env : Env) (i : nat) (e : exn) :
  nth_error
    (map snd
       (exchanges (snd (run (Routes.generate_blog request
                               Workflow.create_workflow) env)))) i
  = Some (inl e) ->
  List.length
    (exchanges (snd (run (Routes.generate_blog request
                            Workflow.create_workflow) env)))
  = S i
  /\ (is_exception e = true -> e <> StopIteration ->
      exists h,
        fst (run (Routes.generate_blog request Workflow.create_workflow) env)
        = inr (inl h)
        /\ HTTPException.status_code h = 500%Z
        /\ HTTPException.error h = u "generation_failed"
        /\ HTTPException.message h
           = u "Failed to generate blog: " ++ exn_str e)
  /\ (is_exception e = false ->
      fst (run (Routes.generate_blog request Workflow.create_workflow) env)
      = inl e).
Proof.
  intros Hi.
  pose proof (run_pair (Routes.generate_blog request Workflow.create_workflow)
                env) as Hrun.
  pose proof (satisfies_exec _ _ _ (generate_blog_satisfies request)
                _ _ _ _ _ Hrun) as H.
  destruct (fst (run (Routes.generate_blog request Workflow.create_workflow)
                     env)) as [e' | [h | response]].
  - destruct H as (Hfail & He').
    destruct (model_failure_nth _ _ _ _ Hfail Hi) as (Hlen & Heq).
    subst e'. split; [exact Hlen |]. split; [congruence | reflexivity].
  - cbn beta iota in H. destruct H as (e' & Hfail & He' & ->).
    destruct (model_failure_nth _ _ _ _ Hfail Hi) as (Hlen & Heq).
    subst e'. split; [exact Hlen |]. split; [| congruence].
    intros _ _. exists (generation_failed e). repeat split; reflexivity.
  - exfalso. cbn beta iota in H.
    destruct H as (log & final & Hwf & _).
    destruct Hwf as (topic & generation & selection & reply & _ & _ & _ & _
                     & _ & _ & H).
    destruct H as [(_ & _ & Hcs & _) | (_ & _ & translation & Hcs & _)].
    + apply (answered_replies _ [generation; selection; reply]) in Hcs.
      now apply (answered_nth _ i e) in Hcs.
    + apply (answered_replies _ [generation; selection; reply; translation])
        in Hcs.
      now apply (answered_nth _ i e) in Hcs.
Qed.

Lemma failed_call_gives_http_500_witness :
  nth_error
    (map snd
       (exchanges
          (snd (run (Routes.generate_blog (remote_work None)
                       Workflow.create_workflow)
                    (failing_after [five_titles; fourth_title] rate_limit)))))
    2
  = Some (inl rate_limit)
  /\ fst (run (Routes.generate_blog (remote_work None)
                 Workflow.create_workflow)
              (failing_after [five_titles; fourth_title] rate_limit))
     = inr (inl {| HTTPException.status_code := 500;
                   HTTPException.error := u "generation_failed";
                   HTTPException.message :=
                     u "Failed to generate blog: Rate limit reached" |}).
Proof.
  assert (Hi :
    nth_error
      (map snd
         (exchanges
            (snd (run (Routes.generate_blog (remote_work None)
                         Workflow.create_workflow)
                      (failing_after [five_titles; fourth_title]
                         rate_limit))))) 2
    = Some (inl rate_limit))
    by (vm_compute; reflexivity).
  split; [exact Hi |].
  destruct (failed_call_gives_http_500 _ _ _ _ Hi) as (_ & H & _).
  destruct H as (h & Hrun & Hstatus & Herror & Hmessage);
    [reflexivity | discriminate |].
  rewrite Hrun. destruct h as [status error message].
  cbn in Hstatus, Herror, Hmessage. now subst.
Defined.

(** ** Runs that complete *)

(** With a model that answers every call, every request gets a response:
    the graph ends within its recursion limit, no key is missing when a
    step reads it, and the first candidate always exists. *)
Theorem answered_model_answered_request (request : BlogGenerationRequest.t)
  (env : Env) :
  answers env ->
  exists response,
    fst (run (Routes.generate_blog request Workflow.create_workflow) env)
    = inr (inr response).
Proof.
  intros Henv.
  destruct (Totality.generate_blog_answers request env Henv)
    as (response & tr & Hrun).
  exists response. now rewrite Hrun.
Qed.

Lemma answered_model_answered_request_witness :
  answers (constant_model (u "ok"))
  /\ exists response,
       fst (run (Routes.generate_blog (remote_work (Some (u "French")))
                   Workflow.create_workflow)
                (constant_model (u "ok")))
       = inr (inr response).
Proof.
  assert (Henv : answers (constant_model (u "ok")))
    by (intros n; exists (u "ok"); reflexivity).
  split; [exact Henv |].
  exact (answered_model_answered_request _ _ Henv).
Defined.

(** The workflow needs the [topic] key and no other.  Whenever the model
    answers its calls (so that the client, which each step builds first,
    could be built): started on any dictionary that holds a topic (as
    [{"topic": "AI"}]), the workflow runs to its end; started on one
    without, it raises [KeyError('topic')] before any model call. *)
Theorem workflow_needs_only_topic (initial : BlogState) (env : Env) :
  answers env ->
  (State.topic initial <> None ->
   exists log final,
     fst (run (LangGraph.stream Workflow.create_workflow initial) env)
     = inr (log, final))
  /\ (State.topic initial = None ->
      run (LangGraph.stream Workflow.create_workflow initial) env
      = (inl (KeyError (u "topic")), [])).
Proof.
  intros Henv. split.
  - intros Htopic.
    destruct (State.topic initial) as [topic |] eqn:E; [| congruence].
    assert (H : delivers (LangGraph.stream Workflow.create_workflow initial)
                  (run_outcome initial)).
    { eapply delivers_prog_eq; [apply stream_spec_run |].
      now apply (Totality.spec_run_delivers initial topic). }
    destruct (delivers_exec _ _ env Henv H 0 0) as ([log final] & tr & Hrun & _).
    exists log, final. unfold run. now rewrite Hrun.
  - intros Hno. unfold run.
    rewrite (prog_eq_exec _ _ (stream_spec_run initial)).
    unfold spec_run, TitleAgent.title_agent. rewrite Hno. reflexivity.
Qed.

Lemma workflow_needs_only_topic_witness :
  answers (constant_model (u "ok"))
  /\ State.topic (with_topic (u "AI") State.empty) <> None
  /\ exists log final,
       fst (run (LangGraph.stream Workflow.create_workflow
                   (with_topic (u "AI") State.empty))
                (constant_model (u "ok")))
       = inr (log, final).
Proof.
  assert (Henv : answers (constant_model (u "ok")))
    by (intros n; exists (u "ok"); reflexivity).
  assert (Htopic : State.topic (with_topic (u "AI") State.empty) <> None)
    by discriminate.
  split; [exact Henv |]. split; [exact Htopic |].
  destruct (workflow_needs_only_topic (with_topic (u "AI") State.empty)
              (constant_model (u "ok")) Henv) as [H _].
  exact (H Htopic).
Defined.

(** ** The steps never read the clock *)

Lemma clockless_bind {A B} (p : Prog A) (f : A -> Prog B) :
  clockless p -> (forall a, clockless (f a)) -> clockless (bind p f).
Proof. induction p; cbn [clockless bind]; auto. Qed.

Lemma clockless_prog_eq {A} (p q : Prog A) :
  prog_eq p q -> clockless q -> clockless p.
Proof. induction 1; cbn [clockless]; auto. Qed.

Lemma clockless_reads {A} (p : Prog A) :
  clockless p ->
  forall env n m res tr, exec p env n m = (res, tr) -> reads tr = 0.
Proof.
  induction p as [a | e | llm msgs k IH | k IH | line k IH];
    cbn [clockless exec]; intros Hp env n m res tr Hrun.
  - now inversion Hrun.
  - now inversion Hrun.
  - destruct (exec (k (llm_reply env n)) env (S n) m) as [res' tr'] eqn:Hk.
    inversion Hrun; subst. cbn [reads]. eapply IH; eauto.
  - contradiction.
  - destruct (exec k env n m) as [res' tr'] eqn:Hk.
    inversion Hrun; subst. cbn [reads]. eapply IH; eauto.
Qed.

Lemma clockless_getitem {A} (key : str) (v : option A) :
  clockless (getitem key v).
Proof. now destruct v. Qed.

Lemma clockless_invoke (llm : ChatModel) (msgs : list Message) :
  clockless (invoke llm msgs).
Proof. now intros [e | text]. Qed.

Lemma title_agent_clockless (state : BlogState) :
  clockless (TitleAgent.title_agent state).
Proof.
  unfold TitleAgent.title_agent. cbv zeta.
  apply clockless_bind; [apply clockless_getitem | intros topic].
  apply clockless_bind; [apply clockless_invoke | intros generation].
  apply clockless_bind; [apply clockless_invoke | intros selection].
  apply clockless_bind; [| intros title; exact I].
  destruct (negb _); [| exact I].
  unfold TitleAgent.first_item. now destruct (if negb _ then _ else _).
Qed.

Lemma content_agent_clockless (state : BlogState) :
  clockless (ContentAgent.content_agent state).
Proof.
  unfold ContentAgent.content_agent. cbv zeta.
  apply clockless_bind; [apply clockless_getitem | intros topic].
  apply clockless_bind; [apply clockless_getitem | intros title].
  apply clockless_bind; [apply clockless_invoke | intros reply; exact I].
Qed.

Lemma translation_agent_clockless (state : BlogState) :
  clockless (TranslationAgent.translation_agent state).
Proof.
  unfold TranslationAgent.translation_agent. cbv zeta.
  apply clockless_bind; [apply clockless_getitem | intros content].
  destruct (negb _); [exact I |].
  apply clockless_bind; [apply clockless_invoke | intros reply; exact I].
Qed.

Lemma invoke_clockless (initial : BlogState) :
  clockless (LangGraph.invoke Workflow.create_workflow initial).
Proof.
  unfold LangGraph.invoke.
  apply clockless_bind; [| intros r; exact I].
  eapply clockless_prog_eq; [apply stream_spec_run |].
  unfold spec_run.
  apply clockless_bind; [apply title_agent_clockless | intros p1].
  apply clockless_bind; [apply content_agent_clockless | intros p2].
  cbv zeta. destruct (str_eqb _ _); [| exact I].
  apply clockless_bind; [apply translation_agent_clockless | intros p3].
  exact I.
Qed.

(** ** The convenience function and the route *)

(** [run_workflow] and the route run the same generation: when
    [run_workflow] returns a final state, the route, given the same inputs
    and the same replies, returns the response read off that state; and
    the [generation_time] of the state is the difference of the two clock
    readings. *)
Theorem run_workflow_agrees (topic : str) (transcript target_language : option str)
  (style : str) (env : Env) (final : BlogState) :
  fst (run (Workflow.run_workflow topic transcript target_language style) env)
  = inr final ->
  let request :=
    {| BlogGenerationRequest.topic := topic;
       BlogGenerationRequest.transcript := transcript;
       BlogGenerationRequest.target_language := target_language;
       BlogGenerationRequest.style := style |} in
  generation_time final = Some (clock env 1 - clock env 0)%Q
  /\ exists response,
       fst (run (Routes.generate_blog request Workflow.create_workflow) env)
       = inr (inr response)
       /\ response_of_state request final response.
Proof.
  intros Hfst request.
  unfold run, Workflow.run_workflow, time in Hfst.
  cbn [bind exec] in Hfst. rewrite exec_bind in Hfst.
  change (mkBlogState (Some topic) (Some transcript) (Some target_language)
            (Some style) (Some []) (Some []) (Some []) (Some None) (Some [])
            (Some 0%Z) (Some 0%Q))
    with (Routes.initial_state request) in Hfst.
  destruct (exec (LangGraph.invoke Workflow.create_workflow
                    (Routes.initial_state request)) env 0 1)
    as [[e | final0] tr0] eqn:Hinv; [discriminate Hfst |].
  pose proof (clockless_reads _ (invoke_clockless _) _ _ _ _ _ Hinv) as Hreads.
  rewrite Hreads in Hfst.
  cbn [exec fst] in Hfst. inversion Hfst; subst final. clear Hfst.
  split; [reflexivity |].
  pose proof (satisfies_exec _ _ _ (invoke_satisfies _) _ _ _ _ _ Hinv) as Hwf.
  cbn beta iota in Hwf. destruct Hwf as (log & Hwf).
  unfold run, Routes.generate_blog.
  rewrite exec_try_except, exec_bind.
  unfold Routes.generate, time. cbn [bind exec].
  rewrite exec_bind, Hinv. cbn [exec].
  match goal with
  | |- context [exec (Routes.build_response ?r ?f ?t) ?e ?n ?m] =>
      pose proof (satisfies_exec _ _ _
                    (build_response_satisfies r f t _ _ Hwf) e n m) as Hb;
      destruct (exec (Routes.build_response r f t) e n m)
        as [[e' | response] tr1]
  end.
  - destruct (Hb _ _ eq_refl).
  - destruct (Hb _ _ eq_refl) as (_ & Hresp).
    exists response. split; [reflexivity |]. exact Hresp.
Qed.

Lemma run_workflow_agrees_witness :
  fst (run (Workflow.run_workflow (u "Remote Work") None (Some (u "Spanish"))
              (u "professional"))
           (mock replies_spanish))
  = inr (mkBlogState
           (State.topic spanish_final) (State.transcript spanish_final)
           (State.target_language spanish_final) (State.style spanish_final)
           (brainstormed_titles spanish_final) (selected_title spanish_final)
           (blog_content spanish_final) (translated_content spanish_final)
           (final_content spanish_final) (State.word_count spanish_final)
           (Some (clock (mock replies_spanish) 1
                  - clock (mock replies_spanish) 0)%Q))
  /\ exists response,
       fst (run (Routes.generate_blog (remote_work (Some (u "Spanish")))
                   Workflow.create_workflow)
                (mock replies_spanish))
       = inr (inr response).
Proof.
  assert (Hrun :
    fst (run (Workflow.run_workflow (u "Remote Work") None
                (Some (u "Spanish")) (u "professional"))
             (mock replies_spanish))
    = inr (mkBlogState
             (State.topic spanish_final) (State.transcript spanish_final)
             (State.target_language spanish_final) (State.style spanish_final)
             (brainstormed_titles spanish_final) (selected_title spanish_final)
             (blog_content spanish_final) (translated_content spanish_final)
             (final_content spanish_final) (State.word_count spanish_final)
             (Some (clock (mock replies_spanish) 1
                    - clock (mock replies_spanish) 0)%Q)))
    by (vm_compute; reflexivity).
  split; [exact Hrun |].
  destruct (run_workflow_agrees _ _ _ _ _ _ Hrun)
    as (_ & response & Hresp & _).
  exists response. exact Hresp.
Defined.

(** ** Transcripts *)

(** The title step reads the first 2000 characters of the transcript and
    nothing beyond: on two states that agree on [topic] and [style] and on
    the first 2000 characters of their transcripts, it is the same
    program: same instructions to the model, same results. *)
Theorem title_agent_reads_2000 (s1 s2 : BlogState) (t1 t2 : str) :
  State.topic s1 = State.topic s2 ->
  style s1 = style s2 ->
  transcript s1 = Some (Some t1) ->
  transcript s2 = Some (Some t2) ->
  firstn 2000 t1 = firstn 2000 t2 ->
  TitleAgent.title_agent s1 = TitleAgent.title_agent s2.
Proof.
  intros Htopic Hstyle H1 H2 Hfirst.
  unfold TitleAgent.title_agent, slice_to.
  rewrite Htopic, Hstyle, H1, H2. cbn [get].
  rewrite Hfirst.
  assert (Htruthy : truthy t1 = truthy t2)
    by (destruct t1, t2; cbn in Hfirst; try reflexivity; discriminate).
  now rewrite Htruthy.
Qed.

Lemma title_agent_reads_2000_witness :
  firstn 2000 (long_transcript 98%N) = firstn 2000 (long_transcript 99%N)
  /\ long_transcript 98%N <> long_transcript 99%N
  /\ TitleAgent.title_agent
       (with_transcript (Some (long_transcript 98%N)) default_state)
     = TitleAgent.title_agent
         (with_transcript (Some (long_transcript 99%N)) default_state).
Proof.
  assert (Hfirst : firstn 2000 (long_transcript 98%N)
                   = firstn 2000 (long_transcript 99%N))
    by (vm_compute; reflexivity).
  split; [exact Hfirst |]. split.
  - intros H. apply (f_equal (fun s => last s 0%N)) in H.
    vm_compute in H. discriminate H.
  - exact (title_agent_reads_2000
             (with_transcript (Some (long_transcript 98%N)) default_state)
             (with_transcript (Some (long_transcript 99%N)) default_state)
             _ _ eq_refl eq_refl eq_refl eq_refl Hfirst).
Defined.

(** The content step reads the first 5000 characters of the transcript,
    and whether the transcript is blank: on two states that agree on
    [topic], [selected_title] and [style], on the first 5000 characters of
    their transcripts and on their being blank or not, it is the same
    program. *)
Theorem content_agent_reads_5000 (s1 s2 : BlogState) (t1 t2 : str) :
  State.topic s1 = State.topic s2 ->
  selected_title s1 = selected_title s2 ->
  style s1 = style s2 ->
  transcript s1 = Some (Some t1) ->
  transcript s2 = Some (Some t2) ->
  firstn 5000 t1 = firstn 5000 t2 ->
  truthy (strip t1) = truthy (strip t2) ->
  ContentAgent.content_agent s1 = ContentAgent.content_agent s2.
Proof.
  intros Htopic Htitle Hstyle H1 H2 Hfirst Hblank.
  unfold ContentAgent.content_agent, slice_to.
  rewrite Htopic, Htitle, Hstyle, H1, H2. cbn [get].
  rewrite Hfirst, Hblank.
  assert (Htruthy : truthy t1 = truthy t2)
    by (destruct t1, t2; cbn in Hfirst; try reflexivity; discriminate).
  now rewrite Htruthy.
Qed.

Lemma content_agent_reads_5000_witness :
  firstn 5000 (long_transcript 98%N) = firstn 5000 (long_transcript 99%N)
  /\ truthy (strip (long_transcript 98%N))
     = truthy (strip (long_transcript 99%N))
  /\ ContentAgent.content_agent
       (with_transcript (Some (long_transcript 98%N)) default_state)
     = ContentAgent.content_agent
         (with_transcript (Some (long_transcript 99%N)) default_state).
Proof.
  assert (Hfirst : firstn 5000 (long_transcript 98%N)
                   = firstn 5000 (long_transcript 99%N))
    by (vm_compute; reflexivity).
  assert (Hblank : truthy (strip (long_transcript 98%N))
                   = truthy (strip (long_transcript 99%N)))
    by (vm_compute; reflexivity).
  split; [exact Hfirst |]. split; [exact Hblank |].
  exact (content_agent_reads_5000
           (with_transcript (Some (long_transcript 98%N)) default_state)
           (with_transcript (Some (long_transcript 99%N)) default_state)
           _ _ eq_refl eq_refl eq_refl eq_refl eq_refl Hfirst Hblank).
Defined.

(* ===================================================================== *)
(** * More about Python strings *)
(* ===================================================================== *)

Module StringFacts.

Import PyFacts.

Lemma lstrip_head (s : str) (c : char) (r : str) :
  lstrip s = c :: r -> isspace c = false.
Proof.
  induction s as [| a s IH]; cbn [lstrip]; [discriminate |].
  destruct (isspace a) eqn:Ea; [assumption |].
  intros H. inversion H; subst. assumption.
Qed.

Lemma lstrip_nonspace (c : char) (r : str) :
  isspace c = false -> lstrip (c :: r) = c :: r.
Proof. intros H. cbn [lstrip]. now rewrite H. Qed.

Lemma lstrip_lstrip (s : str) : lstrip (lstrip s) = lstrip s.
Proof.
  destruct (lstrip s) as [| c r] eqn:E; [reflexivity |].
  apply lstrip_nonspace. now apply (lstrip_head s c r).
Qed.

Lemma lstrip_length (s : str) : List.length (lstrip s) <= List.length s.
Proof.
  induction s as [| a s IH]; cbn [lstrip]; [reflexivity |].
  destruct (isspace a); cbn [List.length]; lia.
Qed.

(** A string that [lstrip] leaves alone is empty or begins with a
    character that is not whitespace. *)
Lemma lstrip_fixed_head (c : char) (r : str) :
  lstrip (c :: r) = c :: r -> isspace c = false.
Proof. apply lstrip_head. Qed.

Lemma lstrip_app (a b : str) :
  a <> [] -> lstrip a = a -> lstrip (a ++ b) = a ++ b.
Proof.
  destruct a as [| c r]; [congruence |]. intros _ H.
  apply lstrip_fixed_head in H. cbn [app]. now apply lstrip_nonspace.
Qed.

Lemma lstrip_snoc (l : str) (c : char) :
  isspace c = false -> lstrip (l ++ [c]) = lstrip l ++ [c].
Proof.
  intros Hc. induction l as [| a l IH]; cbn [app lstrip].
  - now rewrite Hc.
  - now destruct (isspace a).
Qed.

Lemma rstrip_cons (c : char) (s : str) :
  isspace c = false -> rstrip (c :: s) = c :: rstrip s.
Proof.
  intros Hc. unfold rstrip. cbn [rev].
  rewrite (lstrip_snoc _ _ Hc), rev_app_distr. reflexivity.
Qed.

Lemma rstrip_rstrip (s : str) : rstrip (rstrip s) = rstrip s.
Proof. unfold rstrip. now rewrite rev_involutive, lstrip_lstrip. Qed.

(** A trimmed string is empty or begins with a character that is not
    whitespace. *)
Lemma strip_head (s : str) (c : char) (r : str) :
  strip s = c :: r -> isspace c = false.
Proof.
  unfold strip. destruct (lstrip s) as [| a l] eqn:E.
  - discriminate.
  - pose proof (lstrip_head s a l E) as Ha.
    rewrite (rstrip_cons _ _ Ha). intros H. inversion H; subst. assumption.
Qed.

Lemma lstrip_strip (s : str) : lstrip (strip s) = strip s.
Proof.
  destruct (strip s) as [| c r] eqn:E; [reflexivity |].
  apply lstrip_nonspace. now apply (strip_head s c r).
Qed.

(** Trimming twice is trimming once. *)
Lemma strip_strip (s : str) : strip (strip s) = strip s.
Proof.
  unfold strip at 1. rewrite lstrip_strip.
  unfold strip. apply rstrip_rstrip.
Qed.

Lemma rstrip_fixed (s : str) : strip s = s -> rstrip s = s.
Proof.
  intros H. rewrite <- H at 1. unfold strip.
  rewrite rstrip_rstrip. exact H.
Qed.

Lemma lstrip_fixed (s : str) : strip s = s -> lstrip s = s.
Proof. intros H. rewrite <- H at 1. rewrite lstrip_strip. exact H. Qed.

Lemma strip_of_fixed (s : str) : lstrip s = s -> rstrip s = s -> strip s = s.
Proof. unfold strip. now intros -> ->. Qed.

Lemma rstrip_app (a b : str) :
  b <> [] -> rstrip b = b -> rstrip (a ++ b) = a ++ b.
Proof.
  intros Hne H. unfold rstrip in *.
  assert (Hrev : lstrip (rev b) = rev b).
  { apply (f_equal (@rev char)) in H. now rewrite rev_involutive in H. }
  rewrite rev_app_distr, lstrip_app, <- rev_app_distr, rev_involutive;
    [reflexivity | | assumption].
  intros Hnil. apply Hne.
  apply (f_equal (@rev char)) in Hnil. now rewrite rev_involutive in Hnil.
Qed.

(** Gluing a text that begins trimmed to one that ends trimmed. *)
Lemma strip_app (a b : str) :
  a <> [] -> lstrip a = a -> b <> [] -> rstrip b = b ->
  strip (a ++ b) = a ++ b.
Proof.
  intros Ha Hla Hb Hrb. unfold strip.
  rewrite (lstrip_app a b Ha Hla). now apply rstrip_app.
Qed.

Lemma In_lstrip (c : char) (s : str) : In c (lstrip s) -> In c s.
Proof.
  induction s as [| a s IH]; cbn [lstrip]; [auto |].
  destruct (isspace a); [right; auto | auto].
Qed.

Lemma In_rstrip (c : char) (s : str) : In c (rstrip s) -> In c s.
Proof.
  unfold rstrip. intros H. apply in_rev in H. apply In_lstrip in H.
  now apply in_rev.
Qed.

Lemma In_strip (c : char) (s : str) : In c (strip s) -> In c s.
Proof. unfold strip. intros H. now apply In_lstrip, In_rstrip. Qed.

(** Where a character first occurs. *)
Lemma first_occurrence (sep : char) (s : str) :
  In sep s ->
  exists before after, s = before ++ sep :: after /\ ~ In sep before.
Proof.
  induction s as [| c s IH]; [intros [] |].
  destruct (N.eq_dec c sep) as [-> | Hne].
  - intros _. exists [], s. split; [reflexivity | intros []].
  - intros [Heq | Hin]; [contradiction |].
    destruct (IH Hin) as (before & after & -> & Hno).
    exists (c :: before), after. split; [reflexivity |].
    intros [Heq | Hin']; [contradiction | contradiction].
Qed.

Lemma In_splitn_last (sep c : char) (s : str) :
  In c (last_item (splitn sep s 1)) -> In c s.
Proof.
  destruct (in_dec N.eq_dec sep s) as [Hin | Hno].
  - destruct (first_occurrence sep s Hin) as (before & after & -> & Hb).
    rewrite (splitn1_present _ _ _ Hb). cbn [last_item last].
    intros H. apply in_or_app. right. now right.
  - rewrite (splitn1_absent _ _ Hno). cbn [last_item last]. auto.
Qed.

Lemma split_nonempty (sep : char) (s : str) : split sep s <> [].
Proof.
  destruct s as [| c s]; cbn [split]; [discriminate |].
  destruct (c =? sep)%N; [discriminate |].
  destruct (split sep s); discriminate.
Qed.

Lemma split_absent (sep : char) (s : str) :
  ~ In sep s -> split sep s = [s].
Proof.
  induction s as [| c s IH]; intros Hno; [reflexivity |].
  cbn [split]. destruct (N.eqb_spec c sep) as [-> | Hne].
  - exfalso. apply Hno. now left.
  - rewrite IH; [reflexivity |]. intros H. apply Hno. now right.
Qed.

Lemma split_app_sep (sep : char) (a b : str) :
  ~ In sep a -> split sep (a ++ sep :: b) = a :: split sep b.
Proof.
  induction a as [| c a IH]; intros Hno.
  - cbn [app split]. now rewrite N.eqb_refl.
  - cbn [app split]. destruct (N.eqb_spec c sep) as [-> | Hne].
    + exfalso. apply Hno. now left.
    + rewrite IH; [reflexivity |]. intros H. apply Hno. now right.
Qed.

(** The pieces of [s.split(sep)] are free of [sep] and made of characters
    of [s]. *)
Lemma split_pieces (sep : char) (s piece : str) :
  In piece (split sep s) ->
  ~ In sep piece /\ forall c, In c piece -> In c s.
Proof.
  revert piece. induction s as [| c s IH]; intros piece.
  - cbn [split]. intros [<- | []]. split; [intros [] | auto].
  - cbn [split]. destruct (N.eqb_spec c sep) as [-> | Hne].
    + intros [<- | Hin]; [split; [intros [] | intros c []] |].
      destruct (IH _ Hin) as (Hno & Hsub).
      split; [assumption | intros c Hc; right; auto].
    + destruct (split sep s) as [| h t] eqn:E;
        [now apply split_nonempty in E |].
      intros [<- | Hin].
      * destruct (IH h (or_introl eq_refl)) as (Hno & Hsub).
        split.
        -- intros [Heq | Hh]; [congruence | contradiction].
        -- intros c' [<- | Hc]; [now left | right; auto].
      * destruct (IH piece (or_intror Hin)) as (Hno & Hsub).
        split; [assumption | intros c' Hc; right; auto].
Qed.

(** Splitting what [join] glued with the separator gives the pieces back,
    when no piece holds the separator. *)
Lemma split_join (sep : char) (pieces : list str) :
  pieces <> [] ->
  Forall (fun piece => ~ In sep piece) pieces ->
  split sep (join [sep] pieces) = pieces.
Proof.
  induction pieces as [| x rest IH]; [congruence |].
  intros _ Hall. inversion Hall as [| ? ? Hx Hrest]; subst.
  destruct rest as [| y rest'].
  - cbn [join]. now apply split_absent.
  - change (join [sep] (x :: y :: rest'))
      with (x ++ sep :: join [sep] (y :: rest')).
    rewrite (split_app_sep _ _ _ Hx), IH; [reflexivity | discriminate |].
    assumption.
Qed.

(** A token begins at a character that is not whitespace. *)
Lemma count_tokens_head (c : char) (r : str) :
  isspace c = false -> 1 <= Spec.count_tokens (c :: r).
Proof.
  intros H. unfold Spec.count_tokens. cbn [Spec.count_tokens_from].
  rewrite H. lia.
Qed.

(** A trimmed text has no token exactly when it is empty. *)
Lemma count_tokens_strip_zero (s : str) :
  Spec.count_tokens (strip s) = 0 <-> strip s = [].
Proof.
  split.
  - destruct (strip s) as [| c r] eqn:E; [reflexivity |].
    intros H. pose proof (count_tokens_head c r (strip_head s c r E)). lia.
  - now intros ->.
Qed.

End StringFacts.

(* ===================================================================== *)
(** * The parser and the numbered list *)
(* ===================================================================== *)

Module ListingFacts.

Import Derived Outcomes PyFacts TitleFacts StringFacts.

Lemma ascii_digit_facts (c : char) :
  ascii_digit c = true ->
  isdigit c = true /\ isspace c = false
  /\ c <> newline /\ c <> dot /\ c <> rparen.
Proof.
  unfold ascii_digit. intros H. apply andb_true_iff in H.
  destruct H as [Hlo Hhi]. apply N.leb_le in Hlo, Hhi.
  assert (Hc : In c [48; 49; 50; 51; 52; 53; 54; 55; 56; 57]%N).
  { assert (Hn : (N.to_nat c - 48 < 10)%nat) by lia.
    replace c with (48 + N.of_nat (N.to_nat c - 48))%N by lia.
    destruct (N.to_nat c - 48)%nat as [| [| [| [| [| [| [| [| [| [| k]]]]]]]]]];
      cbn; try tauto. lia. }
  cbn in Hc.
  repeat (destruct Hc as [<- | Hc];
          [vm_compute; repeat split; discriminate |]).
  contradiction.
Qed.

Lemma uint_digits (d : Decimal.uint) :
  forallb ascii_digit (u (NilEmpty.string_of_uint d)) = true.
Proof. induction d; cbn; auto. Qed.

Lemma to_uint_not_nil (n : nat) : Nat.to_uint n <> Decimal.Nil.
Proof.
  intros H.
  assert (Hn : n = 0%nat).
  { rewrite <- (DecimalNat.Unsigned.of_to n), H. reflexivity. }
  subst n. discriminate H.
Qed.

(** [str(n)] is a non-empty run of the characters "0" to "9". *)
Lemma str_of_nat_digits (n : nat) :
  exists d ds,
    str_of_nat n = d :: ds /\ forallb ascii_digit (d :: ds) = true.
Proof.
  unfold str_of_nat. pose proof (uint_digits (Nat.to_uint n)) as H.
  pose proof (to_uint_not_nil n) as Hne.
  destruct (Nat.to_uint n); try congruence;
    cbn in *; eauto.
Qed.

Lemma ascii_digits_isdigit (ds : str) :
  forallb ascii_digit ds = true -> forallb isdigit ds = true.
Proof.
  rewrite !forallb_forall. intros H c Hc.
  now apply ascii_digit_facts, H.
Qed.

Lemma ascii_digits_no (sep : char) (ds : str) :
  isspace sep = true \/ sep = newline \/ sep = dot \/ sep = rparen ->
  forallb ascii_digit ds = true -> ~ In sep ds.
Proof.
  rewrite forallb_forall. intros Hsep H Hin.
  destruct (ascii_digit_facts _ (H _ Hin)) as (_ & Hs & Hn & Hd & Hp).
  destruct Hsep as [Hsp | [-> | [-> | ->]]]; congruence.
Qed.

(** One line of the numbered list. *)
Lemma numbered_line (i : nat) (title : str) :
  exists d ds,
    TitleAgent.numbered (i, title) = (d :: ds) ++ dot :: 32%N :: title
    /\ forallb ascii_digit (d :: ds) = true.
Proof.
  destruct (str_of_nat_digits (i + 1)) as (d & ds & Hn & Hd).
  exists d, ds. split; [| assumption].
  unfold TitleAgent.numbered. cbn [fst snd]. now rewrite Hn.
Qed.

Lemma strip_space_title (title : str) :
  strip title = title -> strip (32%N :: title) = title.
Proof.
  intros H. unfold strip. cbn [lstrip].
  replace (isspace 32%N) with true by reflexivity.
  exact H.
Qed.

(** A line of the numbered list is trimmed, on one line, and parses back
    to its title. *)
Lemma numbered_line_parses (i : nat) (title : str) (titles : list str) :
  plain_title title ->
  let line := TitleAgent.numbered (i, title) in
  line <> [] /\ strip line = line /\ ~ In newline line
  /\ TitleAgent.parse_line titles line = titles ++ [title].
Proof.
  intros (Hne & Htrim & Hnl & Hdot & Hparen) line.
  destruct (numbered_line i title) as (d & ds & Hline & Hd).
  fold line in Hline.
  destruct (ascii_digit_facts d) as (Hdig & Hsp & _).
  { cbn [forallb] in Hd. now apply andb_true_iff in Hd. }
  assert (Hstrip : strip line = line).
  { rewrite Hline. apply strip_app.
    - discriminate.
    - now apply lstrip_nonspace.
    - discriminate.
    - apply (rstrip_app [dot; 32%N] title Hne). now apply rstrip_fixed. }
  split; [rewrite Hline; discriminate |]. split; [exact Hstrip |]. split.
  - rewrite Hline. intros Hin. apply in_app_or in Hin.
    destruct Hin as [Hin | [Heq | [Heq | Hin]]].
    + revert Hin. apply ascii_digits_no; auto.
    + discriminate Heq.
    + discriminate Heq.
    + contradiction.
  - unfold TitleAgent.parse_line. cbv zeta. rewrite Hstrip, Hline.
    rewrite (extract_title_marker (d :: ds) (32%N :: title) dot).
    + rewrite (strip_space_title _ Htrim). cbn [app truthy andb].
      rewrite Hdig. now destruct title.
    + now apply ascii_digits_isdigit.
    + now left.
    + intros [Heq | Hin]; [discriminate Heq | contradiction].
    + intros [Heq | Hin]; [discriminate Heq | contradiction].
Qed.

Lemma join_nonempty (sep : str) (x : str) (rest : list str) :
  x <> [] -> join sep (x :: rest) <> [].
Proof.
  intros Hx. destruct rest as [| y rest]; cbn [join]; [assumption |].
  destruct x; [congruence | discriminate].
Qed.

(** Lines that are trimmed and not empty join into a trimmed text. *)
Lemma strip_join_lines (lines : list str) :
  Forall (fun line => line <> [] /\ strip line = line) lines ->
  strip (join [newline] lines) = join [newline] lines.
Proof.
  induction lines as [| x rest IH]; [reflexivity |].
  intros Hall. inversion Hall as [| ? ? (Hx & Hsx) Hrest]; subst.
  destruct rest as [| y rest']; [exact Hsx |].
  change (join [newline] (x :: y :: rest'))
    with (x ++ newline :: join [newline] (y :: rest')).
  inversion Hrest as [| ? ? (Hy & _) _]; subst.
  apply strip_app.
  - assumption.
  - now apply lstrip_fixed.
  - discriminate.
  - apply (rstrip_app [newline]).
    + now apply join_nonempty.
    + apply rstrip_fixed. now apply IH.
Qed.

Lemma numbered_lines (titles : list str) (start : nat) :
  Forall plain_title titles ->
  let lines :=
    map TitleAgent.numbered (combine (seq start (List.length titles)) titles) in
  Forall (fun line => line <> [] /\ strip line = line) lines
  /\ Forall (fun line => ~ In newline line) lines
  /\ forall acc, fold_left TitleAgent.parse_line lines acc = acc ++ titles.
Proof.
  revert start. induction titles as [| t ts IH]; intros start Hall lines.
  - repeat split; try constructor. intros acc. cbn. now rewrite app_nil_r.
  - inversion Hall as [| ? ? Ht Hts]; subst.
    destruct (IH (S start) Hts) as (H1 & H2 & H3).
    subst lines. cbn [List.length seq combine map].
    split; [| split].
    + constructor; [| exact H1].
      destruct (numbered_line_parses start t [] Ht) as (Ha & Hb & _). auto.
    + constructor; [| exact H2].
      now destruct (numbered_line_parses start t [] Ht) as (_ & _ & Hc & _).
    + intros acc. cbn [fold_left].
      destruct (numbered_line_parses start t acc Ht) as (_ & _ & _ & Hp).
      cbv zeta in Hp. rewrite Hp, H3, <- app_assoc. reflexivity.
Qed.

End ListingFacts.

Import StringFacts ListingFacts.

(** ** The parser and the list it is fed *)

(** The numbered list the title step builds parses back to the titles it
    was built from, in order, when each title is on one line, trimmed, not
    empty and free of "." and ")"; so a model that returns the candidates
    in that form loses none of them. *)
Theorem numbered_list_round_trip (titles : list str) :
  Forall plain_title titles ->
  TitleAgent.parse_titles (titles_formatted titles) = titles.
Proof.
  intros Hall. unfold TitleAgent.parse_titles, titles_formatted, enumerate.
  cbv zeta.
  destruct (numbered_lines titles 0 Hall) as (Htrim & Hnl & Hfold).
  cbv zeta in Htrim, Hnl, Hfold.
  rewrite (strip_join_lines _ Htrim).
  destruct titles as [| t ts]; [reflexivity |].
  rewrite split_join; [apply (Hfold []) | discriminate | exact Hnl].
Qed.

Lemma numbered_list_round_trip_witness :
  Forall plain_title [u "How to Master Remote Work"; u "7 Secrets: a Guide"]
  /\ TitleAgent.parse_titles
       (titles_formatted
          [u "How to Master Remote Work"; u "7 Secrets: a Guide"])
     = [u "How to Master Remote Work"; u "7 Secrets: a Guide"].
Proof.
  assert (Hall : Forall plain_title
                   [u "How to Master Remote Work"; u "7 Secrets: a Guide"]).
  { repeat constructor; try discriminate;
      vm_compute; intuition discriminate. }
  split; [exact Hall |].
  exact (numbered_list_round_trip _ Hall).
Defined.

(** Every candidate the parser yields is on one line, trimmed and not
    empty, whatever the reply. *)
Theorem parsed_candidates_clean (reply title : str) :
  In title (TitleAgent.parse_titles reply) ->
  title <> [] /\ strip title = title /\ ~ In newline title.
Proof.
  unfold TitleAgent.parse_titles. cbv zeta.
  rewrite fold_parse_line_flat_map. cbn [app].
  intros Hin. apply in_flat_map in Hin.
  destruct Hin as (line & Hline & Htitle).
  destruct (split_pieces _ _ _ Hline) as (Hnl & _).
  unfold TitleAgent.parse_line in Htitle. cbv zeta in Htitle.
  destruct (truthy (strip line) && _); [| destruct Htitle].
  destruct (truthy (TitleAgent.extract_title (strip line))) eqn:E;
    [| destruct Htitle].
  destruct Htitle as [<- | []].
  split; [now apply truthy_nonempty |].
  unfold TitleAgent.extract_title. split; [apply strip_strip |].
  intros H. apply Hnl.
  apply In_strip, In_splitn_last, In_splitn_last in H.
  now apply In_strip in H.
Qed.

Lemma parsed_candidates_clean_witness :
  In (u "Matters") (TitleAgent.parse_titles two_lines)
  /\ u "Matters" <> []
  /\ strip (u "Matters") = u "Matters"
  /\ ~ In newline (u "Matters").
Proof.
  assert (Hin : In (u "Matters") (TitleAgent.parse_titles two_lines))
    by (vm_compute; auto).
  split; [exact Hin |].
  exact (parsed_candidates_clean _ _ Hin).
Defined.

(** ** The content step *)

(** What the content step returns: [blog_content] and [final_content] are
    the same trimmed text, and [word_count] counts its tokens; it is zero
    exactly when that text is empty, that is when the model replied with
    blanks. *)
Theorem content_agent_output (state : BlogState) (env : Env)
  (patch : BlogState) :
  fst (run (ContentAgent.content_agent state) env) = inr patch ->
  exists content,
    blog_content patch = Some content
    /\ final_content patch = Some content
    /\ strip content = content
    /\ State.word_count patch = Some (Z.of_nat (count_tokens content))
    /\ (State.word_count patch = Some 0%Z <-> content = []).
Proof.
  intros Hfst. apply fst_pair in Hfst. destruct Hfst as (tr & Hrun).
  apply (ensures_exec _ _ (content_agent_ensures state)) in Hrun.
  destruct Hrun as (reply & ->).
  exists (strip reply). unfold content_patch. cbn.
  rewrite split_ws_length.
  repeat (split; [first [reflexivity | apply strip_strip] |]).
  rewrite <- count_tokens_strip_zero. split.
  - intros H. inversion H as [H0]. lia.
  - now intros ->.
Qed.

Lemma content_agent_output_witness :
  fst (run (ContentAgent.content_agent
              (set_selected_title fourth_title
                 (with_topic (u "Remote Work") default_state)))
           (mock [u "   "]))
  = inr (content_patch [])
  /\ exists content,
       blog_content (content_patch []) = Some content
       /\ final_content (content_patch []) = Some content
       /\ strip content = content
       /\ State.word_count (content_patch [])
          = Some (Z.of_nat (count_tokens content))
       /\ (State.word_count (content_patch []) = Some 0%Z <-> content = []).
Proof.
  assert (Hrun :
    fst (run (ContentAgent.content_agent
                (set_selected_title fourth_title
                   (with_topic (u "Remote Work") default_state)))
             (mock [u "   "]))
    = inr (content_patch [])) by (vm_compute; reflexivity).
  split; [exact Hrun |].
  exact (content_agent_output _ _ _ Hrun).
Defined.

(** For the content step a transcript that is missing, [None], empty or
    blank is no transcript: on two such states that agree on [topic],
    [selected_title] and [style] it is the same program. *)
Theorem content_agent_no_transcript (s1 s2 : BlogState) :
  State.topic s1 = State.topic s2 ->
  selected_title s1 = selected_title s2 ->
  style s1 = style s2 ->
  no_transcript s1 -> no_transcript s2 ->
  ContentAgent.content_agent s1 = ContentAgent.content_agent s2.
Proof.
  intros Htopic Htitle Hstyle H1 H2.
  unfold ContentAgent.content_agent, no_transcript in *.
  rewrite Htopic, Htitle, Hstyle.
  destruct (get (transcript s1) None) as [t1 |];
    destruct (get (transcript s2) None) as [t2 |];
    rewrite ?H1, ?H2; cbn [truthy]; rewrite ?andb_false_r; reflexivity.
Qed.

Lemma content_agent_no_transcript_witness :
  no_transcript default_state
  /\ no_transcript (with_transcript (Some (u "   ")) default_state)
  /\ ContentAgent.content_agent default_state
     = ContentAgent.content_agent
         (with_transcript (Some (u "   ")) default_state).
Proof.
  assert (H1 : no_transcript default_state) by exact I.
  assert (H2 : no_transcript (with_transcript (Some (u "   ")) default_state))
    by reflexivity.
  split; [exact H1 |]. split; [exact H2 |].
  exact (content_agent_no_transcript default_state
           (with_transcript (Some (u "   ")) default_state)
           eq_refl eq_refl eq_refl H1 H2).
Defined.

(** ** More on the response *)

(** The [content] of a response has no whitespace around it, and its
    [title] is one of its [brainstormed_titles]. *)
Theorem response_trimmed_and_listed (request : BlogGenerationRequest.t)
  (env : Env) (response : BlogGenerationResponse.t) :
  fst (run (Routes.generate_blog request Workflow.create_workflow) env)
  = inr (inr response) ->
  strip (BlogGenerationResponse.content response)
  = BlogGenerationResponse.content response
  /\ In (BlogGenerationResponse.title response)
        (BlogGenerationResponse.brainstormed_titles response).
Proof.
  intros Hfst.
  destruct (route_answer request env response Hfst)
    as (generation & selection & reply & _ & _ & _ & Hbt & Ht & _ & _ & H).
  split.
  - destruct H as [(_ & _ & -> & _) | (_ & _ & translation & _ & -> & _)];
      apply strip_strip.
  - rewrite Hbt, Ht. apply selection_of_In.
    destruct (candidates_cons (BlogGenerationRequest.topic request) generation)
      as (first & rest & ->).
    discriminate.
Qed.

Lemma response_trimmed_and_listed_witness :
  fst (run (Routes.generate_blog (remote_work (Some (u "Spanish")))
              Workflow.create_workflow)
           (mock replies_spanish))
  = inr (inr spanish_response)
  /\ strip (BlogGenerationResponse.content spanish_response)
     = BlogGenerationResponse.content spanish_response
  /\ In (BlogGenerationResponse.title spanish_response)
        (BlogGenerationResponse.brainstormed_titles spanish_response).
Proof.
  assert (Hrun :
    fst (run (Routes.generate_blog (remote_work (Some (u "Spanish")))
                Workflow.create_workflow)
             (mock replies_spanish))
    = inr (inr spanish_response)) by (vm_compute; reflexivity).
  split; [exact Hrun |].
  exact (response_trimmed_and_listed _ _ _ Hrun).
Defined.

(** [was_translated] is never true without a target language: when it is
    true the request names a language that is not blank, four model calls
    were made, and the content returned is not empty. *)
Theorem was_translated_sound (request : BlogGenerationRequest.t)
  (env : Env) (response : BlogGenerationResponse.t) :
  fst (run (Routes.generate_blog request Workflow.create_workflow) env)
  = inr (inr response) ->
  BlogGenerationResponse.was_translated response = true ->
  (exists language,
      BlogGenerationRequest.target_language request = Some language
      /\ strip language <> [])
  /\ BlogGenerationResponse.content response <> []
  /\ List.length
       (calls (snd (run (Routes.generate_blog request
                           Workflow.create_workflow) env)))
     = 4.
Proof.
  intros Hfst Hwas.
  destruct (route_answer request env response Hfst)
    as (generation & selection & reply & _ & _ & _ & _ & _ & _ & _ & H).
  rewrite calls_exchanges, length_map.
  destruct H as [(_ & _ & _ & Hw) | (Htr & Hlen & translation & _ & Hc & Hw)];
    [congruence |].
  split; [| split; [| exact Hlen]].
  - destruct (StepFacts.should_translate_cases (Routes.initial_state request))
      as [(_ & text & Ht & Hne) | (Hend & _)].
    + cbn in Ht. inversion Ht. eauto.
    + rewrite Hend in Htr. symmetry in Htr.
      now apply StepFacts.translate_is_not_end in Htr.
  - rewrite Hc. apply truthy_nonempty. congruence.
Qed.

Lemma was_translated_sound_witness :
  fst (run (Routes.generate_blog (remote_work (Some (u "Spanish")))
              Workflow.create_workflow)
           (mock replies_spanish))
  = inr (inr spanish_response)
  /\ BlogGenerationResponse.was_translated spanish_response = true
  /\ BlogGenerationResponse.content spanish_response <> [].
Proof.
  assert (Hrun :
    fst (run (Routes.generate_blog (remote_work (Some (u "Spanish")))
                Workflow.create_workflow)
             (mock replies_spanish))
    = inr (inr spanish_response)) by (vm_compute; reflexivity).
  assert (Hwas : BlogGenerationResponse.was_translated spanish_response = true)
    by reflexivity.
  split; [exact Hrun |]. split; [exact Hwas |].
  now destruct (was_translated_sound _ _ _ Hrun Hwas) as (_ & Hc & _).
Defined.

(** When [run_workflow] raises [e], the route, given the same inputs and
    the same replies, raises the [HTTPException] made from [e] if [e] is an
    [Exception], and [e] itself if it is not (a [KeyboardInterrupt], say):
    the convenience function lets through what the route wraps. *)
Theorem run_workflow_raises (topic : str) (transcript target_language : option str)
  (style : str) (env : Env) (e : exn) :
  fst (run (Workflow.run_workflow topic transcript target_language style) env)
  = inl e ->
  e <> StopIteration ->
  fst (run (Routes.generate_blog
              {| BlogGenerationRequest.topic := topic;
                 BlogGenerationRequest.transcript := transcript;
                 BlogGenerationRequest.target_language := target_language;
                 BlogGenerationRequest.style := style |}
              Workflow.create_workflow) env)
  = if is_exception e then inr (inl (generation_failed e)) else inl e.
Proof.
  intros Hfst _.
  unfold run, Workflow.run_workflow, time in Hfst.
  cbn [bind exec] in Hfst. rewrite exec_bind in Hfst.
  unfold run, Routes.generate_blog.
  rewrite exec_try_except, exec_bind.
  unfold Routes.generate, time. cbn [bind exec].
  rewrite exec_bind.
  change (mkBlogState (Some topic) (Some transcript) (Some target_language)
            (Some style) (Some []) (Some []) (Some []) (Some None) (Some [])
            (Some 0%Z) (Some 0%Q))
    with (Routes.initial_state
            {| BlogGenerationRequest.topic := topic;
               BlogGenerationRequest.transcript := transcript;
               BlogGenerationRequest.target_language := target_language;
               BlogGenerationRequest.style := style |}) in Hfst.
  destruct (exec (LangGraph.invoke Workflow.create_workflow _) env 0 1)
    as [[e' | final0] tr0].
  - cbn [fst] in Hfst. inversion Hfst; subst e'.
    now destruct (is_exception e).
  - cbn [exec fst] in Hfst. discriminate Hfst.
Qed.

Lemma run_workflow_raises_witness :
  fst (run (Workflow.run_workflow (u "Remote Work") None None
              (u "professional"))
           (failing_after [five_titles] rate_limit))
  = inl rate_limit
  /\ fst (run (Routes.generate_blog (remote_work None)
                 Workflow.create_workflow)
              (failing_after [five_titles] rate_limit))
     = inr (inl (generation_failed rate_limit)).
Proof.
  assert (Hrun :
    fst (run (Workflow.run_workflow (u "Remote Work") None None
                (u "professional"))
             (failing_after [five_titles] rate_limit))
    = inl rate_limit) by (vm_compute; reflexivity).
  split; [exact Hrun |].
  assert (Hnot : rate_limit <> StopIteration) by discriminate.
  exact (run_workflow_raises _ _ _ _ _ _ Hrun Hnot).
Defined.

(** ** The translation step without a language *)

(** The guard of the translation step, as the test
    [test_translation_agent_skips_without_language] has it: with a model
    that answers (so that the client, which the step builds first, could be
    built), the step called on a state whose [target_language] is missing,
    [None] or the empty string makes no model call and returns
    [translated_content = None] with [final_content] the content held. *)
Theorem translation_agent_skips_without_language (state : BlogState)
  (content : str) (env : Env) :
  answers env ->
  blog_content state = Some content ->
  target_language state = None \/ target_language state = Some None
  \/ target_language state = Some (Some []) ->
  run (TranslationAgent.translation_agent state) env
  = (inr (set_final_content content
            (set_translated_content None State.empty)), []).
Proof.
  intros _ Hc Ht.
  rewrite (translation_agent_guard state content Hc); [reflexivity |].
  unfold language_given. now destruct Ht as [-> | [-> | ->]].
Qed.

Lemma translation_agent_skips_without_language_witness :
  answers (constant_model (u "ok"))
  /\ blog_content (some_content None) = Some (u "Some content")
  /\ run (TranslationAgent.translation_agent (some_content None))
         (constant_model (u "ok"))
     = (inr (set_final_content (u "Some content")
               (set_translated_content None State.empty)), []).
Proof.
  assert (Henv : answers (constant_model (u "ok")))
    by (intros n; exists (u "ok"); reflexivity).
  assert (Hc : blog_content (some_content None) = Some (u "Some content"))
    by reflexivity.
  split; [exact Henv |]. split; [exact Hc |].
  exact (translation_agent_skips_without_language (some_content None)
           (u "Some content") (constant_model (u "ok")) Henv Hc
           (or_intror (or_introl eq_refl))).
Defined.

(** ** The form *)

(** A request posted by the form is sent to translation exactly when the
    language selected is not "English" (and is not blank); for the options
    of the select box, exactly when it is not "English". *)
Theorem form_translates_unless_english (topic transcript style language : str) :
  (Router.should_translate
     (Routes.initial_state (Ui.payload topic transcript style language))
   = u "translate"
   <-> language <> u "English" /\ strip language <> [])
  /\ (In language Ui.languages ->
      (Router.should_translate
         (Routes.initial_state (Ui.payload topic transcript style language))
       = u "end" <-> language = u "English")).
Proof.
  split.
  - destruct (StepFacts.should_translate_cases
                (Routes.initial_state
                   (Ui.payload topic transcript style language)))
      as [(E & text & Ht & Hne) | (E & Hno)]; rewrite E.
    + unfold Routes.initial_state, Ui.payload in Ht.
      cbn [target_language BlogGenerationRequest.target_language] in Ht.
      destruct (str_eqb language (u "English")) eqn:Eng;
        cbn [negb] in Ht; inversion Ht; subst text.
      split; [intros _ | reflexivity].
      split; [| assumption].
      intros Heq. apply str_eqb_eq in Heq. congruence.
    + split.
      * intros H. symmetry in H.
        now apply StepFacts.translate_is_not_end in H.
      * intros (Hne & Hs). exfalso. apply Hno. exists language.
        split; [| assumption].
        unfold Routes.initial_state, Ui.payload.
        cbn [target_language BlogGenerationRequest.target_language].
        destruct (str_eqb language (u "English")) eqn:Eng; [| reflexivity].
        apply str_eqb_eq in Eng. contradiction.
  - intros Hin. cbn in Hin.
    repeat (destruct Hin as [<- | Hin];
            [vm_compute; split; intros H;
             first [reflexivity | discriminate H] |]).
    contradiction.
Qed.

Lemma form_translates_unless_english_witness :
  In (u "French") Ui.languages
  /\ Router.should_translate
       (Routes.initial_state
          (Ui.payload (u "Remote Work") [] (u "casual") (u "French")))
     = u "translate".
Proof.
  assert (Hin : In (u "French") Ui.languages) by (vm_compute; auto).
  split; [exact Hin |].
  destruct (form_translates_unless_english (u "Remote Work") []
              (u "casual") (u "French")) as (_ & H).
  destruct (H Hin) as (Hend & _).
  destruct (StepFacts.should_translate_cases
              (Routes.initial_state
                 (Ui.payload (u "Remote Work") [] (u "casual") (u "French"))))
    as [(E & _) | (E & _)]; [exact E |].
  apply Hend in E. discriminate E.
Defined.
